(** * secure_chat: session keys, message envelopes and the directory

    A shallow embedding of the chat application, followed by the properties
    of its key exchange and of its message envelope, of the routes of its
    server, and of its forms.

    The sources:
    - UI/src/utils/crypto.ts: hash, RSA and AES wrappers ([Crypto]);
    - services/api.ts, the second document of UI/src/utils/crypto.ts: the
      requests ([chatAPI]);
    - UI/src/components/Chat.tsx: the chat component ([Chat]);
    - UI/src/App.tsx: the application and its [handleLogout] ([App]);
    - unnamed/part_000: the chat routes of the server, with the routes for
      session keys and for the deletion of a public key ([Server]);
    - the second document of UI/src/components/Login.tsx: the Chat.tsx that
      exchanges session keys through the server ([Chat2]);
    - unnamed/part_003: the App.tsx whose [handleLogout] deletes the public
      key ([App.handleLogout_delete]);
    - unnamed/part_001 (routes/auth.routes.ts) with the schema of
      server/src/models/User.ts: registration and login ([Auth]);
    - [authAPI] of services/api.ts, the first document of
      UI/src/components/Login.tsx and UI/src/components/Register.tsx: the
      two forms ([authAPI], [Login], [Register]).

    JavaScript strings are sequences of UTF-16 code units, byte arrays
    ([Uint8Array]) are lists of bytes.  The cryptographic engine of the
    browser ([crypto.subtle]) is an interface, [WebCrypto]; everything else
    the code calls ([btoa], [atob], [TextEncoder], [TextDecoder], [split],
    [trim]) is written out, after the standards that define it (HTML for
    [atob] and [btoa], Encoding for the text codecs, ECMAScript for the
    strings).  A request carries the names as the functions of api.ts
    receive them: the writing of a name into the path of a URL, which
    api.ts does without escaping, and its reading by the router are left
    out.  This is what the code does for the names that a URL carries
    unchanged ([plainName]), and the statements that depend on the answer
    to a request with a name in its path are about such names. *)

From Stdlib Require Import NArith String Ascii Bool Lia.
From Stdlib.Strings Require Import Byte.
From stdpp Require Import gmap list.

Local Open Scope N_scope.

(** ** JavaScript strings *)

Module JS.

(** A string is the list of its UTF-16 code units. *)
Abbreviation jsstring := (list N).

(** A string literal of the source. *)
Definition js (s : string) : jsstring :=
  map N_of_ascii (list_ascii_of_string s).

(** [if (s)] on a value that is a string, [null] or [undefined]: only a
    non-empty string is truthy. *)
Definition truthy (v : option jsstring) : bool :=
  match v with
  | Some (_ :: _) => true
  | _ => false
  end.

(** [s.split(sep)] for a separator of one code unit: always at least one
    part. *)
Fixpoint split (sep : N) (s : jsstring) : list jsstring :=
  match s with
  | [] => [[]]
  | c :: rest =>
      if c =? sep then [] :: split sep rest
      else match split sep rest with
           | p :: ps => (c :: p) :: ps
           | [] => [[c]]
           end
  end.

(** [s.startsWith(p)]. *)
Fixpoint startsWith (s p : jsstring) : bool :=
  match p, s with
  | [], _ => true
  | _ :: _, [] => false
  | a :: p', b :: s' => (a =? b) && startsWith s' p'
  end.

(** WhiteSpace and LineTerminator of ECMAScript, what [trim] removes. *)
Definition isWhiteSpace (c : N) : bool :=
  (c =? 0x09) || (c =? 0x0A) || (c =? 0x0B) || (c =? 0x0C) || (c =? 0x0D)
  || (c =? 0x20) || (c =? 0xA0) || (c =? 0x1680)
  || ((0x2000 <=? c) && (c <=? 0x200A))
  || (c =? 0x2028) || (c =? 0x2029) || (c =? 0x202F) || (c =? 0x205F)
  || (c =? 0x3000) || (c =? 0xFEFF).

Fixpoint trimStart (s : jsstring) : jsstring :=
  match s with
  | c :: rest => if isWhiteSpace c then trimStart rest else s
  | [] => []
  end.

Definition trim (s : jsstring) : jsstring :=
  rev (trimStart (rev (trimStart s))).

(** [String.fromCharCode(...bytes)] and the [charCodeAt] loop that fills a
    [Uint8Array] from a binary string. *)
Definition fromCharCode (bs : list byte) : jsstring := map Byte.to_N bs.

Definition byte_of_N (n : N) : byte :=
  match Byte.of_N (n mod 256) with
  | Some b => b
  | None => x00
  end.

Definition charCodes (s : jsstring) : list byte := map byte_of_N s.

(** The value [undefined] where a string is expected becomes the string
    "undefined". *)
Definition toString (v : option jsstring) : jsstring :=
  match v with
  | Some s => s
  | None => js "undefined"
  end.

(** [b.toString(16).padStart(2, '0')] for a byte. *)
Definition hexDigit (d : N) : N := if d <? 10 then 48 + d else 87 + d.

Definition toHex2 (b : byte) : jsstring :=
  [hexDigit (Byte.to_N b / 16); hexDigit (Byte.to_N b mod 16)].

End JS.

Export JS.

(** ** Base64: [btoa] and [atob] *)

Module Base64.

Definition b64_char (i : N) : N :=
  if i <? 26 then 65 + i
  else if i <? 52 then 71 + i
  else if i <? 62 then i - 4
  else if i =? 62 then 43
  else 47.

Definition b64_index (c : N) : option N :=
  if (65 <=? c) && (c <=? 90) then Some (c - 65)
  else if (97 <=? c) && (c <=? 122) then Some (c - 71)
  else if (48 <=? c) && (c <=? 57) then Some (c + 4)
  else if c =? 43 then Some 62
  else if c =? 47 then Some 63
  else None.

Fixpoint b64_encode (s : list N) : jsstring :=
  match s with
  | [] => []
  | [a] => [b64_char (a / 4); b64_char ((a mod 4) * 16); 61; 61]
  | [a; b] =>
      [b64_char (a / 4); b64_char ((a mod 4) * 16 + b / 16);
       b64_char ((b mod 16) * 4); 61]
  | a :: b :: c :: rest =>
      b64_char (a / 4) :: b64_char ((a mod 4) * 16 + b / 16)
      :: b64_char ((b mod 16) * 4 + c / 64) :: b64_char (c mod 64)
      :: b64_encode rest
  end.

(** [btoa(s)]: an InvalidCharacterError ([None]) when a code unit is above
    255. *)
Definition btoa (s : jsstring) : option jsstring :=
  if forallb (fun c => c <? 256) s then Some (b64_encode s) else None.

Definition isAsciiWhitespace (c : N) : bool :=
  (c =? 9) || (c =? 10) || (c =? 12) || (c =? 13) || (c =? 32).

(** One or two [=] at the end are dropped. *)
Fixpoint strip_padding (s : jsstring) : jsstring :=
  match s with
  | [] => []
  | c :: rest =>
      match rest with
      | [] => if c =? 61 then [] else [c]
      | [d] => if (c =? 61) && (d =? 61) then [] else c :: strip_padding rest
      | _ => c :: strip_padding rest
      end
  end.

(** The groups of four characters; a rest of one is an error, a rest of two
    or three gives one or two bytes and drops the bits left over. *)
Fixpoint b64_decode (d : jsstring) : option (list N) :=
  match d with
  | [] => Some []
  | [_] => None
  | [a; b] =>
      match b64_index a, b64_index b with
      | Some x, Some y => Some [x * 4 + y / 16]
      | _, _ => None
      end
  | [a; b; c] =>
      match b64_index a, b64_index b, b64_index c with
      | Some x, Some y, Some z =>
          Some [x * 4 + y / 16; (y mod 16) * 16 + z / 4]
      | _, _, _ => None
      end
  | a :: b :: c :: e :: rest =>
      match b64_index a, b64_index b, b64_index c, b64_index e,
            b64_decode rest with
      | Some x, Some y, Some z, Some w, Some r =>
          Some (x * 4 + y / 16 :: (y mod 16) * 16 + z / 4
                :: (z mod 4) * 64 + w :: r)
      | _, _, _, _, _ => None
      end
  end.

(** [atob(s)], the forgiving-base64 decode of the platform: white space is
    removed, padding is dropped when the length is a multiple of four, and
    an InvalidCharacterError ([None]) is raised on any other character or
    on a length of one modulo four. *)
Definition atob (s : jsstring) : option jsstring :=
  let d := filter (fun c => isAsciiWhitespace c = false) s in
  let d := if (length d mod 4 =? 0)%nat then strip_padding d else d in
  b64_decode d.

(** [btoa(String.fromCharCode(...bytes))]: no code unit is above 255 and
    [btoa] cannot throw. *)
Definition btoa_bytes (bs : list byte) : jsstring :=
  b64_encode (fromCharCode bs).

End Base64.

Export Base64.


(** ** UTF-8: [TextEncoder] and [TextDecoder] *)

Module Utf8.

Definition isHighSurrogate (c : N) : bool := (0xD800 <=? c) && (c <=? 0xDBFF).
Definition isLowSurrogate (c : N) : bool := (0xDC00 <=? c) && (c <=? 0xDFFF).

(** The scalar values of a string: a surrogate pair is one code point, a
    surrogate on its own becomes U+FFFD. *)
Fixpoint toScalars (s : jsstring) : list N :=
  match s with
  | [] => []
  | c :: rest =>
      if isHighSurrogate c then
        match rest with
        | d :: rest' =>
            if isLowSurrogate d
            then 0x10000 + (c - 0xD800) * 0x400 + (d - 0xDC00) :: toScalars rest'
            else 0xFFFD :: toScalars rest
        | [] => [0xFFFD]
        end
      else if isLowSurrogate c then 0xFFFD :: toScalars rest
      else c :: toScalars rest
  end.

Definition encodeScalar (cp : N) : list byte :=
  if cp <? 0x80 then [byte_of_N cp]
  else if cp <? 0x800 then
    [byte_of_N (0xC0 + cp / 64); byte_of_N (0x80 + cp mod 64)]
  else if cp <? 0x10000 then
    [byte_of_N (0xE0 + cp / 4096); byte_of_N (0x80 + (cp / 64) mod 64);
     byte_of_N (0x80 + cp mod 64)]
  else
    [byte_of_N (0xF0 + cp / 262144); byte_of_N (0x80 + (cp / 4096) mod 64);
     byte_of_N (0x80 + (cp / 64) mod 64); byte_of_N (0x80 + cp mod 64)].

(** [new TextEncoder().encode(s)]. *)
Definition TextEncoder_encode (s : jsstring) : list byte :=
  concat (map encodeScalar (toScalars s)).

(** The state of the UTF-8 decoder of the Encoding Standard. *)
Record decoder := {
  codePoint : N;
  bytesSeen : N;
  bytesNeeded : N;
  lowerBoundary : N;
  upperBoundary : N }.

Definition decoder0 : decoder :=
  {| codePoint := 0; bytesSeen := 0; bytesNeeded := 0;
     lowerBoundary := 0x80; upperBoundary := 0xBF |}.

(** A byte read when no sequence is open: the code points it emits and the
    state after it. *)
Definition leadByte (b : N) : list N * decoder :=
  if b <=? 0x7F then ([b], decoder0)
  else if (0xC2 <=? b) && (b <=? 0xDF) then
    ([], {| codePoint := b mod 32; bytesSeen := 0; bytesNeeded := 1;
            lowerBoundary := 0x80; upperBoundary := 0xBF |})
  else if (0xE0 <=? b) && (b <=? 0xEF) then
    ([], {| codePoint := b mod 16; bytesSeen := 0; bytesNeeded := 2;
            lowerBoundary := if b =? 0xE0 then 0xA0 else 0x80;
            upperBoundary := if b =? 0xED then 0x9F else 0xBF |})
  else if (0xF0 <=? b) && (b <=? 0xF4) then
    ([], {| codePoint := b mod 8; bytesSeen := 0; bytesNeeded := 3;
            lowerBoundary := if b =? 0xF0 then 0x90 else 0x80;
            upperBoundary := if b =? 0xF4 then 0x8F else 0xBF |})
  else ([0xFFFD], decoder0).

(** One byte: outside an open sequence it is a lead byte; inside, a byte out
    of the boundaries ends the sequence with U+FFFD and is read again as a
    lead byte. *)
Definition decodeByte (d : decoder) (b : N) : list N * decoder :=
  if bytesNeeded d =? 0 then leadByte b
  else if (b <? lowerBoundary d) || (upperBoundary d <? b) then
    let (out, d') := leadByte b in (0xFFFD :: out, d')
  else
    let cp := codePoint d * 64 + b mod 64 in
    if bytesSeen d + 1 =? bytesNeeded d then ([cp], decoder0)
    else ([], {| codePoint := cp; bytesSeen := bytesSeen d + 1;
                 bytesNeeded := bytesNeeded d;
                 lowerBoundary := 0x80; upperBoundary := 0xBF |}).

Fixpoint decodeBytes (d : decoder) (bs : list byte) : list N :=
  match bs with
  | [] => if bytesNeeded d =? 0 then [] else [0xFFFD]
  | b :: rest =>
      let (out, d') := decodeByte d (Byte.to_N b) in
      out ++ decodeBytes d' rest
  end.

(** A code point as UTF-16 code units. *)
Definition fromCodePoint (cp : N) : jsstring :=
  if cp <? 0x10000 then [cp]
  else [0xD800 + (cp - 0x10000) / 0x400; 0xDC00 + (cp - 0x10000) mod 0x400].

(** The byte order mark is not kept: a first code point U+FEFF is left
    out. *)
Definition dropBOM (cps : list N) : list N :=
  match cps with
  | c :: rest => if c =? 0xFEFF then rest else cps
  | [] => []
  end.

(** [new TextDecoder().decode(bytes)]: UTF-8, not fatal (errors are U+FFFD),
    with [ignoreBOM] false. *)
Definition TextDecoder_decode (bs : list byte) : jsstring :=
  concat (map fromCodePoint (dropBOM (decodeBytes decoder0 bs))).

(** A scalar value: a code point that is no surrogate. *)
Definition isScalar (cp : N) : Prop :=
  cp < 0xD800 ∨ (0xE000 ≤ cp ∧ cp < 0x110000).

(** Well-formed UTF-16: code units of 16 bits, every surrogate half of a
    pair. *)
Fixpoint wellFormed (s : jsstring) : bool :=
  match s with
  | [] => true
  | c :: rest =>
      if isHighSurrogate c then
        match rest with
        | d :: rest' => isLowSurrogate d && wellFormed rest'
        | [] => false
        end
      else negb (isLowSurrogate c) && (c <? 0x10000) && wellFormed rest
  end.

End Utf8.

Export Utf8.

(** ** Exceptions and asynchronous functions *)

(** What the code can throw. *)
Inductive exn :=
| InvalidCharacterError          (* atob *)
| DataError                      (* crypto.subtle.importKey *)
| OperationError                 (* crypto.subtle.encrypt, decrypt *)
| AxiosError (status : option N) (* a refused request; None: no response *)
| TypeError                      (* a property of undefined *)
| Error (message : jsstring).    (* new Error(message) *)

Inductive result (A : Type) :=
| Ok (a : A)
| Throw (e : exn).

Arguments Ok {A} a.
Arguments Throw {A} e.

(** An [async] function over a state [S]: it returns or throws, and the
    state it has changed before a throw stays changed. *)
Definition M (S A : Type) : Type := S → result A * S.

Definition ret {S A} (a : A) : M S A := λ s, (Ok a, s).

Definition bind {S A B} (m : M S A) (k : A → M S B) : M S B :=
  λ s, match m s with
       | (Ok a, s') => k a s'
       | (Throw e, s') => (Throw e, s')
       end.

Definition throw {S A} (e : exn) : M S A := λ s, (Throw e, s).

(** [try { m } catch (err) { h }]. *)
Definition try_catch {S A} (m : M S A) (h : exn → M S A) : M S A :=
  λ s, match m s with
       | (Ok a, s') => (Ok a, s')
       | (Throw e, s') => h e s'
       end.

(** [try { m } finally { f }]. *)
Definition finally {S A} (m : M S A) (f : M S unit) : M S A :=
  λ s, match m s with
       | (r, s') =>
           match f s' with
           | (Ok _, s'') => (r, s'')
           | (Throw e, s'') => (Throw e, s'')
           end
       end.

Definition get {S} : M S S := λ s, (Ok s, s).
Definition gets {S A} (f : S → A) : M S A := λ s, (Ok (f s), s).
Definition modify {S} (f : S → S) : M S unit := λ s, (Ok tt, f s).

(** A value that may be an error, as an [await]ed promise. *)
Definition await {S A} (r : result A) : M S A := λ s, (r, s).

Definition of_option {A} (e : exn) (o : option A) : result A :=
  match o with
  | Some a => Ok a
  | None => Throw e
  end.

Declare Scope js_scope.
Delimit Scope js_scope with js.
Notation "x <- m ;; k" := (bind m (λ x, k))
  (at level 100, m at next level, right associativity) : js_scope.
Notation "m ;; k" := (bind m (λ _, k))
  (at level 100, right associativity) : js_scope.

(** [await Promise.all(l.map(async (x) => f x))]: the calls in the order of
    the list. *)
Fixpoint mapM {S A B} (f : A → M S B) (l : list A) : M S (list B) :=
  match l with
  | [] => ret []
  | x :: rest => (y <- f x ;; ys <- mapM f rest ;; ret (y :: ys))%js
  end.

(** ** The cryptographic engine of the browser *)

(** [crypto.subtle] for RSA-OAEP, AES-GCM and SHA-256.  Randomness is an
    argument: the bytes the engine draws. *)
Class WebCrypto := {
  RsaPublicKey : Type;
  RsaPrivateKey : Type;
  (** generateKey RSA-OAEP, modulus 2048, exponent 65537, SHA-256 *)
  rsa_generateKey : list byte → RsaPublicKey * RsaPrivateKey;
  rsa_generateKey_entropy : nat;
  (** exportKey and importKey for the format spki *)
  rsa_exportKey_spki : RsaPublicKey → list byte;
  rsa_importKey_spki : list byte → option RsaPublicKey;
  (** encrypt and decrypt RSA-OAEP; the seed of OAEP has 32 bytes *)
  rsa_oaep_encrypt : RsaPublicKey → list byte → list byte → option (list byte);
  rsa_oaep_decrypt : RsaPrivateKey → list byte → option (list byte);
  (** encrypt and decrypt AES-GCM: key, iv, data *)
  aes_gcm_encrypt : list byte → list byte → list byte → list byte;
  aes_gcm_decrypt : list byte → list byte → list byte → option (list byte);
  (** digest SHA-256 *)
  sha256_digest : list byte → list byte }.

(** What the engine guarantees. *)
Class WebCryptoLaws (WC : WebCrypto) : Prop := {
  aes_gcm_decrypt_encrypt : ∀ key iv data,
    length key ∈ [16; 24; 32]%nat → length iv = 12%nat →
    aes_gcm_decrypt key iv (aes_gcm_encrypt key iv data) = Some data;
  rsa_importKey_exportKey : ∀ pk,
    rsa_importKey_spki (rsa_exportKey_spki pk) = Some pk;
  rsa_oaep_decrypt_encrypt : ∀ seed keyseed data c,
    rsa_oaep_encrypt (rsa_generateKey keyseed).1 seed data = Some c →
    rsa_oaep_decrypt (rsa_generateKey keyseed).2 c = Some data }.

(** A source of random bytes: [crypto.getRandomValues] and the draws of the
    engine. *)
Record Entropy := {
  tape : nat → byte;
  cursor : nat }.

Definition draw (n : nat) (e : Entropy) : list byte * Entropy :=
  (map (tape e) (seq (cursor e) n),
   {| tape := tape e; cursor := (cursor e + n)%nat |}).

(** ** utils/crypto.ts *)

Module Crypto.
Section Crypto.
Context {WC : WebCrypto}.

(** An AES key object: its raw bytes. *)
Record CryptoKey := { raw : list byte }.

(** The key sizes of AES-GCM: what [generateKey] and [importKey] give. *)
Definition validKey (k : CryptoKey) : Prop :=
  length (raw k) ∈ [16; 24; 32]%nat.

Definition sha256 (message : jsstring) : jsstring :=
  let msgBuffer := TextEncoder_encode message in
  let hashBuffer := sha256_digest msgBuffer in
  concat (map toHex2 hashBuffer).

Definition generateRSAKeyPair (e : Entropy)
  : (jsstring * RsaPrivateKey) * Entropy :=
  let (seed, e') := draw rsa_generateKey_entropy e in
  let keyPair := rsa_generateKey seed in
  let exportedPublicKey := rsa_exportKey_spki keyPair.1 in
  let publicKeyBase64 := btoa_bytes exportedPublicKey in
  ((publicKeyBase64, keyPair.2), e').

Definition importRSAPublicKey (publicKeyBase64 : jsstring)
  : result RsaPublicKey :=
  match atob publicKeyBase64 with
  | None => Throw InvalidCharacterError
  | Some binaryString =>
      of_option DataError (rsa_importKey_spki (charCodes binaryString))
  end.

Definition rsaEncrypt (data : jsstring) (publicKey : RsaPublicKey)
  (e : Entropy) : result jsstring * Entropy :=
  let encoded := TextEncoder_encode data in
  let (seed, e') := draw 32 e in
  match rsa_oaep_encrypt publicKey seed encoded with
  | None => (Throw OperationError, e')
  | Some encrypted => (Ok (btoa_bytes encrypted), e')
  end.

Definition rsaDecrypt (encryptedData : jsstring) (privateKey : RsaPrivateKey)
  : result jsstring :=
  match atob encryptedData with
  | None => Throw InvalidCharacterError
  | Some binaryString =>
      match rsa_oaep_decrypt privateKey (charCodes binaryString) with
      | None => Throw OperationError
      | Some decrypted => Ok (TextDecoder_decode decrypted)
      end
  end.

Definition generateAESKey (e : Entropy) : CryptoKey * Entropy :=
  let (bytes, e') := draw 32 e in ({| raw := bytes |}, e').

Definition exportAESKey (key : CryptoKey) : jsstring :=
  btoa_bytes (raw key).

(** importKey raw for AES-GCM takes 128, 192 or 256 bits. *)
Definition importAESKey (keyBase64 : jsstring) : result CryptoKey :=
  match atob keyBase64 with
  | None => Throw InvalidCharacterError
  | Some binaryString =>
      let bytes := charCodes binaryString in
      if bool_decide (length bytes ∈ [16; 24; 32]%nat)
      then Ok {| raw := bytes |}
      else Throw DataError
  end.

Record Encrypted := { ciphertext : jsstring; iv : jsstring }.

Definition aesEncrypt (message : jsstring) (key : CryptoKey) (e : Entropy)
  : Encrypted * Entropy :=
  let (iv, e') := draw 12 e in
  let encoded := TextEncoder_encode message in
  let encrypted := aes_gcm_encrypt (raw key) iv encoded in
  ({| ciphertext := btoa_bytes encrypted;
      iv := btoa_bytes iv |}, e').

Definition aesDecrypt (ciphertext iv : jsstring) (key : CryptoKey)
  : result jsstring :=
  match atob ciphertext with
  | None => Throw InvalidCharacterError
  | Some ciphertextBinary =>
      let ciphertextBytes := charCodes ciphertextBinary in
      match atob iv with
      | None => Throw InvalidCharacterError
      | Some ivBinary =>
          let ivBytes := charCodes ivBinary in
          match aes_gcm_decrypt (raw key) ivBytes ciphertextBytes with
          | None => Throw OperationError
          | Some decrypted => Ok (TextDecoder_decode decrypted)
          end
      end
  end.

End Crypto.
End Crypto.

Export Crypto.

(** ** The documents of the server and of its answers *)

Module User.
Record t := { username : jsstring; createdAt : N }.
End User.

Module Message.
(** [_id] and [timestamp] are an ObjectId and a date: numbers here. *)
Record t := {
  _id : N;
  sender : jsstring;
  receiver : jsstring;
  encryptedContent : jsstring;
  messageHash : jsstring;
  timestamp : N }.

(** The same message stored with another digest, or with another
    envelope. *)
Definition withHash (h : jsstring) (m : t) : t :=
  {| _id := _id m; sender := sender m; receiver := receiver m;
     encryptedContent := encryptedContent m; messageHash := h;
     timestamp := timestamp m |}.

Definition withEnvelope (e : jsstring) (m : t) : t :=
  {| _id := _id m; sender := sender m; receiver := receiver m;
     encryptedContent := e; messageHash := messageHash m;
     timestamp := timestamp m |}.
End Message.

Module DecryptedMessage.
Record t := {
  id : N;
  sender : jsstring;
  receiver : jsstring;
  content : jsstring;
  timestamp : N;
  verified : bool }.

Definition withVerified (v : bool) (m : t) : t :=
  {| id := id m; sender := sender m; receiver := receiver m;
     content := content m; timestamp := timestamp m; verified := v |}.
End DecryptedMessage.

(** A request of services/api.ts, with the fields of its path and body. *)
Inductive request :=
| POST_public_key (username publicKey : jsstring)
| GET_public_key (username : jsstring)
| DELETE_public_key (username : jsstring)
| POST_messages (sender receiver encryptedContent messageHash : jsstring)
| GET_messages (user1 user2 : jsstring)
| GET_users (exclude : option jsstring)
| POST_session_key (sender receiver encryptedKey : jsstring)
| GET_session_key (sender receiver : jsstring).

Inductive body :=
| ErrorBody (error : jsstring)
| MessageBody (message : jsstring)
| PublicKeyBody (username publicKey : jsstring)
| SentBody (message : jsstring) (messageId : N)
| MessagesBody (messages : list Message.t)
| UsersBody (users : list User.t)
| SessionKeyBody (sender receiver encryptedKey : jsstring).

Record response := { status : N; data : body }.

(** ** The chat routes of the server (unnamed/part_000) *)

Module Server.

(** The collections of the database; [up] is false when the database
    fails, which every route answers with 500. *)
Record Db := {
  up : bool;
  User : list User.t;
  PublicKey : gmap jsstring jsstring;
  Message : list Message.t;
  SessionKey : gmap (jsstring * jsstring) jsstring;
  now : N }.

Definition set_PublicKey (f : gmap jsstring jsstring → gmap jsstring jsstring)
  (db : Db) : Db :=
  {| up := up db; User := User db; PublicKey := f (PublicKey db);
     Message := Message db; SessionKey := SessionKey db; now := now db |}.

Definition set_SessionKey
  (f : gmap (jsstring * jsstring) jsstring → gmap (jsstring * jsstring) jsstring)
  (db : Db) : Db :=
  {| up := up db; User := User db; PublicKey := PublicKey db;
     Message := Message db; SessionKey := f (SessionKey db); now := now db |}.

Definition save_Message (m : Message.t) (db : Db) : Db :=
  {| up := up db; User := User db; PublicKey := PublicKey db;
     Message := Message db ++ [m]; SessionKey := SessionKey db;
     now := now db + 1 |}.

(** [User.findOne({ username })] as a test: the schema of User
    (models/User.ts, [trim: true]) trims the name of a query. *)
Definition userExists (username : jsstring) (db : Db) : bool :=
  bool_decide (trim username ∈ map User.username (User db)).

(** [!s] for a field of the body. *)
Definition missing (s : jsstring) : bool :=
  match s with
  | [] => true
  | _ => false
  end.

Definition json (st : N) (b : body) (db : Db) : response * Db :=
  ({| status := st; data := b |}, db).

Definition internalError (db : Db) : response * Db :=
  json 500 (ErrorBody (js "Internal server error")) db.

(** router.post('/public-key') *)
Definition post_public_key (username publicKey : jsstring) (db : Db)
  : response * Db :=
  if missing username || missing publicKey then
    json 400 (ErrorBody (js "Username and public key are required")) db
  else if negb (up db) then internalError db
  else if negb (userExists username db) then
    json 404 (ErrorBody (js "User not found")) db
  else
    json 200 (MessageBody (js "Public key stored successfully"))
      (set_PublicKey (insert username publicKey) db).

(** router.get('/public-key/:username') *)
Definition get_public_key (username : jsstring) (db : Db) : response * Db :=
  if negb (up db) then internalError db
  else match PublicKey db !! username with
       | None => json 404 (ErrorBody (js "Public key not found for this user")) db
       | Some publicKey => json 200 (PublicKeyBody username publicKey) db
       end.

(** router.delete('/public-key/:username') *)
Definition delete_public_key (username : jsstring) (db : Db) : response * Db :=
  if negb (up db) then internalError db
  else json 200 (MessageBody (js "Public key deleted successfully"))
         (set_PublicKey (delete username) db).

(** router.post('/messages') *)
Definition post_messages (sender receiver encryptedContent messageHash : jsstring)
  (db : Db) : response * Db :=
  if missing sender || missing receiver || missing encryptedContent
     || missing messageHash then
    json 400 (ErrorBody (js "All fields are required")) db
  else if negb (up db) then internalError db
  else if negb (userExists sender db) || negb (userExists receiver db) then
    json 404 (ErrorBody (js "Sender or receiver not found")) db
  else
    let message :=
      {| Message._id := now db; Message.sender := sender;
         Message.receiver := receiver;
         Message.encryptedContent := encryptedContent;
         Message.messageHash := messageHash;
         Message.timestamp := now db |} in
    json 201 (SentBody (js "Message sent successfully") (Message._id message))
      (save_Message message db).

(** [.sort({ timestamp: 1 })]. *)
Fixpoint insertByTimestamp (m : Message.t) (l : list Message.t)
  : list Message.t :=
  match l with
  | [] => [m]
  | x :: rest =>
      if Message.timestamp m <? Message.timestamp x then m :: l
      else x :: insertByTimestamp m rest
  end.

Definition sortByTimestamp (l : list Message.t) : list Message.t :=
  foldl (λ acc m, insertByTimestamp m acc) [] l.

(** router.get('/messages/:user1/:user2') *)
Definition get_messages (user1 user2 : jsstring) (db : Db) : response * Db :=
  if negb (up db) then internalError db
  else
    let found :=
      filter (λ m, (Message.sender m = user1 ∧ Message.receiver m = user2)
                   ∨ (Message.sender m = user2 ∧ Message.receiver m = user1))
        (Message db) in
    json 200 (MessagesBody (sortByTimestamp found)) db.

(** router.get('/users'): the users with a public key, without [exclude].
    The names of the public keys are compared with [exclude] as they are;
    [User.find({ username: { $in: filteredUsernames } })] then trims them,
    as the schema of User has it for the names of a query. *)
Definition get_users (exclude : option jsstring) (db : Db) : response * Db :=
  if negb (up db) then internalError db
  else
    let onlineUsernames := (map_to_list (PublicKey db)).*1 in
    let filteredUsernames :=
      match exclude with
      | Some (c :: x) => filter (λ username, username ≠ c :: x) onlineUsernames
      | _ => onlineUsernames
      end in
    let users :=
      filter (λ u, User.username u ∈ map trim filteredUsernames) (User db) in
    json 200 (UsersBody users) db.

(** router.post('/session-key') *)
Definition post_session_key (sender receiver encryptedKey : jsstring) (db : Db)
  : response * Db :=
  if missing sender || missing receiver || missing encryptedKey then
    json 400 (ErrorBody (js "Sender, receiver, and encrypted key are required")) db
  else if negb (up db) then internalError db
  else if negb (userExists sender db) || negb (userExists receiver db) then
    json 404 (ErrorBody (js "Sender or receiver not found")) db
  else
    json 200 (MessageBody (js "Session key stored successfully"))
      (set_SessionKey (insert (sender, receiver) encryptedKey) db).

(** router.get('/session-key/:sender/:receiver'): the record of either
    direction, the direction asked for first. *)
Definition get_session_key (sender receiver : jsstring) (db : Db)
  : response * Db :=
  if negb (up db) then internalError db
  else
    match SessionKey db !! (sender, receiver) with
    | Some encryptedKey =>
        json 200 (SessionKeyBody sender receiver encryptedKey) db
    | None =>
        match SessionKey db !! (receiver, sender) with
        | Some encryptedKey =>
            json 200 (SessionKeyBody receiver sender encryptedKey) db
        | None => json 404 (ErrorBody (js "Session key not found")) db
        end
    end.

Definition route (r : request) : Db → response * Db :=
  match r with
  | POST_public_key username publicKey => post_public_key username publicKey
  | GET_public_key username => get_public_key username
  | DELETE_public_key username => delete_public_key username
  | POST_messages sender receiver encryptedContent messageHash =>
      post_messages sender receiver encryptedContent messageHash
  | GET_messages user1 user2 => get_messages user1 user2
  | GET_users exclude => get_users exclude
  | POST_session_key sender receiver encryptedKey =>
      post_session_key sender receiver encryptedKey
  | GET_session_key sender receiver => get_session_key sender receiver
  end.

End Server.

(** ** The world of a browser tab *)

(** What leaves the memory of the tab: a request sent, an entry written to
    or removed from local storage. *)
Inductive effect :=
| Sent (r : request)
| Stored (key value : jsstring)
| Removed (key : jsstring).

Record World := {
  localStorage : gmap jsstring jsstring;
  directory : Server.Db;
  online : bool;            (* do requests reach the server *)
  entropy : Entropy;
  trace : list effect }.

Definition set_localStorage (f : gmap jsstring jsstring → gmap jsstring jsstring)
  (w : World) : World :=
  {| localStorage := f (localStorage w); directory := directory w;
     online := online w; entropy := entropy w; trace := trace w |}.

Definition set_directory (db : Server.Db) (w : World) : World :=
  {| localStorage := localStorage w; directory := db;
     online := online w; entropy := entropy w; trace := trace w |}.

Definition set_entropy (e : Entropy) (w : World) : World :=
  {| localStorage := localStorage w; directory := directory w;
     online := online w; entropy := e; trace := trace w |}.

Definition log (x : effect) (w : World) : World :=
  {| localStorage := localStorage w; directory := directory w;
     online := online w; entropy := entropy w; trace := trace w ++ [x] |}.

(** [localStorage.getItem], [setItem] and [removeItem]. *)
Definition getItem {S} (world : S → World) (key : jsstring)
  : M S (option jsstring) :=
  gets (λ s, localStorage (world s) !! key).

Definition setItem (key value : jsstring) : M World unit :=
  modify (λ w, log (Stored key value) (set_localStorage (insert key value) w)).

Definition removeItem (key : jsstring) : M World unit :=
  modify (λ w, log (Removed key) (set_localStorage (delete key) w)).

(** A function that uses random bytes. *)
Definition random {A} (f : Entropy → A * Entropy) : M World A :=
  λ w, let (a, e) := f (entropy w) in (Ok a, set_entropy e w).

Definition random_result {A} (f : Entropy → result A * Entropy) : M World A :=
  λ w, let (a, e) := f (entropy w) in (a, set_entropy e w).

(** ** services/api.ts (UI/src/utils/crypto.ts, second document) *)

Module chatAPI.

(** A request of axios: it throws when no answer comes or when the status
    is not 2xx, and returns [response.data] otherwise.  The request is
    handed to its route with the names it was given, also when api.ts
    writes them into the path of the URL ([deletePublicKey],
    [getPublicKey], [getSessionKey], [getMessages]). *)
Definition axios (r : request) : M World body :=
  λ w,
    let w := log (Sent r) w in
    if online w then
      let (resp, db) := Server.route r (directory w) in
      if (200 <=? status resp) && (status resp <? 300)
      then (Ok (data resp), set_directory db w)
      else (Throw (AxiosError (Some (status resp))), set_directory db w)
    else (Throw (AxiosError None), w).

Definition storePublicKey (username publicKey : jsstring) : M World body :=
  axios (POST_public_key username publicKey).

Definition deletePublicKey (username : jsstring) : M World body :=
  axios (DELETE_public_key username).

Definition getPublicKey (username : jsstring) : M World body :=
  axios (GET_public_key username).

Definition storeSessionKey (sender receiver encryptedKey : jsstring)
  : M World body :=
  axios (POST_session_key sender receiver encryptedKey).

Definition getSessionKey (sender receiver : jsstring) : M World body :=
  axios (GET_session_key sender receiver).

Definition sendMessage (sender receiver encryptedContent messageHash : jsstring)
  : M World body :=
  axios (POST_messages sender receiver encryptedContent messageHash).

Definition getMessages (user1 user2 : jsstring) : M World body :=
  axios (GET_messages user1 user2).

Definition getUsers (excludeUser : option jsstring) : M World body :=
  axios (GET_users (if truthy excludeUser then excludeUser else None)).

End chatAPI.

(** The fields the client reads in an answer; [None] is [undefined]. *)
Definition body_publicKey (b : body) : option jsstring :=
  match b with
  | PublicKeyBody _ publicKey => Some publicKey
  | _ => None
  end.

Definition body_messages (b : body) : option (list Message.t) :=
  match b with
  | MessagesBody messages => Some messages
  | _ => None
  end.

Definition body_users (b : body) : list User.t :=
  match b with
  | UsersBody users => users
  | _ => []
  end.

Definition body_sender (b : body) : option jsstring :=
  match b with
  | SessionKeyBody sender _ _ => Some sender
  | _ => None
  end.

Definition body_receiver (b : body) : option jsstring :=
  match b with
  | SessionKeyBody _ receiver _ => Some receiver
  | _ => None
  end.

Definition body_encryptedKey (b : body) : option jsstring :=
  match b with
  | SessionKeyBody _ _ encryptedKey => Some encryptedKey
  | _ => None
  end.

(** ** components/Chat.tsx *)

Module Chat.
Section Chat.
Context {WC : WebCrypto}.
Local Open Scope js_scope.

(** The state and the refs of the component. *)
Record State := {
  users : list User.t;
  selectedUser : option jsstring;
  messages : list DecryptedMessage.t;
  newMessage : jsstring;
  loading : bool;
  error : jsstring;
  privateKeyRef : option RsaPrivateKey;
  publicKeyRef : jsstring;
  aesKeysRef : gmap jsstring CryptoKey }.

(** A mounted component: empty state, empty refs. *)
Definition mount : State :=
  {| users := []; selectedUser := None; messages := []; newMessage := [];
     loading := false; error := []; privateKeyRef := None;
     publicKeyRef := []; aesKeysRef := ∅ |}.

(** The component in its tab. *)
Record Tab := { chat : State; world : World }.

Definition onChat (f : State → State) : M Tab unit :=
  modify (λ t, {| chat := f (chat t); world := world t |}).

(** A function of crypto.ts or api.ts called from the component. *)
Definition call {A} (m : M World A) : M Tab A :=
  λ t, let (r, w) := m (world t) in (r, {| chat := chat t; world := w |}).

Definition setUsers (v : list User.t) : M Tab unit :=
  onChat (λ c, {| users := v; selectedUser := selectedUser c;
    messages := messages c; newMessage := newMessage c; loading := loading c;
    error := error c; privateKeyRef := privateKeyRef c;
    publicKeyRef := publicKeyRef c; aesKeysRef := aesKeysRef c |}).

Definition setSelectedUser (v : option jsstring) : M Tab unit :=
  onChat (λ c, {| users := users c; selectedUser := v;
    messages := messages c; newMessage := newMessage c; loading := loading c;
    error := error c; privateKeyRef := privateKeyRef c;
    publicKeyRef := publicKeyRef c; aesKeysRef := aesKeysRef c |}).

Definition setMessages (v : list DecryptedMessage.t) : M Tab unit :=
  onChat (λ c, {| users := users c; selectedUser := selectedUser c;
    messages := v; newMessage := newMessage c; loading := loading c;
    error := error c; privateKeyRef := privateKeyRef c;
    publicKeyRef := publicKeyRef c; aesKeysRef := aesKeysRef c |}).

Definition setNewMessage (v : jsstring) : M Tab unit :=
  onChat (λ c, {| users := users c; selectedUser := selectedUser c;
    messages := messages c; newMessage := v; loading := loading c;
    error := error c; privateKeyRef := privateKeyRef c;
    publicKeyRef := publicKeyRef c; aesKeysRef := aesKeysRef c |}).

Definition setLoading (v : bool) : M Tab unit :=
  onChat (λ c, {| users := users c; selectedUser := selectedUser c;
    messages := messages c; newMessage := newMessage c; loading := v;
    error := error c; privateKeyRef := privateKeyRef c;
    publicKeyRef := publicKeyRef c; aesKeysRef := aesKeysRef c |}).

Definition setError (v : jsstring) : M Tab unit :=
  onChat (λ c, {| users := users c; selectedUser := selectedUser c;
    messages := messages c; newMessage := newMessage c; loading := loading c;
    error := v; privateKeyRef := privateKeyRef c;
    publicKeyRef := publicKeyRef c; aesKeysRef := aesKeysRef c |}).

Definition setKeyRefs (privateKey : RsaPrivateKey) (publicKey : jsstring)
  : M Tab unit :=
  onChat (λ c, {| users := users c; selectedUser := selectedUser c;
    messages := messages c; newMessage := newMessage c; loading := loading c;
    error := error c; privateKeyRef := Some privateKey;
    publicKeyRef := publicKey; aesKeysRef := aesKeysRef c |}).

(** [aesKeysRef.current.set(username, sessionKey)]. *)
Definition aesKeysRef_set (username : jsstring) (sessionKey : CryptoKey)
  : M Tab unit :=
  onChat (λ c, {| users := users c; selectedUser := selectedUser c;
    messages := messages c; newMessage := newMessage c; loading := loading c;
    error := error c; privateKeyRef := privateKeyRef c;
    publicKeyRef := publicKeyRef c;
    aesKeysRef := <[username := sessionKey]> (aesKeysRef c) |}).

(** [aesKeysRef.current.get(username)]. *)
Definition aesKeysRef_get (username : jsstring) : M Tab (option CryptoKey) :=
  gets (λ t, aesKeysRef (chat t) !! username).

Variable currentUser : jsstring.

(** The template [`sessionKey_${a}_${b}`]. *)
Definition sessionKeyName (a b : jsstring) : jsstring :=
  js "sessionKey_" ++ a ++ js "_" ++ b.

(** The effect on mount: the RSA pair of the session; [console.error] has
    no effect here. *)
Definition initializeKeys : M Tab unit :=
  try_catch
    (kp <- call (random generateRSAKeyPair) ;;
     setKeyRefs kp.2 kp.1 ;;
     call (chatAPI.storePublicKey currentUser kp.1) ;;
     ret tt)
    (λ err, setError (js "Failed to initialize encryption keys")).

Definition fetchUsers : M Tab unit :=
  try_catch
    (response <- call (chatAPI.getUsers (Some currentUser)) ;;
     setUsers (body_users response))
    (λ err, ret tt).

(** Exchange session key using RSA encryption: the encrypted key is
    computed and dropped, the exported key is stored locally under the name
    of the other direction. *)
Definition exchangeSessionKey (username : jsstring) (sessionKey : CryptoKey)
  : M Tab unit :=
  try_catch
    (response <- call (chatAPI.getPublicKey username) ;;
     theirPublicKey <-
       await (importRSAPublicKey (toString (body_publicKey response))) ;;
     let exportedSessionKey := exportAESKey sessionKey in
     call (random_result (rsaEncrypt exportedSessionKey theirPublicKey)) ;;
     call (setItem (sessionKeyName username currentUser) exportedSessionKey))
    (λ err, ret tt).

(** Get or create AES session key for a user. *)
Definition getOrCreateSessionKey (username : jsstring) : M Tab CryptoKey :=
  cached <- aesKeysRef_get username ;;
  match cached with
  | Some sessionKey => ret sessionKey
  | None =>
      storedKey <- getItem world (sessionKeyName currentUser username) ;;
      if truthy storedKey then
        sessionKey <- await (importAESKey (toString storedKey)) ;;
        aesKeysRef_set username sessionKey ;;
        ret sessionKey
      else
        sessionKey <- call (random generateAESKey) ;;
        let exportedKey := exportAESKey sessionKey in
        aesKeysRef_set username sessionKey ;;
        call (setItem (sessionKeyName currentUser username) exportedKey) ;;
        exchangeSessionKey username sessionKey ;;
        ret sessionKey
  end.

(** The session key of [decryptMessage]: the ref, the local entry of this
    direction, then the entry of the reverse naming convention. *)
Definition lookupSessionKey (otherUser : jsstring) : M Tab CryptoKey :=
  cached <- aesKeysRef_get otherUser ;;
  match cached with
  | Some sessionKey => ret sessionKey
  | None =>
      storedKey <- getItem world (sessionKeyName currentUser otherUser) ;;
      if negb (truthy storedKey) then
        reverseKey <- getItem world (sessionKeyName otherUser currentUser) ;;
        if truthy reverseKey then
          sessionKey <- await (importAESKey (toString reverseKey)) ;;
          aesKeysRef_set otherUser sessionKey ;;
          ret sessionKey
        else throw (Error (js "No session key found"))
      else
        sessionKey <- await (importAESKey (toString storedKey)) ;;
        aesKeysRef_set otherUser sessionKey ;;
        ret sessionKey
  end.

(** The second half of [decryptMessage]: decrypt the envelope, verify the
    hash. *)
Definition openEnvelope (msg : Message.t) (sessionKey : CryptoKey)
  : result DecryptedMessage.t :=
  let parts := split 58 (Message.encryptedContent msg) in
  let ciphertext := toString (parts !! 0%nat) in
  let iv := toString (parts !! 1%nat) in
  match aesDecrypt ciphertext iv sessionKey with
  | Throw e => Throw e
  | Ok decryptedContent =>
      let computedHash := sha256 decryptedContent in
      let verified := bool_decide (computedHash = Message.messageHash msg) in
      Ok {| DecryptedMessage.id := Message._id msg;
            DecryptedMessage.sender := Message.sender msg;
            DecryptedMessage.receiver := Message.receiver msg;
            DecryptedMessage.content := decryptedContent;
            DecryptedMessage.timestamp := Message.timestamp msg;
            DecryptedMessage.verified := verified |}
  end.

(** Decrypt a message. *)
Definition decryptMessage (msg : Message.t) : M Tab DecryptedMessage.t :=
  let isReceived := bool_decide (Message.receiver msg = currentUser) in
  let otherUser := if isReceived then Message.sender msg
                   else Message.receiver msg in
  sessionKey <- lookupSessionKey otherUser ;;
  await (openEnvelope msg sessionKey).

(** What a message that could not be decrypted is shown as. *)
Definition decryptionFailed (msg : Message.t) : DecryptedMessage.t :=
  {| DecryptedMessage.id := Message._id msg;
     DecryptedMessage.sender := Message.sender msg;
     DecryptedMessage.receiver := Message.receiver msg;
     DecryptedMessage.content := js "[Decryption failed]";
     DecryptedMessage.timestamp := Message.timestamp msg;
     DecryptedMessage.verified := false |}.

(** The callback of [response.messages.map]. *)
Definition decryptOrMark (msg : Message.t) : M Tab DecryptedMessage.t :=
  try_catch (decryptMessage msg) (λ err, ret (decryptionFailed msg)).

(** Fetch and decrypt messages. *)
Definition fetchMessages : M Tab unit :=
  selected <- gets (λ t, selectedUser (chat t)) ;;
  if negb (truthy selected) then ret tt
  else
    try_catch
      (response <- call (chatAPI.getMessages currentUser (toString selected)) ;;
       msgs <- await (of_option TypeError (body_messages response)) ;;
       decryptedMessages <- mapM decryptOrMark msgs ;;
       setMessages decryptedMessages)
      (λ err, ret tt).

(** The hash and the envelope of [handleSendMessage]. *)
Definition sealMessage (message : jsstring) (sessionKey : CryptoKey)
  : M World (jsstring * jsstring) :=
  let messageHash := sha256 message in
  enc <- random (aesEncrypt message sessionKey) ;;
  let encryptedContent := ciphertext enc ++ js ":" ++ iv enc in
  ret (encryptedContent, messageHash).

(** Send a message. *)
Definition handleSendMessage : M Tab unit :=
  message <- gets (λ t, newMessage (chat t)) ;;
  selected <- gets (λ t, selectedUser (chat t)) ;;
  if negb (truthy (Some (trim message))) || negb (truthy selected) then ret tt
  else
    setLoading true ;;
    setError [] ;;
    finally
      (try_catch
         (sessionKey <- getOrCreateSessionKey (toString selected) ;;
          sealed <- call (sealMessage message sessionKey) ;;
          call (chatAPI.sendMessage currentUser (toString selected)
                  sealed.1 sealed.2) ;;
          setNewMessage [] ;;
          fetchMessages)
         (λ err, setError (js "Failed to send message")))
      (setLoading false).

End Chat.
End Chat.

(** ** The Chat.tsx that exchanges keys through the server

    The repository holds a second Chat.tsx, printed after Login.tsx
    (UI/src/components/Login.tsx, its second document): the state, the key
    pair, [fetchUsers] and the hash and envelope of a message are those of
    [Chat]; the session key is looked for on the server and published
    there. *)

Module Chat2.
Section Chat2.
Context {WC : WebCrypto}.
Local Open Scope js_scope.

Variable currentUser : jsstring.

(** The order of [sort()] on strings: by code units. *)
Fixpoint lessThan (a b : jsstring) : bool :=
  match a, b with
  | [], [] => false
  | [], _ :: _ => true
  | _ :: _, [] => false
  | x :: a', y :: b' => (x <? y) || ((x =? y) && lessThan a' b')
  end.

(** [`conversationKey_${[a, b].sort().join('_')}`]. *)
Definition conversationKeyName (a b : jsstring) : jsstring :=
  js "conversationKey_"
  ++ (if lessThan b a then b ++ js "_" ++ a else a ++ js "_" ++ b).

Definition exchangeSessionKey (username : jsstring) (sessionKey : CryptoKey)
  : M Chat.Tab unit :=
  try_catch
    (response <- Chat.call (chatAPI.getPublicKey username) ;;
     theirPublicKey <-
       await (importRSAPublicKey (toString (body_publicKey response))) ;;
     let exportedSessionKey := exportAESKey sessionKey in
     encryptedSessionKey <-
       Chat.call (random_result (rsaEncrypt exportedSessionKey theirPublicKey)) ;;
     Chat.call (chatAPI.storeSessionKey currentUser username encryptedSessionKey) ;;
     ret tt)
    (λ err, ret tt).

(** The [try] of [getOrCreateSessionKey]: the key it returns, or [None]
    when it goes on to create one. *)
Definition fetchSessionKey (username storageKey : jsstring)
  : M Chat.Tab (option CryptoKey) :=
  try_catch
    (response <- Chat.call (chatAPI.getSessionKey currentUser username) ;;
     if bool_decide (body_receiver response = Some currentUser) then
       privateKey <- gets (λ t, Chat.privateKeyRef (Chat.chat t)) ;;
       privateKey <- await (of_option TypeError privateKey) ;;
       decryptedKey <-
         await (rsaDecrypt (toString (body_encryptedKey response)) privateKey) ;;
       sessionKey <- await (importAESKey decryptedKey) ;;
       let exportedKey := exportAESKey sessionKey in
       Chat.aesKeysRef_set username sessionKey ;;
       Chat.call (setItem storageKey exportedKey) ;;
       ret (Some sessionKey)
     else if bool_decide (body_sender response = Some currentUser)
             && bool_decide (body_receiver response = Some username)
     then throw (Error (js "Need to create new key"))
     else ret None)
    (λ err, ret None).

Definition getOrCreateSessionKey (username : jsstring) : M Chat.Tab CryptoKey :=
  cached <- Chat.aesKeysRef_get username ;;
  match cached with
  | Some sessionKey => ret sessionKey
  | None =>
      let storageKey := conversationKeyName currentUser username in
      storedKey <- getItem Chat.world storageKey ;;
      if truthy storedKey then
        sessionKey <- await (importAESKey (toString storedKey)) ;;
        Chat.aesKeysRef_set username sessionKey ;;
        ret sessionKey
      else
        fetched <- fetchSessionKey username storageKey ;;
        match fetched with
        | Some sessionKey => ret sessionKey
        | None =>
            sessionKey <- Chat.call (random generateAESKey) ;;
            let exportedKey := exportAESKey sessionKey in
            Chat.aesKeysRef_set username sessionKey ;;
            Chat.call (setItem storageKey exportedKey) ;;
            exchangeSessionKey username sessionKey ;;
            ret sessionKey
        end
  end.

(** The second half of [decryptMessage], with its test of the parts. *)
Definition openEnvelope (msg : Message.t) (sessionKey : CryptoKey)
  : result DecryptedMessage.t :=
  let parts := split 58 (Message.encryptedContent msg) in
  if negb (length parts =? 2)%nat
  then Throw (Error (js "Invalid encrypted content format"))
  else Chat.openEnvelope msg sessionKey.

Definition decryptMessage (msg : Message.t) : M Chat.Tab DecryptedMessage.t :=
  let isReceived := bool_decide (Message.receiver msg = currentUser) in
  let otherUser := if isReceived then Message.sender msg
                   else Message.receiver msg in
  sessionKey <- getOrCreateSessionKey otherUser ;;
  await (openEnvelope msg sessionKey).

End Chat2.
End Chat2.

(** ** App.tsx *)

Module App.
Section App.
Context {WC : WebCrypto}.
Local Open Scope js_scope.

Inductive ViewType := login | register | chat.

(** The state of the application; [component] is the [<Chat/>] on the page,
    which is there while the view is the chat and a user is set. *)
Record State := {
  currentView : ViewType;
  currentUser : option jsstring;
  component : option Chat.State }.

Record Browser := { app : State; world : World }.

Definition start : State :=
  {| currentView := login; currentUser := None; component := None |}.

Definition onApp (f : State → State) : M Browser unit :=
  modify (λ b, {| app := f (app b); world := world b |}).

Definition onWorld {A} (m : M World A) : M Browser A :=
  λ b, let (r, w) := m (world b) in (r, {| app := app b; world := w |}).

Definition setCurrentUser (v : option jsstring) : M Browser unit :=
  onApp (λ a, {| currentView := currentView a; currentUser := v;
                 component := component a |}).

Definition setCurrentView (v : ViewType) : M Browser unit :=
  onApp (λ a, {| currentView := v; currentUser := currentUser a;
                 component := component a |}).

Definition setComponent (v : option Chat.State) : M Browser unit :=
  onApp (λ a, {| currentView := currentView a; currentUser := currentUser a;
                 component := v |}).

(** A function of the component on the page, for the user it was given;
    nothing happens when there is no component. *)
Definition inChat (m : jsstring → M Chat.Tab unit) : M Browser unit :=
  λ b,
    match currentUser (app b), component (app b) with
    | Some user, Some c =>
        let (r, t) := m user {| Chat.chat := c; Chat.world := world b |} in
        (r, {| app := {| currentView := currentView (app b);
                         currentUser := currentUser (app b);
                         component := Some (Chat.chat t) |};
               world := Chat.world t |})
    | _, _ => (Ok tt, b)
    end.

(** [{currentView === 'chat' && currentUser && <Chat .../>}]: the component
    is mounted, with its effect on mount, or taken off the page with its
    state and refs. *)
Definition render : M Browser unit :=
  a <- gets app ;;
  match currentView a with
  | chat =>
      if truthy (currentUser a) then
        match component a with
        | Some _ => ret tt
        | None =>
            setComponent (Some Chat.mount) ;;
            inChat Chat.initializeKeys ;;
            inChat Chat.fetchUsers
        end
      else setComponent None
  | _ => setComponent None
  end.

(** Check for existing session. *)
Definition checkSession : M Browser unit :=
  savedUser <- getItem world (js "currentUser") ;;
  (if truthy savedUser
   then setCurrentUser savedUser ;; setCurrentView chat
   else ret tt) ;;
  render.

Definition handleLoginSuccess (username : jsstring) : M Browser unit :=
  setCurrentUser (Some username) ;;
  onWorld (setItem (js "currentUser") username) ;;
  setCurrentView chat ;;
  render.

Definition handleRegisterSuccess : M Browser unit :=
  setCurrentView login ;; render.

(** [Object.keys(localStorage).forEach(...)]: the session keys are
    cleared. *)
Definition clearSessionKeys : M Browser unit :=
  keys <- gets (λ b, (map_to_list (localStorage (world b))).*1) ;;
  mapM (λ key, if startsWith key (js "sessionKey_")
               then onWorld (removeItem key) else ret tt) keys ;;
  ret tt.

(** [handleLogout] of UI/src/App.tsx. *)
Definition handleLogout : M Browser unit :=
  setCurrentUser None ;;
  onWorld (removeItem (js "currentUser")) ;;
  clearSessionKeys ;;
  setCurrentView login ;;
  render.

(** [handleLogout] of the other App.tsx of the repository
    (unnamed/part_003): the public key is removed from the server first;
    [sessionStorage], which holds a tab id only, is left out. *)
Definition handleLogout_delete : M Browser unit :=
  user <- gets (λ b, currentUser (app b)) ;;
  (if truthy user
   then try_catch (onWorld (chatAPI.deletePublicKey (toString user)) ;; ret tt)
          (λ err, ret tt)
   else ret tt) ;;
  setCurrentUser None ;;
  onWorld (removeItem (js "currentUser")) ;;
  setCurrentView login ;;
  render.

(** What happens in the browser: the page is opened, the handlers of the
    application and of the component run, and other tabs, other users and
    the network change the world. *)
Inductive action :=
| Open
| LoginSuccess (username : jsstring)
| RegisterSuccess
| Logout
| LogoutDelete
| SelectUser (username : jsstring)
| TypeMessage (text : jsstring)
| SendMessage
| PollMessages
| RefreshUsers
| Elsewhere (f : World → World).

Definition step (a : action) : M Browser unit :=
  match a with
  | Open => checkSession
  | LoginSuccess username => handleLoginSuccess username
  | RegisterSuccess => handleRegisterSuccess
  | Logout => handleLogout
  | LogoutDelete => handleLogout_delete
  | SelectUser username =>
      inChat (λ user, Chat.setSelectedUser (Some username) ;;
                      Chat.fetchMessages user)
  | TypeMessage text => inChat (λ _, Chat.setNewMessage text)
  | SendMessage => inChat Chat.handleSendMessage
  | PollMessages => inChat Chat.fetchMessages
  | RefreshUsers => inChat Chat.fetchUsers
  | Elsewhere f => onWorld (modify f)
  end.

(** A handler that throws leaves the state it has reached. *)
Fixpoint run (l : list action) (b : Browser) : Browser :=
  match l with
  | [] => b
  | a :: rest => run rest (step a b).2
  end.

End App.
End App.

(** ** The accounts of the server (unnamed/part_001: routes/auth.routes.ts)

    The documents of the collection User have a third field, [passwordHash],
    which the chat routes never read: it is kept beside the database of
    [Server], by username.  The schema of User (models/User.ts) trims the
    username, in a document and in the filter of a query, and wants the
    username to have three characters at least and the hash not to be
    empty: a document that fails this is not saved, and the route answers
    the ValidationError with 500. *)

Module Auth.
Section Auth.
Context {WC : WebCrypto}.

Record Db := {
  chat : Server.Db;
  passwordHash : gmap jsstring jsstring }.

Inductive request :=
| POST_register (username password : jsstring)
| POST_login (username password : jsstring).

Inductive body :=
| ErrorBody (error : jsstring)
| UserBody (message username : jsstring).

Record response := { status : N; data : body }.

(** Hash password using SHA-256:
    [crypto.createHash('sha256').update(password).digest('hex')], the hash
    of the UTF-8 bytes in hexadecimal, as [sha256] of crypto.ts. *)
Definition hashPassword (password : jsstring) : jsstring := sha256 password.

(** [User.findOne({ username })]. *)
Definition findOne (username : jsstring) (db : Db) : option User.t :=
  List.find (λ user, bool_decide (User.username user = trim username))
    (Server.User (chat db)).

(** [new User({ username, passwordHash })] and [user.save()]: [None] is the
    ValidationError. *)
Definition save (username passwordHash : jsstring) (db : Db) : option Db :=
  let name := trim username in
  if (length name <? 3)%nat || Server.missing passwordHash then None
  else
    let user := {| User.username := name;
                   User.createdAt := Server.now (chat db) |} in
    Some {| chat := {| Server.up := Server.up (chat db);
                       Server.User := Server.User (chat db) ++ [user];
                       Server.PublicKey := Server.PublicKey (chat db);
                       Server.Message := Server.Message (chat db);
                       Server.SessionKey := Server.SessionKey (chat db);
                       Server.now := Server.now (chat db) + 1 |};
            passwordHash := <[name := passwordHash]> (Auth.passwordHash db) |}.

Definition json (st : N) (b : body) (db : Db) : response * Db :=
  ({| status := st; data := b |}, db).

Definition internalError (db : Db) : response * Db :=
  json 500 (ErrorBody (js "Internal server error")) db.

(** router.post('/register') *)
Definition register (username password : jsstring) (db : Db) : response * Db :=
  if Server.missing username || Server.missing password then
    json 400 (ErrorBody (js "Username and password are required")) db
  else if (length username <? 3)%nat then
    json 400 (ErrorBody (js "Username must be at least 3 characters long")) db
  else if (length password <? 6)%nat then
    json 400 (ErrorBody (js "Password must be at least 6 characters long")) db
  else if negb (Server.up (chat db)) then internalError db
  else
    match findOne username db with
    | Some existingUser => json 400 (ErrorBody (js "Username already exists")) db
    | None =>
        let passwordHash := hashPassword password in
        match save username passwordHash db with
        | None => internalError db
        | Some db' =>
            json 201 (UserBody (js "User registered successfully")
                        (trim username)) db'
        end
    end.

(** router.post('/login') *)
Definition login (username password : jsstring) (db : Db) : response * Db :=
  if Server.missing username || Server.missing password then
    json 400 (ErrorBody (js "Username and password are required")) db
  else if negb (Server.up (chat db)) then internalError db
  else
    match findOne username db with
    | None => json 401 (ErrorBody (js "Invalid username or password")) db
    | Some user =>
        let passwordHash := hashPassword password in
        if bool_decide (Some passwordHash
                        ≠ Auth.passwordHash db !! User.username user)
        then json 401 (ErrorBody (js "Invalid username or password")) db
        else json 200 (UserBody (js "Login successful") (User.username user)) db
    end.

Definition route (r : request) : Db → response * Db :=
  match r with
  | POST_register username password => register username password
  | POST_login username password => login username password
  end.

End Auth.
End Auth.

(** ** The forms: services/api.ts, components/Login.tsx and
    components/Register.tsx *)

(** A promise of axios when it has settled: fulfilled with [response.data],
    or rejected with an error whose [response] is the answer of the server,
    when one came. *)
Inductive settled :=
| Fulfilled (data : Auth.body)
| Rejected (response : option Auth.response).

(** [err.response?.data?.error || fallback]. *)
Definition errorOr (err : option Auth.response) (fallback : jsstring)
  : jsstring :=
  match err with
  | Some {| Auth.data := Auth.ErrorBody (c :: error) |} => c :: error
  | _ => fallback
  end.

(** [response.username]. *)
Definition body_username (b : Auth.body) : option jsstring :=
  match b with
  | Auth.UserBody _ username => Some username
  | _ => None
  end.

Module authAPI.
Section authAPI.
Context {WC : WebCrypto}.

(** The application in front of the whole server: the browser, and the
    hashes of the accounts. *)
Record Site := {
  browser : App.Browser;
  hashes : gmap jsstring jsstring }.

Definition accounts (s : Site) : Auth.Db :=
  {| Auth.chat := directory (App.world (browser s));
     Auth.passwordHash := hashes s |}.

Definition set_accounts (db : Auth.Db) (s : Site) : Site :=
  {| browser := {| App.app := App.app (browser s);
                   App.world := set_directory (Auth.chat db)
                                  (App.world (browser s)) |};
     hashes := Auth.passwordHash db |}.

(** [axios.post] under [await], settled.  The trace of the world holds the
    requests of the chat; those of the two forms are not written to it. *)
Definition axios (r : Auth.request) : M Site settled :=
  λ s,
    if online (App.world (browser s)) then
      let (resp, db) := Auth.route r (accounts s) in
      if (200 <=? Auth.status resp) && (Auth.status resp <? 300)
      then (Ok (Fulfilled (Auth.data resp)), set_accounts db s)
      else (Ok (Rejected (Some resp)), set_accounts db s)
    else (Ok (Rejected None), s).

Definition register (username password : jsstring) : M Site settled :=
  axios (Auth.POST_register username password).

Definition login (username password : jsstring) : M Site settled :=
  axios (Auth.POST_login username password).

Definition onBrowser {A} (m : M App.Browser A) : M Site A :=
  λ s, let (r, b) := m (browser s) in (r, {| browser := b; hashes := hashes s |}).

End authAPI.
End authAPI.

Module Login.
Section Login.
Context {WC : WebCrypto}.
Local Open Scope js_scope.

Record State := {
  username : jsstring;
  password : jsstring;
  error : jsstring;
  loading : bool }.

(** The form on its page. *)
Record Page := { form : State; site : authAPI.Site }.

Definition setError (v : jsstring) : M Page unit :=
  modify (λ p, {| form := {| username := username (form p);
                             password := password (form p); error := v;
                             loading := loading (form p) |};
                  site := site p |}).

Definition setLoading (v : bool) : M Page unit :=
  modify (λ p, {| form := {| username := username (form p);
                             password := password (form p);
                             error := error (form p); loading := v |};
                  site := site p |}).

Definition onSite {A} (m : M authAPI.Site A) : M Page A :=
  λ p, let (r, s) := m (site p) in (r, {| form := form p; site := s |}).

(** [handleSubmit]; [onLoginSuccess] is [handleLoginSuccess] of App.tsx.
    The promise of [authAPI.login] is awaited in the [try]: rejected, its
    error goes to the [catch], as an exception of [onLoginSuccess] does,
    which has no [response]. *)
Definition handleSubmit : M Page unit :=
  setError [] ;;
  f <- gets form ;;
  if negb (truthy (Some (username f))) || negb (truthy (Some (password f)))
  then setError (js "Please fill in all fields")
  else
    setLoading true ;;
    finally
      (promise <- onSite (authAPI.login (username f) (password f)) ;;
       match promise with
       | Fulfilled response =>
           try_catch
             (onSite (authAPI.onBrowser
                        (App.handleLoginSuccess
                           (toString (body_username response)))))
             (λ _, setError (js "Login failed. Please try again."))
       | Rejected err =>
           setError (errorOr err (js "Login failed. Please try again."))
       end)
      (setLoading false).

End Login.
End Login.

Module Register.
Section Register.
Context {WC : WebCrypto}.
Local Open Scope js_scope.

Record State := {
  username : jsstring;
  password : jsstring;
  confirmPassword : jsstring;
  error : jsstring;
  loading : bool }.

Record Page := { form : State; site : authAPI.Site }.

Definition setError (v : jsstring) : M Page unit :=
  modify (λ p, {| form := {| username := username (form p);
                             password := password (form p);
                             confirmPassword := confirmPassword (form p);
                             error := v; loading := loading (form p) |};
                  site := site p |}).

Definition setLoading (v : bool) : M Page unit :=
  modify (λ p, {| form := {| username := username (form p);
                             password := password (form p);
                             confirmPassword := confirmPassword (form p);
                             error := error (form p); loading := v |};
                  site := site p |}).

Definition onSite {A} (m : M authAPI.Site A) : M Page A :=
  λ p, let (r, s) := m (site p) in (r, {| form := form p; site := s |}).

(** [handleSubmit]; [onRegisterSuccess] is [handleRegisterSuccess] of
    App.tsx, and [alert] shows a message and changes nothing.  The [try] and
    its [catch] are those of Login.tsx. *)
Definition handleSubmit : M Page unit :=
  setError [] ;;
  f <- gets form ;;
  if negb (truthy (Some (username f))) || negb (truthy (Some (password f)))
     || negb (truthy (Some (confirmPassword f)))
  then setError (js "Please fill in all fields")
  else if (length (username f) <? 3)%nat
  then setError (js "Username must be at least 3 characters long")
  else if (length (password f) <? 6)%nat
  then setError (js "Password must be at least 6 characters long")
  else if negb (bool_decide (password f = confirmPassword f))
  then setError (js "Passwords do not match")
  else
    setLoading true ;;
    finally
      (promise <- onSite (authAPI.register (username f) (password f)) ;;
       match promise with
       | Fulfilled _ =>
           try_catch
             (onSite (authAPI.onBrowser App.handleRegisterSuccess))
             (λ _, setError (js "Registration failed. Please try again."))
       | Rejected err =>
           setError (errorOr err (js "Registration failed. Please try again."))
       end)
      (setLoading false).

End Register.
End Register.

(** ** A model of the engine

    The laws of [WebCryptoLaws] have a model: keys that are their seed,
    ciphertexts that carry the key they were made for.  It runs, and is the
    engine of the examples. *)

Module Model.

#[global] Instance byte_eq_dec : EqDecision byte := Byte.byte_eq_dec.

(** [data] without the prefix [p], when it starts with [p]. *)
Definition unwrap (p data : list byte) : option (list byte) :=
  if bool_decide (take (length p) data = p)
  then Some (drop (length p) data) else None.

Definition engine : WebCrypto := {|
  RsaPublicKey := list byte;
  RsaPrivateKey := list byte;
  rsa_generateKey := λ seed, (seed, seed);
  rsa_generateKey_entropy := 4;
  rsa_exportKey_spki := λ pk, pk;
  rsa_importKey_spki := λ bs, Some bs;
  rsa_oaep_encrypt := λ pk seed data, Some (pk ++ data);
  rsa_oaep_decrypt := λ sk c, unwrap sk c;
  aes_gcm_encrypt := λ key iv data, key ++ iv ++ data;
  aes_gcm_decrypt := λ key iv c, unwrap (key ++ iv) c;
  sha256_digest := λ data, take 32 (data ++ replicate 32 x00) |}.

(** Random bytes 0, 1, 2, ... *)
Definition counting : Entropy :=
  {| tape := λ n, byte_of_N (N.of_nat n); cursor := 0 |}.

Definition alice : jsstring := js "alice".
Definition bob : jsstring := js "bob".

(** A server with the users alice and bob and nothing else. *)
Definition db0 : Server.Db :=
  {| Server.up := true;
     Server.User := [ {| User.username := alice; User.createdAt := 1 |};
                      {| User.username := bob; User.createdAt := 2 |} ];
     Server.PublicKey := ∅; Server.Message := []; Server.SessionKey := ∅;
     Server.now := 3 |}.

Definition world0 : World :=
  {| localStorage := ∅; directory := db0; online := true;
     entropy := counting; trace := [] |}.

(** The same world when the server cannot be reached. *)
Definition offline0 : World :=
  {| localStorage := ∅; directory := db0; online := false;
     entropy := counting; trace := [] |}.

(** The server after bob has published a public key. *)
Definition db1 : Server.Db :=
  (Server.post_public_key bob (btoa_bytes [x0a; x0b; x0c; x0d]) db0).2.

Definition world1 : World :=
  {| localStorage := ∅; directory := db1; online := true;
     entropy := counting; trace := [] |}.

(** The server when alice has left a session key for bob. *)
Definition db2 : Server.Db :=
  (Server.post_session_key alice bob (js "QUJD") db1).2.

(** A key of 256 bits. *)
Definition key0 : CryptoKey := {| raw := replicate 32 x2a |}.

(** The component of a user who has just opened the chat. *)
Definition tab (w : World) : Chat.Tab (WC := engine) :=
  {| Chat.chat := Chat.mount; Chat.world := w |}.

(** The pair of a result, or a default. *)
Definition okOr {A} (d : A) (r : result A) : A :=
  match r with
  | Ok a => a
  | Throw _ => d
  end.

(** "hello" and U+FEFF "hi" sealed under [key0]: envelope and hash. *)
Definition sealedHello : jsstring * jsstring :=
  okOr ([], []) (Chat.sealMessage (WC := engine) (js "hello") key0 world0).1.

Definition sealedMark : jsstring * jsstring :=
  okOr ([], [])
    (Chat.sealMessage (WC := engine) (0xFEFF :: js "hi") key0 world0).1.

(** alice has opened the chat with bob and sent "hello"; then a message
    that is no envelope arrives from bob. *)
Definition chatting : App.Browser (WC := engine) :=
  App.run [App.LoginSuccess alice; App.SelectUser bob;
           App.TypeMessage (js "hello"); App.SendMessage;
           App.Elsewhere (λ w, set_directory
             (Server.post_messages bob alice (js "garbage") (js "00")
                (directory w)).2 w)]
    {| App.app := App.start; App.world := world1 |}.

(** The component of alice in [chatting]. *)
Definition chattingTab : Chat.Tab (WC := engine) :=
  {| Chat.chat := default Chat.mount (App.component (App.app chatting));
     Chat.world := App.world chatting |}.

(** The messages of alice and bob on the server of [chatting], and the
    first of them. *)
Definition stored : list Message.t :=
  default [] (body_messages
    (okOr (ErrorBody []) (chatAPI.getMessages alice bob (App.world chatting)).1)).

Definition noMessage : Message.t :=
  {| Message._id := 0; Message.sender := []; Message.receiver := [];
     Message.encryptedContent := []; Message.messageHash := [];
     Message.timestamp := 0 |}.

Definition hello : Message.t := default noMessage (head stored).

(** Another browser, with random bytes of its own, in front of a server. *)
Definition elsewhere (db : Server.Db) : World :=
  {| localStorage := ∅; directory := db; online := true;
     entropy := {| tape := tape counting; cursor := 100 |}; trace := [] |}.

End Model.

(** ** More of alice and bob, with the model of the engine *)

Module Scenario.
Import Model.



(** The session key of alice for bob in [chatting]. *)
Definition sessionKey : CryptoKey :=
  default key0 (Chat.aesKeysRef (Chat.chat chattingTab) !! bob).

(** The page before anyone has an account: the application at its start,
    in front of the server of [world0]. *)
Definition site0 : authAPI.Site (WC := engine) :=
  {| authAPI.browser := {| App.app := App.start; App.world := world0 |};
     authAPI.hashes := ∅ |}.

Definition carol : jsstring := js "carol".
Definition secret : jsstring := js "secret1".

(** bob in his own browser, with the key pair whose public key the server
    of [db1] has, after alice has asked for a session key in the Chat.tsx
    that exchanges keys. *)
Definition bobTab : Chat.Tab (WC := engine) :=
  (Chat.setKeyRefs (WC := engine) [x0a; x0b; x0c; x0d]
     (btoa_bytes [x0a; x0b; x0c; x0d])
     (tab (elsewhere (directory (Chat.world
        (Chat2.getOrCreateSessionKey alice bob (tab world1)).2))))).2.

End Scenario.

(** ** Notions of the statements *)

(** The requests in a trace. *)
Definition sent (tr : list effect) : list request :=
  omap (λ x, match x with Sent r => Some r | _ => None end) tr.

(** Whether [exchangeSessionKey] of Chat.tsx reaches its last line in a
    world: the server answers with the public key of the peer, the key is
    imported and the RSA encryption succeeds. *)
Definition exchangeCompletes {WC : WebCrypto} (peer : jsstring) (k : CryptoKey)
  (w : World) : bool :=
  online w && Server.up (directory w) &&
  match Server.PublicKey (directory w) !! peer with
  | Some pk =>
      match importRSAPublicKey pk with
      | Ok key =>
          match (rsaEncrypt (exportAESKey k) key (entropy w)).1 with
          | Ok _ => true
          | Throw _ => false
          end
      | Throw _ => false
      end
  | None => false
  end.

(** The users that GET /users lists. *)
Definition listed (exclude : option jsstring) (db : Server.Db) : list jsstring :=
  map User.username (body_users (data (Server.get_users exclude db).1)).

(** The results of a batch: each message is decrypted in the state the
    messages before it have left, and is its decryption or, when that
    throws, its mark. *)
Fixpoint decryptedFrom {WC : WebCrypto} (currentUser : jsstring) (t : Chat.Tab)
  (msgs : list Message.t) (ds : list DecryptedMessage.t) : Prop :=
  match msgs, ds with
  | [], [] => True
  | msg :: msgs', d :: ds' =>
      match Chat.decryptMessage currentUser msg t with
      | (Ok d0, t1) => d = d0 ∧ decryptedFrom currentUser t1 msgs' ds'
      | (Throw _, t1) =>
          d = Chat.decryptionFailed msg ∧ decryptedFrom currentUser t1 msgs' ds'
      end
  | _, _ => False
  end.

(** The engine that hands out no private key: the public half of every
    operation is that of [WC]. *)
Definition withoutPrivateKeys (WC : WebCrypto) : WebCrypto := {|
  RsaPublicKey := @RsaPublicKey WC;
  RsaPrivateKey := unit;
  rsa_generateKey := λ seed, ((@rsa_generateKey WC seed).1, tt);
  rsa_generateKey_entropy := @rsa_generateKey_entropy WC;
  rsa_exportKey_spki := @rsa_exportKey_spki WC;
  rsa_importKey_spki := @rsa_importKey_spki WC;
  rsa_oaep_encrypt := @rsa_oaep_encrypt WC;
  rsa_oaep_decrypt := λ _ _, None;
  aes_gcm_encrypt := @aes_gcm_encrypt WC;
  aes_gcm_decrypt := @aes_gcm_decrypt WC;
  sha256_digest := @sha256_digest WC |}.

(** A state without the private key it holds. *)
Definition eraseState {WC : WebCrypto} (c : Chat.State (WC := WC))
  : Chat.State (WC := withoutPrivateKeys WC) :=
  {| Chat.users := Chat.users c; Chat.selectedUser := Chat.selectedUser c;
     Chat.messages := Chat.messages c; Chat.newMessage := Chat.newMessage c;
     Chat.loading := Chat.loading c; Chat.error := Chat.error c;
     Chat.privateKeyRef := (λ _, tt) <$> Chat.privateKeyRef c;
     Chat.publicKeyRef := Chat.publicKeyRef c;
     Chat.aesKeysRef := Chat.aesKeysRef c |}.

Definition eraseTab {WC : WebCrypto} (t : Chat.Tab (WC := WC))
  : Chat.Tab (WC := withoutPrivateKeys WC) :=
  {| Chat.chat := eraseState (Chat.chat t); Chat.world := Chat.world t |}.

Definition eraseApp {WC : WebCrypto} (a : App.State (WC := WC))
  : App.State (WC := withoutPrivateKeys WC) :=
  {| App.currentView := App.currentView a;
     App.currentUser := App.currentUser a;
     App.component := eraseState <$> App.component a |}.

Definition eraseBrowser {WC : WebCrypto} (b : App.Browser (WC := WC))
  : App.Browser (WC := withoutPrivateKeys WC) :=
  {| App.app := eraseApp (App.app b); App.world := App.world b |}.

(** Two asynchronous functions, over a state and over what [er] keeps of
    it, that do the same: the same throws, results related by [R], and
    states that [er] relates. *)
Definition simulates {S S' A A'} (er : S → S') (R : A → A' → Prop)
  (m : M S A) (m' : M S' A') : Prop :=
  ∀ s, match m s, m' (er s) with
       | (Ok a, s1), (Ok a', s1') => R a a' ∧ s1' = er s1
       | (Throw e, s1), (Throw e', s1') => e = e' ∧ s1' = er s1
       | _, _ => False
       end.

(** A digit of the hexadecimal that [sha256] writes: 0-9 or a-f. *)
Definition isHexDigit (c : N) : Prop := (48 ≤ c ∧ c ≤ 57) ∨ (97 ≤ c ∧ c ≤ 102).


(** A name that reaches its route as it is.  api.ts writes a name into the
    path of a URL with no escaping, so that "#", "?", "/", a percent sign,
    white space or a dot segment in it change the route or the name that
    the router reads.  A name that is not empty and made of ASCII letters,
    digits, "-" and "_" is one segment of the path, read as it was
    written. *)
Definition plainChar (c : N) : bool :=
  ((48 <=? c) && (c <=? 57)) || ((65 <=? c) && (c <=? 90))
  || ((97 <=? c) && (c <=? 122)) || (c =? 45) || (c =? 95).

Definition plainName (s : jsstring) : bool :=
  negb (Server.missing s) && forallb plainChar s.

(** The names under which the server holds a public key are trimmed, as
    the names of the users are.  POST /public-key stores a key under the
    name it is given, and GET /users trims the names of the keys when it
    looks for their users: a key stored under a padded name lists the user
    of the trimmed name. *)
Definition trimmedKeys (db : Server.Db) : Prop :=
  ∀ name, is_Some (Server.PublicKey db !! name) → trim name = name.

(** An asynchronous function that leaves a part of the state as it was,
    whether it returns or throws. *)
Definition keeps {S X A} (part : S → X) (m : M S A) : Prop :=
  ∀ s, part (m s).2 = part s.

(** The form of the component, with the list of users and the key pair:
    what the functions that fetch and decrypt leave alone. *)
Definition form {WC : WebCrypto} (t : Chat.Tab) :=
  (Chat.users (Chat.chat t), Chat.selectedUser (Chat.chat t),
   Chat.newMessage (Chat.chat t), Chat.loading (Chat.chat t),
   Chat.error (Chat.chat t), Chat.privateKeyRef (Chat.chat t),
   Chat.publicKeyRef (Chat.chat t)).

(** The other user of a message, for [currentUser]: whose session key
    [decryptMessage] looks for. *)
Definition otherUser (currentUser : jsstring) (msg : Message.t) : jsstring :=
  if bool_decide (Message.receiver msg = currentUser)
  then Message.sender msg else Message.receiver msg.


(** * Properties *)

Ltac nlia := zify; Z.to_euclidean_division_equations; lia.

Ltac ncase :=
  match goal with
  | |- context [?a <? ?b] => destruct (N.ltb_spec a b)
  | |- context [?a <=? ?b] => destruct (N.leb_spec a b)
  | |- context [?a =? ?b] => destruct (N.eqb_spec a b)
  end; simpl; try lia.

(** ** Base64 *)

Section Base64Facts.

Lemma b64_index_char i : i < 64 -> b64_index (b64_char i) = Some i.
Proof.
  intros Hi. unfold b64_char.
  repeat ncase; unfold b64_index; repeat ncase; f_equal; lia.
Qed.

(** A character of the alphabet is no padding, no colon, no white space. *)
Lemma b64_char_alphabet i : i < 64 ->
  b64_char i <> 61 /\ b64_char i <> 58 /\ isAsciiWhitespace (b64_char i) = false.
Proof.
  intros Hi. unfold b64_char.
  repeat ncase; unfold isAsciiWhitespace; repeat ncase; repeat split; try lia.
Qed.

Lemma list_ind3 (P : list N -> Prop) :
  P [] -> (forall a, P [a]) -> (forall a b, P [a; b]) ->
  (forall a b c l, P l -> P (a :: b :: c :: l)) -> forall l, P l.
Proof.
  intros H0 H1 H2 H3.
  fix IH 1. intros [|a [|b [|c l]]]; [exact H0 | apply H1 | apply H2 | apply H3, IH].
Qed.

Lemma strip_padding_cons c s :
  c <> 61 -> strip_padding (c :: s) = c :: strip_padding s.
Proof.
  intros Hc. destruct s as [|d [|e s]]; simpl.
  - ncase. reflexivity.
  - destruct (N.eqb_spec c 61); [lia | reflexivity].
  - reflexivity.
Qed.

Lemma b64_encode_length s : (length (b64_encode s) mod 4 = 0)%nat.
Proof.
  induction s as [|a|a b|a b c l IH] using list_ind3; try reflexivity.
  change (length (b64_encode (a :: b :: c :: l)))
    with (4 + length (b64_encode l))%nat.
  rewrite <- Nat.Div0.add_mod_idemp_r, IH. reflexivity.
Qed.

Lemma sextets a b c : a < 256 -> b < 256 -> c < 256 ->
  a / 4 < 64 /\ (a mod 4) * 16 + b / 16 < 64 /\ (b mod 16) * 4 + c / 64 < 64
  /\ c mod 64 < 64 /\ (a mod 4) * 16 < 64 /\ (b mod 16) * 4 < 64.
Proof. intros. repeat split; nlia. Qed.

Lemma b64_encode_chars s :
  Forall (λ c, c < 256) s ->
  Forall (λ c, c = 61 ∨ (c ≠ 58 ∧ isAsciiWhitespace c = false)) (b64_encode s).
Proof.
  induction s as [|a|a b|a b c l IH] using list_ind3; intros Hs.
  - constructor.
  - inversion_clear Hs as [|? ? Ha _].
    destruct (sextets a 0 0 Ha) as (H1 & _ & _ & _ & H2 & _); [lia | lia |].
    simpl. repeat (constructor; [first [left; reflexivity | right; apply b64_char_alphabet; assumption]|]). constructor.
  - inversion_clear Hs as [|? ? Ha Hs']. inversion_clear Hs' as [|? ? Hb _].
    destruct (sextets a b 0 Ha Hb) as (H1 & H2 & _ & _ & _ & H3); [lia |].
    simpl. repeat (constructor; [first [left; reflexivity | right; apply b64_char_alphabet; assumption]|]). constructor.
  - inversion_clear Hs as [|? ? Ha Hs']. inversion_clear Hs' as [|? ? Hb Hs].
    inversion_clear Hs as [|? ? Hc Hl].
    destruct (sextets a b c Ha Hb Hc) as (H1 & H2 & H3 & H4 & _ & _).
    simpl. repeat (constructor; [right; apply b64_char_alphabet; assumption|]).
    auto.
Qed.

Lemma b64_decode_strip_encode s :
  Forall (λ c, c < 256) s ->
  b64_decode (strip_padding (b64_encode s)) = Some s.
Proof.
  induction s as [|a|a b|a b c l IH] using list_ind3; intros Hs.
  - reflexivity.
  - inversion_clear Hs as [|? ? Ha _].
    destruct (sextets a 0 0 Ha) as (H1 & _ & _ & _ & H2 & _); [lia | lia |].
    cbn [b64_encode].
    rewrite !strip_padding_cons by (apply b64_char_alphabet; assumption).
    cbn [strip_padding N.eqb Pos.eqb andb b64_decode].
    rewrite !b64_index_char by assumption.
    do 2 f_equal. nlia.
  - inversion_clear Hs as [|? ? Ha Hs']. inversion_clear Hs' as [|? ? Hb _].
    destruct (sextets a b 0 Ha Hb) as (H1 & H2 & _ & _ & _ & H3); [lia |].
    cbn [b64_encode].
    rewrite !strip_padding_cons by (apply b64_char_alphabet; assumption).
    cbn [strip_padding N.eqb Pos.eqb andb b64_decode].
    rewrite !b64_index_char by assumption.
    f_equal. f_equal; [nlia|]. f_equal. nlia.
  - inversion_clear Hs as [|? ? Ha Hs']. inversion_clear Hs' as [|? ? Hb Hs].
    inversion_clear Hs as [|? ? Hc Hl].
    destruct (sextets a b c Ha Hb Hc) as (H1 & H2 & H3 & H4 & _ & _).
    cbn [b64_encode].
    rewrite !strip_padding_cons by (apply b64_char_alphabet; assumption).
    cbn [b64_decode].
    rewrite !b64_index_char by assumption.
    rewrite IH by assumption.
    f_equal. f_equal; [nlia|]. f_equal; [nlia|]. f_equal. nlia.
Qed.


Lemma filter_id {A} (P : A -> Prop) `{!∀ x, Decision (P x)} (l : list A) :
  Forall P l -> filter P l = l.
Proof.
  induction 1 as [|x l Hx _ IH]; [reflexivity|].
  rewrite filter_cons_True by assumption. by rewrite IH.
Qed.

Lemma b64_encode_no_whitespace s :
  Forall (λ c, c < 256) s ->
  filter (λ c, isAsciiWhitespace c = false) (b64_encode s) = b64_encode s.
Proof.
  intros Hs. apply filter_id.
  eapply Forall_impl; [apply b64_encode_chars, Hs|].
  intros c [-> | [_ Hc]]; [reflexivity | exact Hc].
Qed.

(** [atob] undoes the encoding of a binary string. *)
Lemma atob_b64_encode s :
  Forall (λ c, c < 256) s -> atob (b64_encode s) = Some s.
Proof.
  intros Hs. unfold atob.
  rewrite b64_encode_no_whitespace, b64_encode_length by assumption.
  cbn [Nat.eqb]. by apply b64_decode_strip_encode.
Qed.

Lemma fromCharCode_bytes bs : Forall (λ c, c < 256) (fromCharCode bs).
Proof.
  unfold fromCharCode. apply Forall_map, Forall_forall. intros b _. simpl.
  pose proof (Byte.to_N_bounded b). lia.
Qed.

Lemma byte_of_N_to_N b : byte_of_N (Byte.to_N b) = b.
Proof.
  unfold byte_of_N. pose proof (Byte.to_N_bounded b).
  rewrite N.mod_small by lia. by rewrite Byte.of_to_N.
Qed.

Lemma charCodes_fromCharCode bs : charCodes (fromCharCode bs) = bs.
Proof.
  unfold charCodes, fromCharCode. rewrite map_map.
  rewrite <- (map_id bs) at 2. apply map_ext. intros b. apply byte_of_N_to_N.
Qed.

(** [btoa(String.fromCharCode(...bytes))] does not throw. *)
Lemma btoa_fromCharCode bs : btoa (fromCharCode bs) = Some (btoa_bytes bs).
Proof.
  unfold btoa, btoa_bytes.
  assert (forallb (λ c, c <? 256) (fromCharCode bs) = true) as ->; [|done].
  apply forallb_forall. intros c Hc.
  pose proof (fromCharCode_bytes bs) as H.
  rewrite List.Forall_forall in H. apply N.ltb_lt, H, Hc.
Qed.

(** The round trip of a byte array through base64. *)
Lemma atob_btoa_bytes bs : atob (btoa_bytes bs) = Some (fromCharCode bs).
Proof. apply atob_b64_encode, fromCharCode_bytes. Qed.

(** Base64 text holds no colon. *)
Lemma btoa_bytes_no_colon bs : 58 ∉ btoa_bytes bs.
Proof.
  intros Hin. pose proof (b64_encode_chars _ (fromCharCode_bytes bs)) as H.
  rewrite Forall_forall in H. destruct (H _ Hin) as [? | [? _]]; lia.
Qed.

End Base64Facts.

(** ** UTF-8 *)

Ltac ntest :=
  match goal with
  | |- context [?a <? ?b] => destruct (N.ltb_spec a b)
  | |- context [?a <=? ?b] => destruct (N.leb_spec a b)
  | |- context [?a =? ?b] => destruct (N.eqb_spec a b)
  end; try lia; cbv beta iota; cbn [andb orb].

Section Utf8Facts.

Lemma to_N_byte_of_N n : n < 256 -> Byte.to_N (byte_of_N n) = n.
Proof.
  intros Hn. unfold byte_of_N. rewrite N.mod_small by exact Hn.
  destruct (Byte.of_N n) as [b|] eqn:E.
  - by apply Byte.to_of_N.
  - apply Byte.of_N_None_iff in E. lia.
Qed.

Lemma toScalars_ascii s : Forall (λ c, c < 128) s -> toScalars s = s.
Proof.
  induction 1 as [|c s Hc _ IH]; [reflexivity|]. cbn [toScalars].
  unfold isHighSurrogate, isLowSurrogate.
  repeat ncase. by rewrite IH.
Qed.

Lemma encode_ascii s :
  Forall (λ c, c < 128) s -> TextEncoder_encode s = map byte_of_N s.
Proof.
  intros Hs. unfold TextEncoder_encode. rewrite toScalars_ascii by exact Hs.
  induction Hs as [|c s Hc _ IH]; [reflexivity|]. cbn [map concat].
  rewrite IH. unfold encodeScalar. by ncase.
Qed.

Lemma decodeBytes_ascii s :
  Forall (λ c, c < 128) s -> decodeBytes decoder0 (map byte_of_N s) = s.
Proof.
  induction 1 as [|c s Hc _ IH]; [reflexivity|]. cbn [map decodeBytes].
  rewrite to_N_byte_of_N by lia.
  unfold decodeByte. cbn [bytesNeeded decoder0 N.eqb]. unfold leadByte.
  ncase. cbn [app]. by rewrite IH.
Qed.

Lemma fromCodePoint_ascii s :
  Forall (λ c, c < 128) s -> concat (map fromCodePoint s) = s.
Proof.
  induction 1 as [|c s Hc _ IH]; [reflexivity|]. cbn [map concat].
  rewrite IH. unfold fromCodePoint. by ncase.
Qed.

(** ASCII text comes back from UTF-8 as it went. *)
Lemma utf8_ascii s :
  Forall (λ c, c < 128) s -> TextDecoder_decode (TextEncoder_encode s) = s.
Proof.
  intros Hs. unfold TextDecoder_decode.
  rewrite encode_ascii, decodeBytes_ascii by exact Hs.
  assert (dropBOM s = s) as ->.
  { destruct Hs as [|c s Hc Hs]; [reflexivity|]. unfold dropBOM. by ncase. }
  by apply fromCodePoint_ascii.
Qed.


Lemma b64_char_ascii i : i < 64 -> b64_char i < 128.
Proof. intros Hi. unfold b64_char. repeat ncase. Qed.

Lemma b64_encode_ascii s :
  Forall (λ c, c < 256) s -> Forall (λ c, c < 128) (b64_encode s).
Proof.
  induction s as [|a|a b|a b c l IH] using list_ind3; intros Hs.
  - constructor.
  - inversion_clear Hs as [|? ? Ha _].
    destruct (sextets a 0 0 Ha) as (H1 & _ & _ & _ & H2 & _); [lia | lia |].
    simpl. repeat (constructor; [first [apply b64_char_ascii; assumption | lia]|]).
    constructor.
  - inversion_clear Hs as [|? ? Ha Hs']. inversion_clear Hs' as [|? ? Hb _].
    destruct (sextets a b 0 Ha Hb) as (H1 & H2 & _ & _ & _ & H3); [lia |].
    simpl. repeat (constructor; [first [apply b64_char_ascii; assumption | lia]|]).
    constructor.
  - inversion_clear Hs as [|? ? Ha Hs']. inversion_clear Hs' as [|? ? Hb Hs].
    inversion_clear Hs as [|? ? Hc Hl].
    destruct (sextets a b c Ha Hb Hc) as (H1 & H2 & H3 & H4 & _ & _).
    simpl. repeat (constructor; [apply b64_char_ascii; assumption|]).
    auto.
Qed.

(** Base64 text comes back from UTF-8 as it went. *)
Lemma utf8_btoa_bytes bs :
  TextDecoder_decode (TextEncoder_encode (btoa_bytes bs)) = btoa_bytes bs.
Proof. apply utf8_ascii, b64_encode_ascii, fromCharCode_bytes. Qed.


Lemma decodeBytes_cons d b rest :
  decodeBytes d (b :: rest)
  = (decodeByte d (Byte.to_N b)).1 ++ decodeBytes (decodeByte d (Byte.to_N b)).2 rest.
Proof. cbn [decodeBytes]. by destruct (decodeByte d (Byte.to_N b)). Qed.

Lemma decode1 c rest :
  c < 0x80 ->
  decodeBytes decoder0 (byte_of_N c :: rest) = c :: decodeBytes decoder0 rest.
Proof.
  intros Hc. rewrite decodeBytes_cons, to_N_byte_of_N by lia.
  unfold decodeByte. cbn [bytesNeeded decoder0 N.eqb]. unfold leadByte.
  by ncase.
Qed.

Lemma decode2 h l rest :
  2 <= h -> h < 32 -> l < 64 ->
  decodeBytes decoder0 (byte_of_N (0xC0 + h) :: byte_of_N (0x80 + l) :: rest)
  = h * 64 + l :: decodeBytes decoder0 rest.
Proof.
  intros H1 H2 H3. rewrite decodeBytes_cons, to_N_byte_of_N by lia.
  unfold decodeByte at 1 2. cbn [bytesNeeded decoder0 N.eqb]. unfold leadByte.
  repeat ntest. cbn [fst snd app].
  rewrite decodeBytes_cons, to_N_byte_of_N by lia.
  unfold decodeByte.
  cbn [bytesNeeded bytesSeen codePoint lowerBoundary upperBoundary].
  repeat ntest. cbn [fst snd app].
  f_equal. nlia.
Qed.


Ltac decode_step :=
  rewrite decodeBytes_cons, to_N_byte_of_N by lia;
  unfold decodeByte at 1 2;
  cbn [bytesNeeded bytesSeen codePoint lowerBoundary upperBoundary decoder0];
  unfold leadByte;
  repeat ntest; cbn [fst snd app].

Lemma decode3 h m l rest :
  h < 16 -> m < 64 -> l < 64 -> (h = 0 -> 32 <= m) -> (h = 13 -> m < 32) ->
  decodeBytes decoder0
    (byte_of_N (0xE0 + h) :: byte_of_N (0x80 + m) :: byte_of_N (0x80 + l) :: rest)
  = h * 4096 + m * 64 + l :: decodeBytes decoder0 rest.
Proof.
  intros H1 H2 H3 H4 H5.
  decode_step; decode_step; decode_step; f_equal; nlia.
Qed.

Lemma decode4 g h m l rest :
  g < 5 -> h < 64 -> m < 64 -> l < 64 -> (g = 0 -> 16 <= h) -> (g = 4 -> h < 16) ->
  decodeBytes decoder0
    (byte_of_N (0xF0 + g) :: byte_of_N (0x80 + h) :: byte_of_N (0x80 + m)
     :: byte_of_N (0x80 + l) :: rest)
  = g * 262144 + h * 4096 + m * 64 + l :: decodeBytes decoder0 rest.
Proof.
  intros H1 H2 H3 H4 H5 H6.
  decode_step; decode_step; decode_step; decode_step; f_equal; nlia.
Qed.


Lemma decode_encodeScalar cp rest :
  isScalar cp ->
  decodeBytes decoder0 (encodeScalar cp ++ rest)
  = cp :: decodeBytes decoder0 rest.
Proof.
  intros Hcp. unfold isScalar in Hcp. unfold encodeScalar.
  destruct (N.ltb_spec cp 0x80); [by apply decode1|].
  destruct (N.ltb_spec cp 0x800).
  { cbn [app]. rewrite decode2 by nlia. f_equal. nlia. }
  destruct (N.ltb_spec cp 0x10000).
  { cbn [app]. rewrite decode3 by nlia. f_equal. nlia. }
  cbn [app]. rewrite decode4 by nlia. f_equal. nlia.
Qed.

Lemma decode_encode cps :
  Forall isScalar cps ->
  decodeBytes decoder0 (concat (map encodeScalar cps)) = cps.
Proof.
  induction 1 as [|cp cps Hcp _ IH]; [reflexivity|]. cbn [map concat].
  by rewrite decode_encodeScalar, IH.
Qed.

Lemma wellFormed_ind (P : jsstring -> Prop) :
  P [] ->
  (forall c d s, isHighSurrogate c = true -> isLowSurrogate d = true ->
                 wellFormed s = true -> P s -> P (c :: d :: s)) ->
  (forall c s, isHighSurrogate c = false -> isLowSurrogate c = false ->
               c < 0x10000 -> wellFormed s = true -> P s -> P (c :: s)) ->
  forall s, wellFormed s = true -> P s.
Proof.
  intros H0 H2 H1. fix IH 1. intros [|c s]; [intros _; exact H0|].
  cbn [wellFormed]. destruct (isHighSurrogate c) eqn:Hh.
  - destruct s as [|d s]; [done|]. intros [Hd Hs]%andb_prop.
    apply H2; auto.
  - intros [[Hl Hc]%andb_prop Hs]%andb_prop.
    apply negb_true_iff in Hl. apply N.ltb_lt in Hc. apply H1; auto.
Qed.

Lemma toScalars_scalar s :
  wellFormed s = true -> Forall isScalar (toScalars s).
Proof.
  revert s. apply (wellFormed_ind (λ s, Forall isScalar (toScalars s)));
    [|intros c d s Hc Hd Hs IH|intros c s Hh Hl Hc Hs IH]; cbn [toScalars].
  - constructor.
  - rewrite Hc, Hd. constructor; [|exact IH].
    unfold isHighSurrogate, isLowSurrogate in Hc, Hd. unfold isScalar.
    apply andb_prop in Hc as [?%N.leb_le ?%N.leb_le].
    apply andb_prop in Hd as [?%N.leb_le ?%N.leb_le]. lia.
  - rewrite Hh, Hl. constructor; [|exact IH].
    unfold isHighSurrogate, isLowSurrogate in Hh, Hl. unfold isScalar.
    apply andb_false_iff in Hh as [?%N.leb_gt | ?%N.leb_gt];
      apply andb_false_iff in Hl as [?%N.leb_gt | ?%N.leb_gt]; lia.
Qed.

Lemma fromCodePoint_toScalars s :
  wellFormed s = true -> concat (map fromCodePoint (toScalars s)) = s.
Proof.
  revert s.
  apply (wellFormed_ind (λ s, concat (map fromCodePoint (toScalars s)) = s));
    [|intros c d s Hc Hd Hs IH|intros c s Hh Hl Hc Hs IH]; cbn [toScalars].
  - reflexivity.
  - rewrite Hc, Hd. cbn [map concat]. rewrite IH.
    unfold isHighSurrogate, isLowSurrogate in Hc, Hd.
    apply andb_prop in Hc as [?%N.leb_le ?%N.leb_le].
    apply andb_prop in Hd as [?%N.leb_le ?%N.leb_le].
    unfold fromCodePoint. destruct (N.ltb_spec (65536 + (c - 55296) * 1024 + (d - 56320)) 65536); [lia|].
    cbn [app]. f_equal; [nlia|]. f_equal. nlia.
  - rewrite Hh, Hl. cbn [map concat]. rewrite IH.
    unfold fromCodePoint. by destruct (N.ltb_spec c 65536); [|lia].
Qed.

(** The first scalar value of a well-formed string is U+FEFF only when its
    first code unit is. *)
Lemma dropBOM_toScalars s :
  wellFormed s = true -> head s ≠ Some 0xFEFF ->
  dropBOM (toScalars s) = toScalars s.
Proof.
  destruct s as [|c s]; [done|]. cbn [wellFormed toScalars head].
  intros Hwf Hc.
  destruct (isHighSurrogate c) eqn:Hh.
  - destruct s as [|d s]; [done|]. apply andb_prop in Hwf as [Hd _].
    rewrite Hd. unfold dropBOM.
    unfold isHighSurrogate, isLowSurrogate in Hh, Hd.
    apply andb_prop in Hh as [?%N.leb_le ?%N.leb_le].
    apply andb_prop in Hd as [?%N.leb_le ?%N.leb_le].
    destruct (N.eqb_spec (65536 + (c - 55296) * 1024 + (d - 56320)) 65279);
      [lia|done].
  - apply andb_prop in Hwf as [[Hl _]%andb_prop _].
    apply negb_true_iff in Hl. rewrite Hl. unfold dropBOM.
    destruct (N.eqb_spec c 65279); [congruence|done].
Qed.

(** UTF-8 gives back every well-formed string that does not start with
    U+FEFF. *)
Lemma utf8_round_trip s :
  wellFormed s = true -> head s ≠ Some 0xFEFF ->
  TextDecoder_decode (TextEncoder_encode s) = s.
Proof.
  intros Hwf Hc. unfold TextDecoder_decode, TextEncoder_encode.
  rewrite decode_encode by (by apply toScalars_scalar).
  rewrite dropBOM_toScalars by assumption.
  by apply fromCodePoint_toScalars.
Qed.

(** And it gives back a well-formed string that starts with U+FEFF without
    that first code unit. *)
Lemma utf8_drops_mark s :
  wellFormed s = true ->
  TextDecoder_decode (TextEncoder_encode (0xFEFF :: s)) = s.
Proof.
  intros Hwf. unfold TextDecoder_decode, TextEncoder_encode.
  assert (wellFormed (0xFEFF :: s) = true) as Hwf' by exact Hwf.
  rewrite decode_encode by (by apply toScalars_scalar).
  change (toScalars (0xFEFF :: s)) with (0xFEFF :: toScalars s).
  cbn [dropBOM N.eqb Pos.eqb]. by apply fromCodePoint_toScalars.
Qed.

End Utf8Facts.

(** ** [split] *)

Section SplitFacts.

Lemma split_no_sep sep s : sep ∉ s -> split sep s = [s].
Proof.
  induction s as [|c s IH]; intros Hs; [reflexivity|].
  apply not_elem_of_cons in Hs as [Hc Hs]. simpl.
  destruct (N.eqb_spec c sep); [congruence|]. by rewrite IH.
Qed.

Lemma split_app sep a b :
  sep ∉ a -> split sep (a ++ sep :: b) = a :: split sep b.
Proof.
  induction a as [|c a IH]; intros Ha; simpl.
  - by rewrite N.eqb_refl.
  - apply not_elem_of_cons in Ha as [Hc Ha].
    destruct (N.eqb_spec c sep); [congruence|]. by rewrite IH.
Qed.

Lemma split_two sep a b :
  sep ∉ a -> sep ∉ b -> split sep (a ++ sep :: b) = [a; b].
Proof. intros Ha Hb. by rewrite split_app, split_no_sep. Qed.

End SplitFacts.

(** ** utils/crypto.ts *)

Section CryptoFacts.
Context {WC : WebCrypto}.

Lemma draw_length n e : length (draw n e).1 = n.
Proof. simpl. by rewrite length_map, length_seq. Qed.

Lemma generateAESKey_valid e : validKey (generateAESKey e).1.
Proof.
  unfold validKey, generateAESKey.
  destruct (draw 32 e) as [bytes e'] eqn:E. simpl.
  replace (length bytes) with 32%nat; [set_solver|].
  change bytes with (bytes, e').1. rewrite <- E. symmetry. apply draw_length.
Qed.

Lemma importAESKey_valid s k : importAESKey s = Ok k -> validKey k.
Proof.
  unfold importAESKey, validKey. destruct (atob s); [|done].
  case_bool_decide; [|done]. by intros [= <-].
Qed.

(** Export then import gives the key back. *)
Lemma importAESKey_exportAESKey k :
  validKey k -> importAESKey (exportAESKey k) = Ok k.
Proof.
  intros Hk. unfold importAESKey, exportAESKey.
  rewrite atob_btoa_bytes, charCodes_fromCharCode.
  rewrite bool_decide_eq_true_2 by exact Hk. by destruct k.
Qed.

(** An exported key is a non-empty string. *)
Lemma exportAESKey_truthy k : validKey k -> truthy (Some (exportAESKey k)) = true.
Proof.
  unfold validKey, exportAESKey, btoa_bytes.
  destruct k as [[|a l]]; simpl; intros Hk.
  - exfalso. simpl in Hk. rewrite !elem_of_cons, elem_of_nil in Hk. lia.
  - by destruct l as [|b [|c l]].
Qed.

Context {WL : WebCryptoLaws WC}.

(** Decryption of what [aesEncrypt] returns: the text after the round trip
    through UTF-8. *)
Lemma aesDecrypt_aesEncrypt message k e :
  validKey k ->
  let enc := (aesEncrypt message k e).1 in
  aesDecrypt (ciphertext enc) (iv enc) k
  = Ok (TextDecoder_decode (TextEncoder_encode message)).
Proof.
  intros Hk. unfold aesEncrypt, aesDecrypt.
  destruct (draw 12 e) as [ivb e'] eqn:E. cbn [fst ciphertext iv].
  rewrite !atob_btoa_bytes, !charCodes_fromCharCode.
  rewrite aes_gcm_decrypt_encrypt; [done | exact Hk |].
  change ivb with (ivb, e').1. rewrite <- E. apply draw_length.
Qed.

End CryptoFacts.

(** The laws hold in the model of the engine. *)
#[global] Instance engine_laws : WebCryptoLaws Model.engine.
Proof.
  split; simpl.
  - intros key iv data _ _. unfold Model.unwrap.
    rewrite (app_assoc key iv data), take_app_length, drop_app_length.
    by rewrite bool_decide_eq_true_2.
  - done.
  - intros seed keyseed data c [= <-]. unfold Model.unwrap.
    rewrite take_app_length, drop_app_length.
    by rewrite bool_decide_eq_true_2.
Qed.

(** ** The envelope of a message *)

Section EnvelopeFacts.
Context {WC : WebCrypto}.

Lemma split_nonempty sep s : split sep s ≠ [].
Proof.
  destruct s as [|c s]; simpl; [done|].
  destruct (c =? sep); [done|]. by destruct (split sep s).
Qed.

Lemma split_app_sep sep a b :
  split sep (a ++ sep :: b) = split sep a ++ split sep b.
Proof.
  induction a as [|c a IH]; simpl.
  - by rewrite N.eqb_refl.
  - destruct (c =? sep); [by rewrite IH|].
    rewrite IH. pose proof (split_nonempty sep a).
    by destruct (split sep a).
Qed.

(** What [sealMessage] returns. *)
Lemma sealMessage_eq message k w :
  Chat.sealMessage message k w
  = (Ok (ciphertext (aesEncrypt message k (entropy w)).1 ++ js ":"
         ++ iv (aesEncrypt message k (entropy w)).1, sha256 message),
     set_entropy (aesEncrypt message k (entropy w)).2 w).
Proof.
  unfold Chat.sealMessage, bind, random, ret.
  by destruct (aesEncrypt message k (entropy w)).
Qed.

(** The envelope has two parts. *)
Lemma split_sealed message k e :
  split 58 (ciphertext (aesEncrypt message k e).1 ++ js ":"
            ++ iv (aesEncrypt message k e).1)
  = [ciphertext (aesEncrypt message k e).1; iv (aesEncrypt message k e).1].
Proof.
  unfold aesEncrypt. destruct (draw 12 e) as [ivb e']. cbn [fst ciphertext iv].
  apply (split_two 58); apply btoa_bytes_no_colon.
Qed.

(** [openEnvelope] reads the first two parts of the envelope only. *)
Lemma openEnvelope_parts msg msg' k :
  split 58 (Message.encryptedContent msg) !! 0%nat
  = split 58 (Message.encryptedContent msg') !! 0%nat ->
  split 58 (Message.encryptedContent msg) !! 1%nat
  = split 58 (Message.encryptedContent msg') !! 1%nat ->
  Message._id msg = Message._id msg' ->
  Message.sender msg = Message.sender msg' ->
  Message.receiver msg = Message.receiver msg' ->
  Message.messageHash msg = Message.messageHash msg' ->
  Message.timestamp msg = Message.timestamp msg' ->
  Chat.openEnvelope msg k = Chat.openEnvelope msg' k.
Proof.
  intros H0 H1 Hi Hs Hr Hh Ht. unfold Chat.openEnvelope.
  by rewrite H0, H1, Hi, Hs, Hr, Hh, Ht.
Qed.

Context {WL : WebCryptoLaws WC}.

(** Opening what was sealed: the text after its round trip through UTF-8,
    verified when the hash of that text is the hash of the text sent. *)
Lemma openEnvelope_sealed message k w i s r ts :
  validKey k ->
  let sealed := (Chat.sealMessage message k w).1 in
  ∀ env h, sealed = Ok (env, h) ->
  Chat.openEnvelope
    {| Message._id := i; Message.sender := s; Message.receiver := r;
       Message.encryptedContent := env; Message.messageHash := h;
       Message.timestamp := ts |} k
  = Ok {| DecryptedMessage.id := i; DecryptedMessage.sender := s;
          DecryptedMessage.receiver := r;
          DecryptedMessage.content :=
            TextDecoder_decode (TextEncoder_encode message);
          DecryptedMessage.timestamp := ts;
          DecryptedMessage.verified :=
            bool_decide (sha256 (TextDecoder_decode (TextEncoder_encode message))
                         = sha256 message) |}.
Proof.
  intros Hk sealed env h. subst sealed. rewrite sealMessage_eq. cbn [fst].
  intros Heq.
  assert (env = ciphertext (aesEncrypt message k (entropy w)).1 ++ js ":"
                ++ iv (aesEncrypt message k (entropy w)).1) as -> by congruence.
  assert (h = sha256 message) as -> by congruence. clear Heq.
  unfold Chat.openEnvelope. cbn [Message.encryptedContent].
  rewrite split_sealed. cbn [lookup list_lookup toString].
  rewrite aesDecrypt_aesEncrypt by exact Hk. reflexivity.
Qed.

(** The round trip of a text that UTF-8 gives back. *)
Lemma openEnvelope_sealed_stable message k w i s r ts :
  validKey k ->
  TextDecoder_decode (TextEncoder_encode message) = message ->
  ∀ env h, (Chat.sealMessage message k w).1 = Ok (env, h) ->
  Chat.openEnvelope
    {| Message._id := i; Message.sender := s; Message.receiver := r;
       Message.encryptedContent := env; Message.messageHash := h;
       Message.timestamp := ts |} k
  = Ok {| DecryptedMessage.id := i; DecryptedMessage.sender := s;
          DecryptedMessage.receiver := r;
          DecryptedMessage.content := message;
          DecryptedMessage.timestamp := ts;
          DecryptedMessage.verified := true |}.
Proof.
  intros Hk Hp env h Hs.
  rewrite (openEnvelope_sealed message k w i s r ts Hk env h Hs), Hp.
  by rewrite bool_decide_eq_true_2.
Qed.

(** Seal and open: every well-formed text that does not start with U+FEFF
    comes back, verified. *)
Lemma seal_open_round_trip message k w i s r ts :
  validKey k ->
  wellFormed message = true -> head message ≠ Some 0xFEFF ->
  ∀ env h, (Chat.sealMessage message k w).1 = Ok (env, h) ->
  Chat.openEnvelope
    {| Message._id := i; Message.sender := s; Message.receiver := r;
       Message.encryptedContent := env; Message.messageHash := h;
       Message.timestamp := ts |} k
  = Ok {| DecryptedMessage.id := i; DecryptedMessage.sender := s;
          DecryptedMessage.receiver := r;
          DecryptedMessage.content := message;
          DecryptedMessage.timestamp := ts;
          DecryptedMessage.verified := true |}.
Proof.
  intros Hk Hwf Hhead. apply openEnvelope_sealed_stable; [exact Hk|].
  by apply utf8_round_trip.
Qed.

End EnvelopeFacts.

Section EnvelopeClaims.
Context {WC : WebCrypto}.

(** An envelope of one part is refused: the second part is [undefined],
    which [atob] reads as the text "undefined". *)
Lemma openEnvelope_one_part msg k :
  length (split 58 (Message.encryptedContent msg)) = 1%nat ->
  Chat.openEnvelope msg k = Throw InvalidCharacterError.
Proof.
  intros Hlen. unfold Chat.openEnvelope.
  destruct (split 58 (Message.encryptedContent msg)) as [|c [|? ?]]; try done.
  cbn [lookup list_lookup toString]. unfold aesDecrypt.
  destruct (atob c); [|done].
  by replace (atob (js "undefined")) with (@None jsstring) by reflexivity.
Qed.

(** The Chat.tsx that exchanges keys refuses every envelope that has not
    two parts. *)
Lemma openEnvelope2_malformed msg k :
  length (split 58 (Message.encryptedContent msg)) ≠ 2%nat ->
  Chat2.openEnvelope msg k
  = Throw (Error (js "Invalid encrypted content format")).
Proof.
  intros Hlen. unfold Chat2.openEnvelope.
  destruct (Nat.eqb_spec (length (split 58 (Message.encryptedContent msg))) 2);
    done.
Qed.

(** What [decryptMessage] has returned: when it decrypts a stored
    message, the content is what AES-GCM decryption of the envelope under
    the session key gives and [verified] is the comparison of the SHA-256
    of that content with the stored digest; the same message stored with
    any other digest decrypts to the same content, in the same state, with
    [verified] the comparison with that digest: false when the digest is
    not the hash of the content, and not an error. *)
Lemma decryptMessage_returned currentUser msg t d t' digest :
  Chat.decryptMessage currentUser msg t = (Ok d, t') ->
  (∃ sessionKey,
     aesDecrypt (toString (split 58 (Message.encryptedContent msg) !! 0%nat))
       (toString (split 58 (Message.encryptedContent msg) !! 1%nat)) sessionKey
     = Ok (DecryptedMessage.content d))
  ∧ DecryptedMessage.verified d
    = bool_decide (sha256 (DecryptedMessage.content d) = Message.messageHash msg)
  ∧ Chat.decryptMessage currentUser (Message.withHash digest msg) t
    = (Ok (DecryptedMessage.withVerified
             (bool_decide (sha256 (DecryptedMessage.content d) = digest)) d),
       t')
  ∧ (digest ≠ sha256 (DecryptedMessage.content d) ->
     ∃ d', Chat.decryptMessage currentUser (Message.withHash digest msg) t
           = (Ok d', t')
           ∧ DecryptedMessage.content d' = DecryptedMessage.content d
           ∧ DecryptedMessage.verified d' = false).
Proof.
  intros H.
  assert ((∃ sessionKey,
             aesDecrypt
               (toString (split 58 (Message.encryptedContent msg) !! 0%nat))
               (toString (split 58 (Message.encryptedContent msg) !! 1%nat))
               sessionKey
             = Ok (DecryptedMessage.content d))
          ∧ DecryptedMessage.verified d
            = bool_decide (sha256 (DecryptedMessage.content d)
                           = Message.messageHash msg)
          ∧ Chat.decryptMessage currentUser (Message.withHash digest msg) t
            = (Ok (DecryptedMessage.withVerified
                     (bool_decide (sha256 (DecryptedMessage.content d) = digest))
                     d), t')) as (Hk & Hv & Hd).
  { revert H. unfold Chat.decryptMessage, bind, await.
    cbn [Message.withHash Message.receiver Message.sender].
    destruct (Chat.lookupSessionKey _ _ t) as [[k|e] t1]; [|done].
    unfold Chat.openEnvelope. cbn [Message.withHash Message.encryptedContent].
    destruct (aesDecrypt _ _ k) as [content|e] eqn:Hdec; [|done].
    intros [= <- <-]. split; [by exists k|]. done. }
  split; [exact Hk|]. split; [exact Hv|]. split; [exact Hd|].
  intros Hne. eexists. split; [exact Hd|]. split; [done|].
  simpl. by rewrite bool_decide_eq_false_2.
Qed.

(** C7. Digest-independent decrypt: for every stored message whose
    envelope decrypts under the session key that [decryptMessage] finds for
    it (in the ref or in local storage), [decryptMessage] returns, in the
    state the lookup leaves, the message with the decrypted plaintext as
    content and [verified] the comparison of the SHA-256 of the plaintext
    with the stored digest, and so does its second half for that key.  The
    same message stored with any other digest gives the same plaintext, in
    the same state, with [verified] the comparison with that digest: false
    when the digest is not the hash of the plaintext, and a result, not an
    error.  With the key in the ref, the state is left as it was. *)
Theorem decryptMessage_digest_independent currentUser msg t sessionKey t1
  plaintext digest :
  let peer := otherUser currentUser msg in
  let parts := split 58 (Message.encryptedContent msg) in
  let opened (h : jsstring) :=
    {| DecryptedMessage.id := Message._id msg;
       DecryptedMessage.sender := Message.sender msg;
       DecryptedMessage.receiver := Message.receiver msg;
       DecryptedMessage.content := plaintext;
       DecryptedMessage.timestamp := Message.timestamp msg;
       DecryptedMessage.verified := bool_decide (sha256 plaintext = h) |} in
  Chat.lookupSessionKey currentUser peer t = (Ok sessionKey, t1) ->
  aesDecrypt (toString (parts !! 0%nat)) (toString (parts !! 1%nat)) sessionKey
  = Ok plaintext ->
  Chat.openEnvelope msg sessionKey = Ok (opened (Message.messageHash msg))
  ∧ Chat.decryptMessage currentUser msg t
    = (Ok (opened (Message.messageHash msg)), t1)
  ∧ Chat.openEnvelope (Message.withHash digest msg) sessionKey
    = Ok (opened digest)
  ∧ Chat.decryptMessage currentUser (Message.withHash digest msg) t
    = (Ok (opened digest), t1)
  ∧ (digest ≠ sha256 plaintext ->
     DecryptedMessage.verified (opened digest) = false
     ∧ DecryptedMessage.content (opened digest) = plaintext)
  ∧ (∀ cached, Chat.aesKeysRef (Chat.chat t) !! peer = Some cached ->
               sessionKey = cached ∧ t1 = t).
Proof.
  intros peer parts opened Hlookup Hdec.
  assert (∀ h, Chat.openEnvelope (Message.withHash h msg) sessionKey
               = Ok (opened h)) as Hopen.
  { intros h. unfold Chat.openEnvelope.
    cbn [Message.withHash Message.encryptedContent Message._id Message.sender
         Message.receiver Message.timestamp Message.messageHash].
    fold parts. by rewrite Hdec. }
  assert (∀ h, Chat.decryptMessage currentUser (Message.withHash h msg) t
               = (Ok (opened h), t1)) as Hd.
  { intros h. unfold Chat.decryptMessage, bind.
    cbn [Message.withHash Message.receiver Message.sender].
    fold (otherUser currentUser msg). fold peer. rewrite Hlookup.
    unfold await. by rewrite Hopen. }
  assert (Message.withHash (Message.messageHash msg) msg = msg) as Hsame
    by (by destruct msg).
  split; [by rewrite <- (Hopen (Message.messageHash msg)), Hsame|].
  split; [by rewrite <- (Hd (Message.messageHash msg)), Hsame|].
  split; [apply Hopen|]. split; [apply Hd|]. split.
  - intros Hne. split; [|done]. cbn [DecryptedMessage.verified].
    apply bool_decide_eq_false_2. congruence.
  - intros cached Hc.
    unfold Chat.lookupSessionKey, bind, Chat.aesKeysRef_get, gets in Hlookup.
    rewrite Hc in Hlookup. unfold ret in Hlookup. by injection Hlookup as <- <-.
Qed.

Context {WL : WebCryptoLaws WC}.

(** C4, at the texts that start with U+FEFF, such as U+FEFF "hi", which
    [handleSendMessage] does send: [TextDecoder] leaves the byte order mark
    out, and opening what was sealed returns the text without its first
    code unit, which is not the text sealed; [verified] is then true only
    if the two texts have the same hash. *)
Theorem seal_open_loses_byte_order_mark message k w i s r ts env h :
  validKey k ->
  wellFormed message = true ->
  (Chat.sealMessage (0xFEFF :: message) k w).1 = Ok (env, h) ->
  truthy (Some (trim (0xFEFF :: js "hi"))) = true
  ∧ ∃ d, Chat.openEnvelope
           {| Message._id := i; Message.sender := s; Message.receiver := r;
              Message.encryptedContent := env; Message.messageHash := h;
              Message.timestamp := ts |} k = Ok d
         ∧ DecryptedMessage.content d = message
         ∧ DecryptedMessage.content d ≠ 0xFEFF :: message
         ∧ DecryptedMessage.verified d
           = bool_decide (sha256 message = sha256 (0xFEFF :: message)).
Proof.
  intros Hk Hwf Hs. split; [reflexivity|].
  eexists. split;
    [exact (openEnvelope_sealed (0xFEFF :: message) k w i s r ts Hk env h Hs)|].
  cbn [DecryptedMessage.content DecryptedMessage.verified].
  rewrite (utf8_drops_mark message Hwf).
  split; [reflexivity|]. split; [|reflexivity].
  intros Heq. apply (f_equal length) in Heq. simpl in Heq. lia.
Qed.

(** C8, at a sealed envelope followed by a colon and anything: the envelope
    has three parts or more, and [openEnvelope] of Chat.tsx, which reads
    the first two, opens it as it opens the sealed envelope. *)
Theorem openEnvelope_three_parts message k w i s r ts extra env h :
  validKey k ->
  (Chat.sealMessage message k w).1 = Ok (env, h) ->
  (3 ≤ length (split 58 (env ++ js ":" ++ extra)))%nat
  ∧ Chat.openEnvelope
      {| Message._id := i; Message.sender := s; Message.receiver := r;
         Message.encryptedContent := env ++ js ":" ++ extra;
         Message.messageHash := h; Message.timestamp := ts |} k
    = Ok {| DecryptedMessage.id := i; DecryptedMessage.sender := s;
            DecryptedMessage.receiver := r;
            DecryptedMessage.content :=
              TextDecoder_decode (TextEncoder_encode message);
            DecryptedMessage.timestamp := ts;
            DecryptedMessage.verified :=
              bool_decide
                (sha256 (TextDecoder_decode (TextEncoder_encode message))
                 = sha256 message) |}.
Proof.
  intros Hk Hs.
  pose proof Hs as Hs'. rewrite sealMessage_eq in Hs'. cbn [fst] in Hs'.
  assert (split 58 env = [ciphertext (aesEncrypt message k (entropy w)).1;
                          iv (aesEncrypt message k (entropy w)).1]) as Hsplit.
  { assert (env = ciphertext (aesEncrypt message k (entropy w)).1 ++ js ":"
                  ++ iv (aesEncrypt message k (entropy w)).1) as ->
      by congruence.
    apply split_sealed. }
  assert (split 58 (env ++ js ":" ++ extra) = split 58 env ++ split 58 extra)
    as Hall by apply (split_app_sep 58).
  split.
  - rewrite Hall, length_app, Hsplit. simpl.
    pose proof (split_nonempty 58 extra). destruct (split 58 extra); [done|].
    simpl. lia.
  - rewrite <- (openEnvelope_sealed message k w i s r ts Hk env h Hs).
    apply openEnvelope_parts; try reflexivity;
      cbn [Message.encryptedContent]; rewrite Hall, Hsplit; reflexivity.
Qed.

End EnvelopeClaims.

(** ** The session key in Chat.tsx *)

Section SessionKeyFacts.
Context {WC : WebCrypto}.

Lemma getPublicKey_eq peer w :
  chatAPI.getPublicKey peer w
  = (if online w && Server.up (directory w) then
       match Server.PublicKey (directory w) !! peer with
       | Some pk => Ok (PublicKeyBody peer pk)
       | None => Throw (AxiosError (Some 404))
       end
     else if online w then Throw (AxiosError (Some 500))
     else Throw (AxiosError None),
     log (Sent (GET_public_key peer)) w).
Proof.
  unfold chatAPI.getPublicKey, chatAPI.axios. cbn [online log directory].
  destruct (online w); [|done]. cbn [andb Server.route].
  unfold Server.get_public_key, Server.internalError, Server.json.
  destruct (Server.up (directory w)); cbn [negb].
  - destruct (Server.PublicKey (directory w) !! peer); cbn.
    + destruct w as [? [] ? ? ?]; done.
    + destruct w as [? [] ? ? ?]; done.
  - cbn. destruct w as [? [] ? ? ?]; done.
Qed.

Lemma exchangeSessionKey_spec currentUser peer k t :
  let name := Chat.sessionKeyName peer currentUser in
  let r := Chat.exchangeSessionKey currentUser peer k t in
  let w := Chat.world t in
  let w' := Chat.world r.2 in
  r.1 = Ok tt
  ∧ Chat.chat r.2 = Chat.chat t
  ∧ directory w' = directory w
  ∧ online w' = online w
  ∧ localStorage w'
    = (if exchangeCompletes peer k w
       then <[name := exportAESKey k]> (localStorage w) else localStorage w)
  ∧ trace w'
    = trace w ++ Sent (GET_public_key peer)
      :: (if exchangeCompletes peer k w
          then [Stored name (exportAESKey k)] else []).
Proof.
  intros name r w w'. subst r w'.
  unfold Chat.exchangeSessionKey, try_catch, bind, Chat.call, await, ret.
  rewrite getPublicKey_eq. fold w. unfold exchangeCompletes.
  destruct (online w) eqn:Hon; cbn [andb];
    [destruct (Server.up (directory w)) eqn:Hup|]; cbn [andb]; try done.
  destruct (Server.PublicKey (directory w) !! peer) as [pk|] eqn:Hpk; try done.
  cbn [body_publicKey toString].
  destruct (importRSAPublicKey pk) as [key|e] eqn:Hkey; try done.
  cbn [Chat.world]. unfold random_result. cbn [entropy log].
  destruct (rsaEncrypt (exportAESKey k) key (entropy w)) as [[c|e] e'] eqn:Henc;
    cbn [fst]; try done.
  simpl. repeat split; try done. by rewrite <- app_assoc.
Qed.

Lemma getOrCreateSessionKey_fresh currentUser peer t :
  Chat.aesKeysRef (Chat.chat t) !! peer = None ->
  truthy (localStorage (Chat.world t) !! Chat.sessionKeyName currentUser peer)
  = false ->
  let w := Chat.world t in
  let k := (generateAESKey (entropy w)).1 in
  let w1 := set_entropy (generateAESKey (entropy w)).2 w in
  let r := Chat.getOrCreateSessionKey currentUser peer t in
  let w' := Chat.world r.2 in
  r.1 = Ok k
  ∧ Chat.aesKeysRef (Chat.chat r.2) = <[peer := k]> (Chat.aesKeysRef (Chat.chat t))
  ∧ directory w' = directory w
  ∧ online w' = online w
  ∧ localStorage w'
    = (if exchangeCompletes peer k w1
       then <[Chat.sessionKeyName peer currentUser := exportAESKey k]>
              (<[Chat.sessionKeyName currentUser peer := exportAESKey k]>
                 (localStorage w))
       else <[Chat.sessionKeyName currentUser peer := exportAESKey k]>
              (localStorage w))
  ∧ trace w'
    = trace w ++ Stored (Chat.sessionKeyName currentUser peer) (exportAESKey k)
      :: Sent (GET_public_key peer)
      :: (if exchangeCompletes peer k w1
          then [Stored (Chat.sessionKeyName peer currentUser) (exportAESKey k)]
          else []).
Proof.
  intros Hmiss Hstored w k w1 r w'.
  assert (Hr : r = Chat.getOrCreateSessionKey currentUser peer t) by reflexivity.
  clearbody r. subst w'.
  unfold Chat.getOrCreateSessionKey, bind, Chat.aesKeysRef_get, gets in Hr.
  rewrite Hmiss in Hr. unfold getItem, gets in Hr. rewrite Hstored in Hr.
  unfold Chat.call at 1, random in Hr. fold w in Hr.
  subst k w1. destruct (generateAESKey (entropy w)) as [k e1] eqn:Hgen.
  unfold Chat.aesKeysRef_set, Chat.onChat, modify in Hr.
  unfold Chat.call at 1, setItem, modify in Hr.
  cbn [Chat.world Chat.chat fst snd] in Hr |- *.
  match type of Hr with context [Chat.exchangeSessionKey _ _ _ ?t2] =>
    pose proof (exchangeSessionKey_spec currentUser peer k t2) as H;
    destruct (Chat.exchangeSessionKey currentUser peer k t2) as [r3 t3]
  end.
  cbn zeta in H. cbn [fst snd Chat.world Chat.chat] in H.
  destruct H as (-> & Hchat & Hdir & Hon & Hls & Htr).
  unfold ret in Hr. subst r. cbn [fst snd].
  rewrite Hchat, Hdir, Hon, Hls, Htr.
  assert (exchangeCompletes peer k
            (log (Stored (Chat.sessionKeyName currentUser peer) (exportAESKey k))
               (set_localStorage
                  (insert (Chat.sessionKeyName currentUser peer) (exportAESKey k))
                  (set_entropy e1 w)))
          = exchangeCompletes peer k (set_entropy e1 w)) as -> by reflexivity.
  cbn [Chat.aesKeysRef localStorage trace directory online log set_localStorage set_entropy].
  repeat split; try done.
  by rewrite <- app_assoc.
Qed.
Lemma sent_app tr1 tr2 : sent (tr1 ++ tr2) = sent tr1 ++ sent tr2.
Proof. apply omap_app. Qed.

(** The key looked for by [decryptMessage] when the ref and the entry of
    this direction are empty: the entry of the reverse name. *)
Lemma lookupSessionKey_fallback currentUser peer t :
  Chat.aesKeysRef (Chat.chat t) !! peer = None ->
  truthy (localStorage (Chat.world t) !! Chat.sessionKeyName currentUser peer)
  = false ->
  Chat.lookupSessionKey currentUser peer t
  = if truthy (localStorage (Chat.world t)
               !! Chat.sessionKeyName peer currentUser)
    then match importAESKey
                 (toString (localStorage (Chat.world t)
                            !! Chat.sessionKeyName peer currentUser)) with
         | Ok key => (Ok key, (Chat.aesKeysRef_set peer key t).2)
         | Throw e => (Throw e, t)
         end
    else (Throw (Error (js "No session key found")), t).
Proof.
  intros Hmiss Hstored.
  unfold Chat.lookupSessionKey, bind, Chat.aesKeysRef_get, getItem, gets.
  rewrite Hmiss, Hstored. cbn [negb].
  destruct (truthy (localStorage (Chat.world t)
                    !! Chat.sessionKeyName peer currentUser)); [|done].
  unfold await.
  destruct (importAESKey _) as [key|e]; [|done].
  by unfold Chat.aesKeysRef_set, Chat.onChat, modify, ret.
Qed.

(** What Chat.tsx does instead of publishing: in the browser of A, where
    the exchange has left the key under the name of B, B finds the key of
    A. *)
Lemma getOrCreateSessionKey_same_browser A B tA tB :
  Chat.aesKeysRef (Chat.chat tA) !! B = None ->
  truthy (localStorage (Chat.world tA) !! Chat.sessionKeyName A B) = false ->
  exchangeCompletes B (generateAESKey (entropy (Chat.world tA))).1
    (set_entropy (generateAESKey (entropy (Chat.world tA))).2 (Chat.world tA))
  = true ->
  Chat.aesKeysRef (Chat.chat tB) !! A = None ->
  localStorage (Chat.world tB)
  = localStorage (Chat.world (Chat.getOrCreateSessionKey A B tA).2) ->
  (Chat.getOrCreateSessionKey B A tB).1
  = Ok (generateAESKey (entropy (Chat.world tA))).1.
Proof.
  intros HA1 HA2 Hc HB1 Hls.
  destruct (getOrCreateSessionKey_fresh A B tA HA1 HA2)
    as (_ & _ & _ & _ & HlsA & _).
  rewrite Hc in HlsA. rewrite HlsA in Hls.
  unfold Chat.getOrCreateSessionKey, bind, Chat.aesKeysRef_get, getItem, gets.
  rewrite HB1, Hls, lookup_insert_eq.
  rewrite exportAESKey_truthy by apply generateAESKey_valid.
  cbn [toString]. unfold await.
  by rewrite importAESKey_exportAESKey by apply generateAESKey_valid.
Qed.

(** C1, where Chat.tsx leaves it: A without a key for B calls
    [getOrCreateSessionKey]; a key is stored locally for A, but the
    server holds the session keys it held (no directed record is published:
    the only request asks for the public key of B); and B, in a browser
    that has no entry for A and sees the server as A left it, gets a key
    made of its own random bytes, whatever A generated. *)
Theorem no_directed_record_published A B tA tB :
  Chat.aesKeysRef (Chat.chat tA) !! B = None ->
  truthy (localStorage (Chat.world tA) !! Chat.sessionKeyName A B) = false ->
  Chat.aesKeysRef (Chat.chat tB) !! A = None ->
  truthy (localStorage (Chat.world tB) !! Chat.sessionKeyName B A) = false ->
  directory (Chat.world tB)
  = directory (Chat.world (Chat.getOrCreateSessionKey A B tA).2) ->
  let kA := (generateAESKey (entropy (Chat.world tA))).1 in
  let rA := Chat.getOrCreateSessionKey A B tA in
  rA.1 = Ok kA
  ∧ localStorage (Chat.world rA.2) !! Chat.sessionKeyName A B
    = Some (exportAESKey kA)
  ∧ Server.SessionKey (directory (Chat.world rA.2))
    = Server.SessionKey (directory (Chat.world tA))
  ∧ sent (trace (Chat.world rA.2))
    = sent (trace (Chat.world tA)) ++ [GET_public_key B]
  ∧ (Chat.getOrCreateSessionKey B A tB).1
    = Ok (generateAESKey (entropy (Chat.world tB))).1.
Proof.
  intros HA1 HA2 HB1 HB2 _ kA rA.
  destruct (getOrCreateSessionKey_fresh A B tA HA1 HA2)
    as (Hr & _ & Hdir & _ & Hls & Htr).
  destruct (getOrCreateSessionKey_fresh B A tB HB1 HB2) as (HrB & _).
  subst kA rA. split; [exact Hr|]. split; [|split; [|split]].
  - rewrite Hls. case_match.
    + rewrite lookup_insert. case_decide; [done|]. by rewrite lookup_insert_eq.
    + by rewrite lookup_insert_eq.
  - by rewrite Hdir.
  - rewrite Htr, sent_app. f_equal. by case_match.
  - exact HrB.
Qed.

(** C2, where Chat.tsx leaves it: with no key in the ref and none in local
    storage, a directed record addressed to the caller on the server is
    not asked for: the only request is for the public key of the peer, and
    the key returned is a fresh one. *)
Theorem directed_record_not_consulted currentUser peer encryptedKey t :
  Chat.aesKeysRef (Chat.chat t) !! peer = None ->
  truthy (localStorage (Chat.world t) !! Chat.sessionKeyName currentUser peer)
  = false ->
  Server.SessionKey (directory (Chat.world t)) !! (peer, currentUser)
  = Some encryptedKey ->
  let r := Chat.getOrCreateSessionKey currentUser peer t in
  r.1 = Ok (generateAESKey (entropy (Chat.world t))).1
  ∧ sent (trace (Chat.world r.2))
    = sent (trace (Chat.world t)) ++ [GET_public_key peer]
  ∧ ∀ a b, GET_session_key a b ∉ [GET_public_key peer].
Proof.
  intros H1 H2 _ r.
  destruct (getOrCreateSessionKey_fresh currentUser peer t H1 H2)
    as (Hr & _ & _ & _ & _ & Htr).
  subst r. split; [exact Hr|]. split.
  - rewrite Htr, sent_app. f_equal. by case_match.
  - intros a b Hin. apply list_elem_of_singleton in Hin. discriminate.
Qed.

(** C3, as the code has it: when a fresh key is needed,
    [getOrCreateSessionKey] returns it, held in the ref and stored locally,
    whether the peer has a public key or not and whether the server answers
    or not; the exchange sends one request and is not tried again. *)
Theorem fresh_key_never_fails currentUser peer t :
  Chat.aesKeysRef (Chat.chat t) !! peer = None ->
  truthy (localStorage (Chat.world t) !! Chat.sessionKeyName currentUser peer)
  = false ->
  let k := (generateAESKey (entropy (Chat.world t))).1 in
  let r := Chat.getOrCreateSessionKey currentUser peer t in
  r.1 = Ok k
  ∧ Chat.aesKeysRef (Chat.chat r.2) !! peer = Some k
  ∧ localStorage (Chat.world r.2) !! Chat.sessionKeyName currentUser peer
    = Some (exportAESKey k)
  ∧ sent (trace (Chat.world r.2))
    = sent (trace (Chat.world t)) ++ [GET_public_key peer].
Proof.
  intros H1 H2 k r.
  destruct (getOrCreateSessionKey_fresh currentUser peer t H1 H2)
    as (Hr & Hkeys & _ & _ & Hls & Htr).
  subst k r. split; [exact Hr|]. split; [|split].
  - rewrite Hkeys. apply lookup_insert_eq.
  - rewrite Hls. case_match.
    + rewrite lookup_insert. case_decide; [done|]. by rewrite lookup_insert_eq.
    + by rewrite lookup_insert_eq.
  - rewrite Htr, sent_app. f_equal. by case_match.
Qed.

(** C5, as the code has it: [exchangeSessionKey] never fails and sends one
    request, for the public key of the peer; the server is left as it was,
    and local storage is as it was or has the exported key under the
    reverse name, and nothing else new.  For a peer whose name reaches the
    route as it is: when the exchange completes (the server holds a public
    key for the peer, the key is imported and the encryption, whose result
    is not used, succeeds) the exported key is written under the reverse
    name, and otherwise (so when the peer has published no public key)
    nothing is written.  The entry of the reverse name is the one
    [decryptMessage] falls back to. *)
Theorem exchangeSessionKey_local_only currentUser peer k t :
  let name := Chat.sessionKeyName peer currentUser in
  let r := Chat.exchangeSessionKey currentUser peer k t in
  let w := Chat.world t in
  let w' := Chat.world r.2 in
  r.1 = Ok tt
  ∧ directory w' = directory w
  ∧ sent (trace w') = sent (trace w) ++ [GET_public_key peer]
  ∧ (localStorage w' = localStorage w
     ∨ localStorage w' = <[name := exportAESKey k]> (localStorage w))
  ∧ (plainName peer = true ->
     (exchangeCompletes peer k w = true ->
      localStorage w' = <[name := exportAESKey k]> (localStorage w))
     ∧ (exchangeCompletes peer k w = false -> localStorage w' = localStorage w)
     ∧ (Server.PublicKey (directory w) !! peer = None ->
        localStorage w' = localStorage w))
  ∧ ∀ t2,
      Chat.aesKeysRef (Chat.chat t2) !! peer = None ->
      truthy (localStorage (Chat.world t2)
              !! Chat.sessionKeyName currentUser peer) = false ->
      Chat.lookupSessionKey currentUser peer t2
      = if truthy (localStorage (Chat.world t2) !! name)
        then match importAESKey
                     (toString (localStorage (Chat.world t2) !! name)) with
             | Ok key => (Ok key, (Chat.aesKeysRef_set peer key t2).2)
             | Throw e => (Throw e, t2)
             end
        else (Throw (Error (js "No session key found")), t2).
Proof.
  intros name r w w'.
  destruct (exchangeSessionKey_spec currentUser peer k t)
    as (Hr & _ & Hdir & _ & Hls & Htr).
  subst r w w'. split; [exact Hr|]. split; [exact Hdir|].
  split; [|split; [|split]].
  - rewrite Htr, sent_app. f_equal. by case_match.
  - rewrite Hls. destruct (exchangeCompletes _ _ _); [by right | by left].
  - intros _. split; [|split].
    + intros Hc. by rewrite Hls, Hc.
    + intros Hc. by rewrite Hls, Hc.
    + intros Hpk. rewrite Hls. unfold exchangeCompletes. rewrite Hpk.
      by rewrite andb_false_r.
  - intros t2. apply lookupSessionKey_fallback.
Qed.

End SessionKeyFacts.

(** ** The batch of [fetchMessages] *)

Section BatchFacts.
Context {WC : WebCrypto}.

Lemma decryptOrMark_eq currentUser msg t :
  Chat.decryptOrMark currentUser msg t
  = match Chat.decryptMessage currentUser msg t with
    | (Ok d, t1) => (Ok d, t1)
    | (Throw _, t1) => (Ok (Chat.decryptionFailed msg), t1)
    end.
Proof.
  unfold Chat.decryptOrMark, try_catch, ret.
  by destruct (Chat.decryptMessage currentUser msg t) as [[d|e] t1].
Qed.

Lemma mapM_decryptOrMark currentUser msgs t :
  ∃ ds t', mapM (Chat.decryptOrMark currentUser) msgs t = (Ok ds, t')
           ∧ decryptedFrom currentUser t msgs ds
           ∧ length ds = length msgs.
Proof.
  revert t. induction msgs as [|msg msgs IH]; intros t.
  - by exists [], t.
  - cbn [mapM]. unfold bind at 1. rewrite decryptOrMark_eq.
    destruct (Chat.decryptMessage currentUser msg t) as [[d|e] t1] eqn:Hd;
      (unfold bind at 1; destruct (IH t1) as (ds & t' & -> & Hds & Hlen);
       eexists (_ :: ds), t'; split; [reflexivity|];
       split; [cbn [decryptedFrom]; rewrite Hd; done | simpl; by rewrite Hlen]).
Qed.

(** C9. Batch decrypt isolation: for the messages the server returns,
    [fetchMessages] does not throw and shows one result for each message,
    in order; each result is the decryption of its message in the state
    the messages before it have left, or, when that decryption throws, the
    mark "[Decryption failed]" with [verified] false, after which the
    messages that follow are decrypted all the same. *)
Theorem batch_decrypt_isolation currentUser selected msgs t w1 :
  Chat.selectedUser (Chat.chat t) = Some selected ->
  truthy (Some selected) = true ->
  chatAPI.getMessages currentUser selected (Chat.world t)
  = (Ok (MessagesBody msgs), w1) ->
  let r := Chat.fetchMessages currentUser t in
  r.1 = Ok tt
  ∧ length (Chat.messages (Chat.chat r.2)) = length msgs
  ∧ decryptedFrom currentUser {| Chat.chat := Chat.chat t; Chat.world := w1 |}
      msgs (Chat.messages (Chat.chat r.2))
  ∧ ∀ msg, DecryptedMessage.verified (Chat.decryptionFailed msg) = false
           ∧ DecryptedMessage.content (Chat.decryptionFailed msg)
             = js "[Decryption failed]".
Proof.
  intros Hsel Htruthy Hget r.
  assert (Hr : r = Chat.fetchMessages currentUser t) by reflexivity.
  clearbody r.
  unfold Chat.fetchMessages, bind at 1, gets in Hr. rewrite Hsel in Hr.
  rewrite Htruthy in Hr. cbn [negb toString] in Hr.
  unfold try_catch, bind at 1, Chat.call in Hr. rewrite Hget in Hr.
  unfold bind at 1, await in Hr. cbn [body_messages of_option] in Hr.
  unfold bind at 1 in Hr.
  destruct (mapM_decryptOrMark currentUser msgs
              {| Chat.chat := Chat.chat t; Chat.world := w1 |})
    as (ds & t' & Hmap & Hds & Hlen).
  rewrite Hmap in Hr. unfold Chat.setMessages, Chat.onChat, modify in Hr.
  subst r. cbn [fst snd Chat.chat Chat.messages]. done.
Qed.

End BatchFacts.

(** ** Logout *)

Section LogoutFacts.
Context {WC : WebCrypto}.

(** Removing entries of local storage: no request, the server and the
    application as they were. *)
Lemma removeKeys_spec (P : jsstring -> bool) keys b :
  ∃ us b', mapM (λ key, if P key then App.onWorld (removeItem key) else ret tt)
             keys b = (Ok us, b')
           ∧ App.app b' = App.app b
           ∧ directory (App.world b') = directory (App.world b)
           ∧ online (App.world b') = online (App.world b)
           ∧ sent (trace (App.world b')) = sent (trace (App.world b)).
Proof.
  set (f := λ key, if P key then App.onWorld (removeItem key) else ret tt).
  revert b. induction keys as [|key keys IH]; intros b.
  - by exists [], b.
  - cbn [mapM]. unfold bind at 1. unfold f at 1.
    destruct (P key).
    + unfold App.onWorld, removeItem, modify.
      unfold bind at 1.
      match goal with |- context [mapM _ keys ?b1] =>
        destruct (IH b1) as (us & b' & -> & Ha & Hd & Ho & Hs) end.
      exists (tt :: us), b'. cbn [App.app App.world] in *.
      rewrite Ha, Hd, Ho, Hs. cbn [directory online trace log set_localStorage].
      rewrite sent_app. cbn. by rewrite app_nil_r.
    + unfold ret at 1. unfold bind at 1.
      destruct (IH b) as (us & b' & -> & Ha & Hd & Ho & Hs).
      by exists (tt :: us), b'.
Qed.

(** [handleLogout] of UI/src/App.tsx: what it leaves. *)
Lemma handleLogout_spec b :
  let r := App.handleLogout b in
  r.1 = Ok tt
  ∧ App.currentUser (App.app r.2) = None
  ∧ App.component (App.app r.2) = None
  ∧ directory (App.world r.2) = directory (App.world b)
  ∧ sent (trace (App.world r.2)) = sent (trace (App.world b))
  ∧ ∀ exclude, listed exclude (directory (App.world r.2))
               = listed exclude (directory (App.world b)).
Proof.
  intros r. assert (Hr : r = App.handleLogout b) by reflexivity. clearbody r.
  unfold App.handleLogout in Hr.
  unfold bind at 1, App.setCurrentUser, App.onApp, modify in Hr.
  unfold bind at 1, App.onWorld at 1, removeItem, modify in Hr.
  cbn [App.app App.world] in Hr.
  unfold bind at 1, App.clearSessionKeys, bind at 1, gets in Hr.
  unfold bind at 1 in Hr.
  match type of Hr with context [mapM ?f ?keys ?b1] =>
    destruct (removeKeys_spec (λ key, startsWith key (js "sessionKey_")) keys b1)
      as (us & b' & Hm & Ha & Hd & Ho & Hs)
  end.
  rewrite Hm in Hr. unfold ret at 1 in Hr.
  unfold bind at 1, App.setCurrentView, App.onApp, modify in Hr.
  unfold App.render, bind, gets in Hr. cbn [App.app App.currentView] in Hr.
  unfold App.setComponent, App.onApp, modify in Hr.
  subst r. cbn [fst snd App.app App.world App.currentUser App.component].
  rewrite Ha, Hd. cbn [App.currentUser App.app App.world directory] in *.
  rewrite Hs. cbn [trace log set_localStorage]. rewrite sent_app. cbn.
  rewrite app_nil_r. done.
Qed.

(** C10, where UI/src/App.tsx leaves it: [handleLogout] ends the session
    in the browser (no user, no component, so no key pair in memory) but
    sends no request: the server is as it was, with the public key every
    user has published, and lists the users it listed. *)
Theorem handleLogout_keeps_public_key b :
  let r := App.handleLogout b in
  r.1 = Ok tt
  ∧ App.currentUser (App.app r.2) = None
  ∧ App.component (App.app r.2) = None
  ∧ sent (trace (App.world r.2)) = sent (trace (App.world b))
  ∧ (∀ user, Server.PublicKey (directory (App.world r.2)) !! user
             = Server.PublicKey (directory (App.world b)) !! user)
  ∧ ∀ exclude, listed exclude (directory (App.world r.2))
               = listed exclude (directory (App.world b)).
Proof.
  intros r. destruct (handleLogout_spec b) as (H1 & H2 & H3 & H4 & H5 & H6).
  subst r. repeat split; try done. intros user. by rewrite H4.
Qed.

(** The names of the public keys. *)
Lemma elem_of_key_names (db : Server.Db) name :
  name ∈ (map_to_list (Server.PublicKey db)).*1
  ↔ is_Some (Server.PublicKey db !! name).
Proof.
  rewrite list_elem_of_fmap. split.
  - intros ([k x] & -> & Hkx). apply elem_of_map_to_list in Hkx. by exists x.
  - intros [x Hx]. exists (name, x). split; [done|].
    by apply elem_of_map_to_list.
Qed.

(** Who GET /users lists: a registered user is listed when a public key is
    stored under a name that [exclude] is not and that is, once trimmed,
    the name of the user. *)
Lemma elem_of_listed exclude db u :
  u ∈ listed exclude db
  ↔ Server.up db = true
    ∧ u ∈ map User.username (Server.User db)
    ∧ ∃ name, is_Some (Server.PublicKey db !! name) ∧ trim name = u
              ∧ (truthy exclude = true -> exclude ≠ Some name).
Proof.
  unfold listed, Server.get_users, Server.internalError, Server.json.
  destruct (Server.up db); cbn [negb fst data body_users].
  2:{ split; [by intros ?%elem_of_nil | by intros [? _]]. }
  rewrite list_elem_of_fmap. split.
  - intros (x & -> & Hx%list_elem_of_filter). destruct Hx as [Hx Hin].
    split; [done|]. split; [by apply list_elem_of_fmap; exists x|].
    apply list_elem_of_fmap in Hx as (name & Hname & Hx). exists name.
    destruct exclude as [[|c e]|]; cbn [truthy].
    + split; [by apply elem_of_key_names|]. by split.
    + apply list_elem_of_filter in Hx as [Hne Hx].
      split; [by apply elem_of_key_names|]. split; [done|].
      intros _. congruence.
    + split; [by apply elem_of_key_names|]. by split.
  - intros (_ & (x & -> & Hx)%list_elem_of_fmap & name & Hkey & Hname & Hex).
    exists x. split; [done|]. apply list_elem_of_filter. split; [|done].
    apply list_elem_of_fmap. exists name. split; [done|].
    destruct exclude as [[|c e]|]; cbn [truthy] in Hex.
    + by apply elem_of_key_names.
    + apply list_elem_of_filter. split; [|by apply elem_of_key_names].
      intros Heq. apply Hex; [done | by rewrite Heq].
    + by apply elem_of_key_names.
Qed.

Lemma listed_has_public_key exclude db u :
  trimmedKeys db ->
  u ∈ listed exclude db -> is_Some (Server.PublicKey db !! u).
Proof.
  intros Htrimmed (_ & _ & name & Hkey & Hname & _)%elem_of_listed.
  by rewrite <- Hname, (Htrimmed name Hkey).
Qed.

Lemma trimmedKeys_delete user db :
  trimmedKeys db -> trimmedKeys (Server.set_PublicKey (delete user) db).
Proof.
  intros Htrimmed name. cbn [Server.set_PublicKey Server.PublicKey].
  destruct (decide (name = user)) as [->|Hne].
  - rewrite lookup_delete_eq. by intros [? ?].
  - rewrite lookup_delete_ne by done. apply Htrimmed.
Qed.

Lemma deletePublicKey_eq user w :
  online w = true -> Server.up (directory w) = true ->
  chatAPI.deletePublicKey user w
  = (Ok (MessageBody (js "Public key deleted successfully")),
     set_directory (Server.set_PublicKey (delete user) (directory w))
       (log (Sent (DELETE_public_key user)) w)).
Proof.
  intros Hon Hup. unfold chatAPI.deletePublicKey, chatAPI.axios.
  cbn [online log directory]. rewrite Hon. cbn [Server.route].
  unfold Server.delete_public_key. rewrite Hup. reflexivity.
Qed.

(** The other [handleLogout], when the server answers: the public key of
    the user is deleted, the user is no longer listed (the names of the
    public keys being trimmed), the component and its key pair are
    gone. *)
Lemma handleLogout_delete_removes_public_key b user :
  App.currentUser (App.app b) = Some user ->
  truthy (Some user) = true ->
  online (App.world b) = true ->
  Server.up (directory (App.world b)) = true ->
  let r := App.handleLogout_delete b in
  r.1 = Ok tt
  ∧ App.currentUser (App.app r.2) = None
  ∧ App.component (App.app r.2) = None
  ∧ Server.PublicKey (directory (App.world r.2)) !! user = None
  ∧ (trimmedKeys (directory (App.world b)) ->
     ∀ exclude, user ∉ listed exclude (directory (App.world r.2))).
Proof.
  intros Hu Ht Hon Hup r.
  assert (Hr : r = App.handleLogout_delete b) by reflexivity. clearbody r.
  unfold App.handleLogout_delete in Hr.
  unfold bind at 1, gets in Hr. rewrite Hu, Ht in Hr. cbn [toString] in Hr.
  unfold bind at 1, try_catch, bind at 1, App.onWorld at 1 in Hr.
  rewrite (deletePublicKey_eq user _ Hon Hup) in Hr. unfold ret at 1 in Hr.
  unfold bind at 1, App.setCurrentUser, App.onApp, modify in Hr.
  unfold bind at 1, App.onWorld at 1, removeItem, modify in Hr.
  cbn [App.app App.world] in Hr.
  unfold bind at 1, App.setCurrentView, App.onApp, modify in Hr.
  unfold App.render, bind, gets in Hr. cbn [App.app App.currentView] in Hr.
  unfold App.setComponent, App.onApp, modify in Hr.
  subst r. cbn [fst snd App.app App.world App.currentUser App.component].
  cbn [directory log set_localStorage set_directory Server.PublicKey
       Server.set_PublicKey].
  assert (delete user (Server.PublicKey (directory (App.world b))) !! user = None)
    as Hdel by apply lookup_delete_eq.
  do 4 (split; [done|]).
  intros Htrimmed exclude Hin.
  apply listed_has_public_key in Hin; [|by apply trimmedKeys_delete].
  cbn [directory log set_localStorage set_directory Server.PublicKey
       Server.set_PublicKey] in Hin.
  rewrite Hdel in Hin. by destruct Hin.
Qed.

End LogoutFacts.


(** ** The private key

    Simulation: the combinators of asynchronous functions keep it. *)

Section Sim.
Context {S S' : Type} (er : S -> S').

Lemma sim_ret {A A'} (R : A -> A' -> Prop) a a' :
  R a a' -> simulates er R (ret a) (ret a').
Proof. intros HR s. by cbn. Qed.

Lemma sim_throw {A A'} (R : A -> A' -> Prop) e :
  simulates er R (throw e) (throw e).
Proof. intros s. by cbn. Qed.

Lemma sim_await {A} (r : result A) : simulates er eq (await r) (await r).
Proof. intros s. unfold await. by destruct r. Qed.

Lemma sim_bind {A A' B B'} (R : A -> A' -> Prop) (Q : B -> B' -> Prop)
  (m : M S A) (m' : M S' A') (k : A -> M S B) (k' : A' -> M S' B') :
  simulates er R m m' ->
  (forall a a', R a a' -> simulates er Q (k a) (k' a')) ->
  simulates er Q (bind m k) (bind m' k').
Proof.
  intros Hm Hk s. unfold bind. specialize (Hm s).
  destruct (m s) as [[a|e] s1], (m' (er s)) as [[a'|e'] s1']; try done.
  destruct Hm as [HR ->]. apply (Hk a a' HR).
Qed.

Lemma sim_bind_eq {A B B'} (Q : B -> B' -> Prop)
  (m : M S A) (m' : M S' A) (k : A -> M S B) (k' : A -> M S' B') :
  simulates er eq m m' ->
  (forall a, simulates er Q (k a) (k' a)) ->
  simulates er Q (bind m k) (bind m' k').
Proof. intros Hm Hk. eapply sim_bind; [exact Hm|]. intros a a' <-. apply Hk. Qed.

Lemma sim_try_catch {A A'} (R : A -> A' -> Prop)
  (m : M S A) (m' : M S' A') h h' :
  simulates er R m m' ->
  (forall e, simulates er R (h e) (h' e)) ->
  simulates er R (try_catch m h) (try_catch m' h').
Proof.
  intros Hm Hh s. unfold try_catch. specialize (Hm s).
  destruct (m s) as [[a|e] s1], (m' (er s)) as [[a'|e'] s1']; try done.
  destruct Hm as [-> ->]. apply Hh.
Qed.

Lemma sim_finally {A A'} (R : A -> A' -> Prop)
  (m : M S A) (m' : M S' A') f f' :
  simulates er R m m' ->
  simulates er eq f f' ->
  simulates er R (finally m f) (finally m' f').
Proof.
  intros Hm Hf s. unfold finally. specialize (Hm s).
  destruct (m s) as [[a|e] s1], (m' (er s)) as [[a'|e'] s1']; try done.
  - destruct Hm as [HR ->]. specialize (Hf s1).
    destruct (f s1) as [[u|e] s2], (f' (er s1)) as [[u'|e'] s2']; try done.
    by destruct Hf as [_ ->].
  - destruct Hm as [-> ->]. specialize (Hf s1).
    destruct (f s1) as [[u|e] s2], (f' (er s1)) as [[u'|e''] s2']; try done.
    by destruct Hf as [_ ->].
Qed.

Lemma sim_mapM {A B} (f : A -> M S B) (f' : A -> M S' B) l :
  (forall x, simulates er eq (f x) (f' x)) ->
  simulates er eq (mapM f l) (mapM f' l).
Proof.
  intros Hf. induction l as [|x l IH]; cbn [mapM].
  - by apply sim_ret.
  - apply sim_bind_eq; [apply Hf|]. intros y.
    apply sim_bind_eq; [apply IH|]. intros ys. by apply sim_ret.
Qed.

Lemma sim_gets {A} (f : S -> A) (f' : S' -> A) :
  (forall s, f' (er s) = f s) -> simulates er eq (gets f) (gets f').
Proof. intros Hf s. unfold gets. by rewrite Hf. Qed.

End Sim.

Section Confinement.
Context {WC : WebCrypto}.
Let WC' := withoutPrivateKeys WC.

Lemma sim_call {A} (m : M World A) :
  simulates eraseTab eq (Chat.call (WC := WC) m) (Chat.call (WC := WC') m).
Proof.
  intros t. unfold Chat.call. cbn [eraseTab Chat.world Chat.chat].
  by destruct (m (Chat.world t)) as [[a|e] w].
Qed.

Ltac sim_prim := intros t; cbn; split; reflexivity.

Lemma sim_setUsers v :
  simulates eraseTab eq (Chat.setUsers (WC := WC) v) (Chat.setUsers (WC := WC') v).
Proof. sim_prim. Qed.
Lemma sim_setSelectedUser v :
  simulates eraseTab eq (Chat.setSelectedUser (WC := WC) v)
    (Chat.setSelectedUser (WC := WC') v).
Proof. sim_prim. Qed.
Lemma sim_setMessages v :
  simulates eraseTab eq (Chat.setMessages (WC := WC) v)
    (Chat.setMessages (WC := WC') v).
Proof. sim_prim. Qed.
Lemma sim_setNewMessage v :
  simulates eraseTab eq (Chat.setNewMessage (WC := WC) v)
    (Chat.setNewMessage (WC := WC') v).
Proof. sim_prim. Qed.
Lemma sim_setLoading v :
  simulates eraseTab eq (Chat.setLoading (WC := WC) v)
    (Chat.setLoading (WC := WC') v).
Proof. sim_prim. Qed.
Lemma sim_setError v :
  simulates eraseTab eq (Chat.setError (WC := WC) v) (Chat.setError (WC := WC') v).
Proof. sim_prim. Qed.
Lemma sim_aesKeysRef_set u k :
  simulates eraseTab eq (Chat.aesKeysRef_set (WC := WC) u k)
    (Chat.aesKeysRef_set (WC := WC') u k).
Proof. sim_prim. Qed.
Lemma sim_aesKeysRef_get u :
  simulates eraseTab eq (Chat.aesKeysRef_get (WC := WC) u)
    (Chat.aesKeysRef_get (WC := WC') u).
Proof. sim_prim. Qed.
Lemma sim_getItem key :
  simulates eraseTab eq (getItem (Chat.world (WC := WC)) key)
    (getItem (Chat.world (WC := WC')) key).
Proof. sim_prim. Qed.

Ltac sim :=
  repeat first
    [ apply sim_ret; reflexivity
    | apply sim_throw
    | apply sim_call
    | apply sim_await
    | apply sim_setUsers | apply sim_setSelectedUser | apply sim_setMessages
    | apply sim_setNewMessage | apply sim_setLoading | apply sim_setError
    | apply sim_aesKeysRef_set | apply sim_aesKeysRef_get | apply sim_getItem
    | apply sim_gets; intros ?; reflexivity
    | apply sim_bind_eq; [ | intros ? ]
    | apply sim_try_catch; [ | intros ? ]
    | apply sim_finally
    | apply sim_mapM; intros ?
    | match goal with
      | |- simulates _ _ (if ?b then _ else _) _ => destruct b
      | |- simulates _ _ (match ?x with _ => _ end) _ => destruct x
      end ].

Lemma sim_fetchUsers u :
  simulates eraseTab eq (Chat.fetchUsers (WC := WC) u) (Chat.fetchUsers (WC := WC') u).
Proof. unfold Chat.fetchUsers. sim. Qed.

Lemma sim_exchangeSessionKey u p k :
  simulates eraseTab eq (Chat.exchangeSessionKey (WC := WC) u p k)
    (Chat.exchangeSessionKey (WC := WC') u p k).
Proof. unfold Chat.exchangeSessionKey. sim. Qed.

Lemma sim_getOrCreateSessionKey u p :
  simulates eraseTab eq (Chat.getOrCreateSessionKey (WC := WC) u p)
    (Chat.getOrCreateSessionKey (WC := WC') u p).
Proof. unfold Chat.getOrCreateSessionKey. sim. Qed.

Lemma sim_decryptMessage u msg :
  simulates eraseTab eq (Chat.decryptMessage (WC := WC) u msg)
    (Chat.decryptMessage (WC := WC') u msg).
Proof. unfold Chat.decryptMessage, Chat.lookupSessionKey. sim. Qed.

Lemma sim_fetchMessages u :
  simulates eraseTab eq (Chat.fetchMessages (WC := WC) u)
    (Chat.fetchMessages (WC := WC') u).
Proof.
  unfold Chat.fetchMessages. sim.
Qed.

Lemma sim_handleSendMessage u :
  simulates eraseTab eq (Chat.handleSendMessage (WC := WC) u)
    (Chat.handleSendMessage (WC := WC') u).
Proof.
  unfold Chat.handleSendMessage. sim.
Qed.

(** The key pair: the strings and the requests are those of the public
    key. *)
Lemma sim_initializeKeys u :
  simulates eraseTab eq (Chat.initializeKeys (WC := WC) u)
    (Chat.initializeKeys (WC := WC') u).
Proof.
  unfold Chat.initializeKeys. apply sim_try_catch; [|intros e; sim].
  eapply (sim_bind _ (λ a a', a.1 = a'.1)).
  - intros t. unfold Chat.call, random, generateRSAKeyPair.
    cbn [eraseTab Chat.world Chat.chat].
    change (@rsa_generateKey_entropy WC') with (@rsa_generateKey_entropy WC).
    destruct (draw rsa_generateKey_entropy (entropy (Chat.world t))) as [seed e'].
    done.
  - intros [pk sk] [pk' []] Hpk. cbn in Hpk. subst pk'. cbn [fst snd].
    apply sim_bind_eq; [sim_prim|]. intros _. sim.
Qed.


Lemma sim_inChat (m : jsstring -> M (Chat.Tab (WC := WC)) unit)
  (m' : jsstring -> M (Chat.Tab (WC := WC')) unit) :
  (forall u, simulates eraseTab eq (m u) (m' u)) ->
  simulates eraseBrowser eq (App.inChat m) (App.inChat m').
Proof.
  intros Hm b. unfold App.inChat.
  cbn [eraseBrowser eraseApp App.app App.world App.currentUser App.component
       App.currentView].
  destruct (App.currentUser (App.app b)) as [user|]; [|done].
  destruct (App.component (App.app b)) as [c|]; [|done].
  cbn [fmap option_fmap option_map].
  specialize (Hm user {| Chat.chat := c; Chat.world := App.world b |}).
  cbn [eraseTab Chat.chat Chat.world] in Hm.
  destruct (m user _) as [[[]|e] t1], (m' user _) as [[[]|e'] t1']; try done.
  - destruct Hm as [_ ->]. done.
  - destruct Hm as [-> ->]. done.
Qed.

Lemma sim_onWorld {A} (m : M World A) :
  simulates eraseBrowser eq (App.onWorld (WC := WC) m)
    (App.onWorld (WC := WC') m).
Proof.
  intros b. unfold App.onWorld. cbn [eraseBrowser App.world App.app].
  by destruct (m (App.world b)) as [[a|e] w].
Qed.


Lemma sim_setCurrentUser v :
  simulates eraseBrowser eq (App.setCurrentUser (WC := WC) v)
    (App.setCurrentUser (WC := WC') v).
Proof. sim_prim. Qed.

Lemma sim_setCurrentView v :
  simulates eraseBrowser eq (App.setCurrentView (WC := WC) v)
    (App.setCurrentView (WC := WC') v).
Proof. sim_prim. Qed.

Lemma sim_setComponent v :
  simulates eraseBrowser eq (App.setComponent (WC := WC) v)
    (App.setComponent (WC := WC') (eraseState <$> v)).
Proof. sim_prim. Qed.

Lemma sim_getItem_app key :
  simulates eraseBrowser eq (getItem (App.world (WC := WC)) key)
    (getItem (App.world (WC := WC')) key).
Proof. sim_prim. Qed.

Ltac sim_app :=
  repeat first
    [ apply sim_ret; reflexivity
    | apply sim_onWorld
    | apply sim_setCurrentUser | apply sim_setCurrentView
    | apply (sim_setComponent None) | apply (sim_setComponent (Some Chat.mount))
    | apply sim_getItem_app
    | apply sim_inChat; intros ?
    | apply sim_initializeKeys | apply sim_fetchUsers | apply sim_fetchMessages
    | apply sim_handleSendMessage | apply sim_setSelectedUser
    | apply sim_setNewMessage
    | apply sim_gets; intros ?; reflexivity
    | apply sim_bind_eq; [ | intros ? ]
    | apply sim_try_catch; [ | intros ? ]
    | apply sim_mapM; intros ?
    | match goal with
      | |- simulates _ _ (if ?b then _ else _) _ => destruct b
      | |- simulates _ _ (match ?x with _ => _ end) _ => destruct x
      end ].

Lemma sim_render :
  simulates eraseBrowser eq (App.render (WC := WC)) (App.render (WC := WC')).
Proof.
  unfold App.render.
  eapply (sim_bind _ (λ a a', a' = eraseApp a)); [by intros b|].
  intros a ? ->. cbn [eraseApp App.currentView App.currentUser App.component].
  destruct (App.currentView a); sim_app.
Qed.

Lemma sim_step a :
  simulates eraseBrowser eq (App.step (WC := WC) a) (App.step (WC := WC') a).
Proof.
  destruct a; cbn [App.step].
  - unfold App.checkSession. sim_app; apply sim_render.
  - unfold App.handleLoginSuccess. sim_app; apply sim_render.
  - unfold App.handleRegisterSuccess. sim_app; apply sim_render.
  - unfold App.handleLogout, App.clearSessionKeys. sim_app; apply sim_render.
  - unfold App.handleLogout_delete. sim_app; apply sim_render.
  - sim_app.
  - sim_app.
  - sim_app.
  - sim_app.
  - sim_app.
  - sim_app.
Qed.

Lemma run_erase acts b :
  App.run (WC := WC') acts (eraseBrowser b) = eraseBrowser (App.run (WC := WC) acts b).
Proof.
  revert b. induction acts as [|a acts IH]; intros b; [done|].
  cbn [App.run]. pose proof (sim_step a b) as H.
  unfold simulates in H.
  destruct (App.step a b) as [r b1]. cbn [snd].
  match type of H with
  | context [match ?x with _ => _ end] => destruct x as [r' b1']
  end.
  cbn [snd].
  assert (b1' = eraseBrowser b1) as ->
    by (destruct r, r'; try done; by destruct H).
  apply IH.
Qed.

End Confinement.


Section ConfinementClaim.
Context {WC : WebCrypto}.

(** The effect on mount: the private key goes to the ref, the exported
    public key to the ref and to the server, nothing to local storage. *)
Lemma initializeKeys_spec user t :
  let kp := rsa_generateKey
              (draw rsa_generateKey_entropy (entropy (Chat.world t))).1 in
  let pk := btoa_bytes (rsa_exportKey_spki kp.1) in
  let r := Chat.initializeKeys user t in
  Chat.privateKeyRef (Chat.chat r.2) = Some kp.2
  ∧ Chat.publicKeyRef (Chat.chat r.2) = pk
  ∧ localStorage (Chat.world r.2) = localStorage (Chat.world t)
  ∧ trace (Chat.world r.2) = trace (Chat.world t) ++ [Sent (POST_public_key user pk)].
Proof.
  intros kp pk r. subst kp pk r.
  unfold Chat.initializeKeys, try_catch, bind, Chat.call, random,
    generateRSAKeyPair.
  destruct (draw rsa_generateKey_entropy (entropy (Chat.world t)))
    as [seed e'].
  cbn [fst snd Chat.world Chat.chat Chat.setKeyRefs Chat.onChat modify].
  unfold Chat.setKeyRefs, Chat.onChat, modify. cbn [Chat.world Chat.chat].
  unfold chatAPI.storePublicKey, chatAPI.axios.
  cbn [online log set_entropy directory].
  destruct (online (Chat.world t)); [|done].
  destruct (Server.route _ _) as [resp db].
  by destruct ((200 <=? status resp) && (status resp <? 300)).
Qed.

(** C6. Private-key confinement: the private key made at the start of the
    session goes to the ref of the component and nowhere else.  Whatever
    happens in the browser, the world (local storage, the requests sent,
    the server) and the state apart from that ref are those of a client
    whose engine hands out no private key; the key pair gives one request,
    which carries the exported public key, and writes nothing to local
    storage; and after [handleLogout] the component and its refs are
    gone. *)
Theorem private_key_confinement :
  (∀ acts b,
     App.run (WC := withoutPrivateKeys WC) acts (eraseBrowser b)
     = eraseBrowser (App.run acts b))
  ∧ (∀ acts b,
       App.world (App.run (WC := withoutPrivateKeys WC) acts (eraseBrowser b))
       = App.world (App.run acts b))
  ∧ (∀ user t,
       let kp := rsa_generateKey
                   (draw rsa_generateKey_entropy (entropy (Chat.world t))).1 in
       let r := Chat.initializeKeys user t in
       Chat.privateKeyRef (Chat.chat r.2) = Some kp.2
       ∧ localStorage (Chat.world r.2) = localStorage (Chat.world t)
       ∧ trace (Chat.world r.2)
         = trace (Chat.world t)
           ++ [Sent (POST_public_key user (btoa_bytes (rsa_exportKey_spki kp.1)))])
  ∧ (∀ b, App.component (App.app (App.step App.Logout b).2) = None).
Proof.
  split; [apply run_erase|]. split; [|split].
  - intros acts b. by rewrite run_erase.
  - intros user t kp r.
    destruct (initializeKeys_spec user t) as (H1 & _ & H3 & H4). done.
  - intros b. by destruct (handleLogout_spec b) as (_ & _ & H & _).
Qed.

End ConfinementClaim.

(** ** The session key in the Chat.tsx that exchanges keys *)

Section Chat2Facts.
Context {WC : WebCrypto}.

Lemma getSessionKey_eq s r w :
  chatAPI.getSessionKey s r w
  = (if online w && Server.up (directory w) then
       match Server.SessionKey (directory w) !! (s, r) with
       | Some e => Ok (SessionKeyBody s r e)
       | None =>
           match Server.SessionKey (directory w) !! (r, s) with
           | Some e => Ok (SessionKeyBody r s e)
           | None => Throw (AxiosError (Some 404))
           end
       end
     else if online w then Throw (AxiosError (Some 500))
     else Throw (AxiosError None),
     log (Sent (GET_session_key s r)) w).
Proof.
  unfold chatAPI.getSessionKey, chatAPI.axios. cbn [online log directory].
  destruct (online w); [|done]. cbn [andb Server.route].
  unfold Server.get_session_key, Server.internalError, Server.json.
  destruct w as [? [] ? ? ?]. cbn.
  destruct up; cbn; [|done].
  destruct (SessionKey !! (s, r)); cbn; [done|].
  by destruct (SessionKey !! (r, s)).
Qed.

Lemma storeSessionKey_eq s r e w :
  online w = true -> Server.up (directory w) = true ->
  Server.missing s = false -> Server.missing r = false ->
  Server.missing e = false ->
  Server.userExists s (directory w) = true ->
  Server.userExists r (directory w) = true ->
  chatAPI.storeSessionKey s r e w
  = (Ok (MessageBody (js "Session key stored successfully")),
     set_directory (Server.set_SessionKey (insert (s, r) e) (directory w))
       (log (Sent (POST_session_key s r e)) w)).
Proof.
  intros Hon Hup Hs Hr He Hus Hur.
  unfold chatAPI.storeSessionKey, chatAPI.axios. cbn [online log directory].
  rewrite Hon. cbn [Server.route]. unfold Server.post_session_key.
  rewrite Hs, Hr, He, Hup, Hus, Hur. reflexivity.
Qed.


(** The Chat.tsx that exchanges keys, when a fresh key is needed and the
    exchange goes through: the directed record is on the server. *)
Lemma getOrCreateSessionKey2_publishes A B t pkB c :
  let w := Chat.world t in
  let k := (generateAESKey (entropy w)).1 in
  let e1 := (generateAESKey (entropy w)).2 in
  Chat.aesKeysRef (Chat.chat t) !! B = None ->
  truthy (localStorage w !! Chat2.conversationKeyName A B) = false ->
  Server.missing A = false -> Server.missing B = false ->
  online w = true -> Server.up (directory w) = true ->
  Server.userExists A (directory w) = true ->
  Server.userExists B (directory w) = true ->
  Server.PublicKey (directory w) !! B = Some (btoa_bytes (rsa_exportKey_spki pkB)) ->
  rsa_importKey_spki (rsa_exportKey_spki pkB) = Some pkB ->
  Server.SessionKey (directory w) !! (A, B) = None ->
  Server.SessionKey (directory w) !! (B, A) = None ->
  rsa_oaep_encrypt pkB (draw 32 e1).1 (TextEncoder_encode (exportAESKey k))
  = Some c ->
  c ≠ [] ->
  let r := Chat2.getOrCreateSessionKey A B t in
  r.1 = Ok k
  ∧ directory (Chat.world r.2)
    = Server.set_SessionKey (insert (A, B) (btoa_bytes c)) (directory w)
  ∧ localStorage (Chat.world r.2)
    = <[Chat2.conversationKeyName A B := exportAESKey k]> (localStorage w).
Proof.
  intros w k e1 Hmiss Hstored HA HB Hon Hup HuA HuB Hpk Himp HAB HBA Henc Hc r.
  assert (Hr : r = Chat2.getOrCreateSessionKey A B t) by reflexivity.
  clearbody r.
  unfold Chat2.getOrCreateSessionKey in Hr.
  unfold bind at 1, Chat.aesKeysRef_get, gets in Hr. rewrite Hmiss in Hr.
  unfold bind at 1, getItem, gets in Hr. fold w in Hr. rewrite Hstored in Hr.
  unfold bind at 1, Chat2.fetchSessionKey, try_catch, bind at 1, Chat.call at 1
    in Hr.
  fold w in Hr. rewrite getSessionKey_eq, Hon, Hup, HAB, HBA in Hr.
  cbn [andb] in Hr. unfold ret at 1 in Hr.
  unfold bind at 1, Chat.call at 1, random in Hr. cbn [Chat.world] in Hr.
  cbn [entropy log] in Hr. subst k e1.
  destruct (generateAESKey (entropy w)) as [k e1] eqn:Hgen.
  cbn [fst snd] in *.
  unfold bind at 1, Chat.aesKeysRef_set, Chat.onChat, modify in Hr.
  unfold bind at 1, Chat.call at 1, setItem, modify in Hr.
  cbn [Chat.world Chat.chat] in Hr.
  unfold bind at 1, Chat2.exchangeSessionKey, try_catch in Hr.
  unfold bind at 1, Chat.call at 1 in Hr. cbn [Chat.world Chat.chat] in Hr.
  rewrite getPublicKey_eq in Hr.
  cbn [online directory log set_localStorage set_entropy] in Hr.
  rewrite Hon, Hup, Hpk in Hr. cbn [andb body_publicKey toString] in Hr.
  unfold bind at 1, await, importRSAPublicKey in Hr.
  rewrite atob_btoa_bytes, charCodes_fromCharCode, Himp in Hr.
  cbn [of_option] in Hr.
  unfold bind at 1, Chat.call at 1, random_result, rsaEncrypt in Hr.
  cbn [Chat.world entropy log set_localStorage set_entropy] in Hr.
  destruct (draw 32 e1) as [seed e2] eqn:Hdraw. cbn [fst] in Henc.
  rewrite Henc in Hr.
  unfold bind at 1, Chat.call at 1 in Hr. cbn [Chat.world Chat.chat] in Hr.
  rewrite storeSessionKey_eq in Hr; try done.
  - unfold ret in Hr. subst r. cbn. done.
  - unfold btoa_bytes. destruct c as [|x [|y [|z c]]]; done.
Qed.

Context {WL : WebCryptoLaws WC}.

(** The Chat.tsx that exchanges keys, when a record addressed to the
    caller is on the server: the key of the record is returned. *)
Lemma getOrCreateSessionKey2_receives A B t keyseed seed k c :
  let w := Chat.world t in
  validKey k ->
  Chat.aesKeysRef (Chat.chat t) !! A = None ->
  truthy (localStorage w !! Chat2.conversationKeyName B A) = false ->
  online w = true -> Server.up (directory w) = true ->
  Server.SessionKey (directory w) !! (B, A) = None ->
  Server.SessionKey (directory w) !! (A, B) = Some (btoa_bytes c) ->
  Chat.privateKeyRef (Chat.chat t) = Some (rsa_generateKey keyseed).2 ->
  rsa_oaep_encrypt (rsa_generateKey keyseed).1 seed
    (TextEncoder_encode (exportAESKey k)) = Some c ->
  let r := Chat2.getOrCreateSessionKey B A t in
  r.1 = Ok k
  ∧ localStorage (Chat.world r.2)
    = <[Chat2.conversationKeyName B A := exportAESKey k]> (localStorage w)
  ∧ Chat.aesKeysRef (Chat.chat r.2) !! A = Some k.
Proof.
  intros w Hk Hmiss Hstored Hon Hup HBA HAB Hsk Henc r.
  assert (Hr : r = Chat2.getOrCreateSessionKey B A t) by reflexivity.
  clearbody r.
  unfold Chat2.getOrCreateSessionKey in Hr.
  unfold bind at 1, Chat.aesKeysRef_get, gets in Hr. rewrite Hmiss in Hr.
  unfold bind at 1, getItem, gets in Hr. fold w in Hr. rewrite Hstored in Hr.
  unfold bind at 1, Chat2.fetchSessionKey, try_catch, bind at 1, Chat.call at 1
    in Hr.
  fold w in Hr. rewrite getSessionKey_eq, Hon, Hup, HBA, HAB in Hr.
  cbn [andb body_receiver body_encryptedKey toString] in Hr.
  rewrite bool_decide_eq_true_2 in Hr by reflexivity.
  unfold bind at 1, gets in Hr. cbn [Chat.chat] in Hr. rewrite Hsk in Hr.
  unfold bind at 1, await at 1 in Hr. cbn [of_option] in Hr.
  unfold bind at 1, await at 1, rsaDecrypt in Hr.
  rewrite atob_btoa_bytes, charCodes_fromCharCode in Hr.
  rewrite (rsa_oaep_decrypt_encrypt _ _ _ _ Henc) in Hr.
  unfold exportAESKey in Hr at 1. rewrite utf8_btoa_bytes in Hr.
  fold (exportAESKey k) in Hr.
  unfold bind at 1, await at 1 in Hr.
  rewrite (importAESKey_exportAESKey k Hk) in Hr.
  unfold bind at 1, Chat.aesKeysRef_set, Chat.onChat, modify in Hr.
  unfold bind at 1, Chat.call at 1, setItem, modify in Hr.
  unfold ret in Hr. subst r. cbn. rewrite lookup_insert_eq. done.
Qed.


(** The happy path in the Chat.tsx that exchanges keys: A, without a key
    for B, publishes a directed record and stores its key, and B, who holds
    the private key of the public key the server has, recovers the key of
    A. *)
Lemma chat2_convergence A B tA tB seedB c :
  let wA := Chat.world tA in
  let kA := (generateAESKey (entropy wA)).1 in
  let eA := (generateAESKey (entropy wA)).2 in
  let kpB := rsa_generateKey seedB in
  Chat.aesKeysRef (Chat.chat tA) !! B = None ->
  truthy (localStorage wA !! Chat2.conversationKeyName A B) = false ->
  A ≠ B -> Server.missing A = false -> Server.missing B = false ->
  online wA = true -> Server.up (directory wA) = true ->
  Server.userExists A (directory wA) = true ->
  Server.userExists B (directory wA) = true ->
  Server.PublicKey (directory wA) !! B
  = Some (btoa_bytes (rsa_exportKey_spki kpB.1)) ->
  Server.SessionKey (directory wA) !! (A, B) = None ->
  Server.SessionKey (directory wA) !! (B, A) = None ->
  rsa_oaep_encrypt kpB.1 (draw 32 eA).1 (TextEncoder_encode (exportAESKey kA))
  = Some c ->
  c ≠ [] ->
  Chat.privateKeyRef (Chat.chat tB) = Some kpB.2 ->
  Chat.aesKeysRef (Chat.chat tB) !! A = None ->
  truthy (localStorage (Chat.world tB) !! Chat2.conversationKeyName B A)
  = false ->
  online (Chat.world tB) = true ->
  directory (Chat.world tB)
  = directory (Chat.world (Chat2.getOrCreateSessionKey A B tA).2) ->
  let rA := Chat2.getOrCreateSessionKey A B tA in
  let rB := Chat2.getOrCreateSessionKey B A tB in
  rA.1 = Ok kA
  ∧ Server.SessionKey (directory (Chat.world rA.2)) !! (A, B)
    = Some (btoa_bytes c)
  ∧ localStorage (Chat.world rA.2) !! Chat2.conversationKeyName A B
    = Some (exportAESKey kA)
  ∧ rB.1 = Ok kA.
Proof.
  intros wA kA eA kpB HA1 HA2 Hne HmA HmB Hon Hup HuA HuB Hpk HAB HBA Henc Hc
    Hsk HB1 HB2 HonB Hdir rA rB.
  destruct (getOrCreateSessionKey2_publishes A B tA kpB.1 c HA1 HA2 HmA HmB Hon
              Hup HuA HuB Hpk (rsa_importKey_exportKey _) HAB HBA Henc Hc)
    as (HrA & HdirA & HlsA).
  fold rA in HrA, HdirA, HlsA, Hdir. rewrite HdirA in Hdir.
  split; [exact HrA|]. split; [|split].
  - rewrite HdirA. cbn. apply lookup_insert_eq.
  - rewrite HlsA. apply lookup_insert_eq.
  - refine (proj1 (getOrCreateSessionKey2_receives A B tB seedB _ kA c
                     (generateAESKey_valid _) HB1 HB2 HonB _ _ _ Hsk Henc)).
    + rewrite Hdir. exact Hup.
    + rewrite Hdir. cbn. rewrite lookup_insert_ne by congruence. exact HBA.
    + rewrite Hdir. cbn. apply lookup_insert_eq.
Qed.

End Chat2Facts.




(** ** utils/crypto.ts: keys and round trips *)

Section CryptoRoundTrips.
Context {WC : WebCrypto}.

(** X1. An AES key survives export and import: for a key of 16, 24 or
    32 bytes [importAESKey] gives back the key that [exportAESKey] wrote,
    and the exported text is not empty and has no colon; raw key material
    of another length is refused by [importAESKey] with a DataError; every
    key that [generateAESKey] makes comes back. *)
Theorem aes_key_export_import bs :
  (length bs ∈ [16; 24; 32]%nat ->
   importAESKey (exportAESKey {| raw := bs |}) = Ok {| raw := bs |}
   ∧ truthy (Some (exportAESKey {| raw := bs |})) = true
   ∧ 58 ∉ exportAESKey {| raw := bs |})
  ∧ (length bs ∉ [16; 24; 32]%nat ->
     importAESKey (btoa_bytes bs) = Throw DataError)
  ∧ ∀ e, importAESKey (exportAESKey (generateAESKey e).1)
         = Ok (generateAESKey e).1.
Proof.
  split; [|split].
  - intros Hk. split; [by apply importAESKey_exportAESKey|].
    split; [by apply exportAESKey_truthy|]. apply btoa_bytes_no_colon.
  - intros Hlen. unfold importAESKey.
    rewrite atob_btoa_bytes, charCodes_fromCharCode.
    by rewrite bool_decide_eq_false_2.
  - intros e. apply importAESKey_exportAESKey, generateAESKey_valid.
Qed.

Lemma hexDigit_inj a b : a < 16 -> b < 16 -> hexDigit a = hexDigit b -> a = b.
Proof.
  unfold hexDigit. intros Ha Hb.
  destruct (N.ltb_spec a 10), (N.ltb_spec b 10); lia.
Qed.

Lemma toHex2_inj a b : toHex2 a = toHex2 b -> a = b.
Proof.
  unfold toHex2. intros [= H1 H2].
  pose proof (Byte.to_N_bounded a) as Ha. pose proof (Byte.to_N_bounded b) as Hb.
  apply hexDigit_inj in H1; [|nlia..].
  apply hexDigit_inj in H2; [|nlia..].
  assert (Byte.to_N a = Byte.to_N b) as Heq by nlia.
  apply (f_equal Byte.of_N) in Heq. rewrite !Byte.of_to_N in Heq. congruence.
Qed.

Lemma hex_inj l1 l2 :
  concat (map toHex2 l1) = concat (map toHex2 l2) -> l1 = l2.
Proof.
  revert l2. induction l1 as [|a l1 IH]; intros [|b l2]; try done.
  cbn [map concat]. unfold toHex2 at 1 3. cbn [app].
  intros [= H1 H2 H3]. f_equal; [|by apply IH].
  apply toHex2_inj. unfold toHex2. congruence.
Qed.

Lemma hexDigit_hex d : d < 16 -> isHexDigit (hexDigit d).
Proof.
  unfold hexDigit, isHexDigit. intros Hd. destruct (N.ltb_spec d 10); lia.
Qed.

(** X2. [sha256] writes the digest in hexadecimal: two characters for
    each byte of the digest, each of them a digit 0-9 or a letter a-f, and
    two messages have the same hash exactly when the UTF-8 encodings of
    the two have the same digest. *)
Theorem sha256_hex a b :
  length (sha256 a) = (2 * length (sha256_digest (TextEncoder_encode a)))%nat
  ∧ Forall isHexDigit (sha256 a)
  ∧ (sha256 a = sha256 b
     ↔ sha256_digest (TextEncoder_encode a) = sha256_digest (TextEncoder_encode b)).
Proof.
  unfold sha256. split; [|split].
  - induction (sha256_digest (TextEncoder_encode a)) as [|x l IH]; [done|].
    cbn [map concat length]. unfold toHex2 at 1. cbn [app length].
    rewrite IH. lia.
  - induction (sha256_digest (TextEncoder_encode a)) as [|x l IH];
      [constructor|].
    cbn [map concat]. unfold toHex2 at 1. cbn [app].
    pose proof (Byte.to_N_bounded x).
    constructor; [apply hexDigit_hex; nlia|].
    constructor; [apply hexDigit_hex; nlia|]. exact IH.
  - split; [apply hex_inj | by intros ->].
Qed.

Context {WL : WebCryptoLaws WC}.

(** X3. AES round trip, with a key of 16, 24 or 32 bytes: what [aesEncrypt]
    makes of a well-formed message that does not start with U+FEFF,
    [aesDecrypt] turns back into the message, with the same key; and
    neither the ciphertext nor the iv that
    [aesEncrypt] returns contains a colon, so that the envelope
    ciphertext:iv has two parts. *)
Theorem aesEncrypt_aesDecrypt message k e :
  validKey k ->
  wellFormed message = true -> head message ≠ Some 0xFEFF ->
  let enc := (aesEncrypt message k e).1 in
  aesDecrypt (ciphertext enc) (iv enc) k = Ok message
  ∧ (58 ∉ ciphertext enc) ∧ 58 ∉ iv enc.
Proof.
  intros Hk Hwf Hhead enc. subst enc. split.
  - rewrite (aesDecrypt_aesEncrypt message k e Hk).
    by rewrite utf8_round_trip.
  - unfold aesEncrypt. destruct (draw 12 e) as [ivb e']. cbn [fst ciphertext iv].
    split; apply btoa_bytes_no_colon.
Qed.

(** X4. RSA round trip: the exported public key of a pair that
    [generateRSAKeyPair] makes is imported by [importRSAPublicKey] as the
    public key of the pair, and what [rsaEncrypt] makes with it of a
    well-formed text that does not start with U+FEFF, [rsaDecrypt] turns
    back into the text with the private key of the pair. *)
Theorem rsaEncrypt_rsaDecrypt data e e' c :
  wellFormed data = true -> head data ≠ Some 0xFEFF ->
  let pair := (generateRSAKeyPair e).1 in
  let publicKey := (rsa_generateKey (draw rsa_generateKey_entropy e).1).1 in
  (rsaEncrypt data publicKey e').1 = Ok c ->
  importRSAPublicKey pair.1 = Ok publicKey
  ∧ rsaDecrypt c pair.2 = Ok data.
Proof.
  intros Hwf Hhead pair publicKey. subst pair publicKey.
  unfold generateRSAKeyPair, rsaEncrypt.
  destruct (draw rsa_generateKey_entropy e) as [seed e1]. cbn [fst snd].
  destruct (draw 32 e') as [oaep e2].
  destruct (rsa_oaep_encrypt _ _ _) as [encrypted|] eqn:Henc; [|done].
  cbn [fst]. intros [= <-]. split.
  - unfold importRSAPublicKey.
    rewrite atob_btoa_bytes, charCodes_fromCharCode.
    by rewrite rsa_importKey_exportKey.
  - unfold rsaDecrypt. rewrite atob_btoa_bytes, charCodes_fromCharCode.
    rewrite (rsa_oaep_decrypt_encrypt _ _ _ _ Henc).
    by rewrite utf8_round_trip.
Qed.

End CryptoRoundTrips.

(** ** The routes of the chat *)

Section ServerFacts.

(** X5. A public key that POST /public-key has accepted is what
    GET /public-key/:username answers for that user, and the keys of the
    other users are as before. *)
Theorem public_key_store_lookup username publicKey db :
  status (Server.post_public_key username publicKey db).1 = 200 ->
  let db' := (Server.post_public_key username publicKey db).2 in
  Server.get_public_key username db'
  = ({| status := 200; data := PublicKeyBody username publicKey |}, db')
  ∧ (∀ other, other ≠ username ->
       Server.PublicKey db' !! other = Server.PublicKey db !! other).
Proof.
  unfold Server.post_public_key, Server.internalError, Server.json.
  destruct (Server.missing username || Server.missing publicKey); [done|].
  destruct (Server.up db) eqn:Hup; [|done]. cbn [negb].
  destruct (Server.userExists username db); [|done]. cbn [negb fst snd].
  intros _. unfold Server.get_public_key, Server.json.
  cbn [Server.up Server.set_PublicKey Server.PublicKey]. rewrite Hup.
  cbn [negb]. rewrite lookup_insert_eq. split; [done|].
  intros other Hne. by rewrite lookup_insert_ne.
Qed.

(** X6. DELETE /public-key/:username when the database answers: the
    answer is 200; afterwards GET /public-key answers 404 for the user,
    GET /users, when the names of the public keys are trimmed, lists the
    user to nobody, the keys of the other users are untouched, and
    deleting once more gives the same answer and the same database. *)
Theorem public_key_delete username db :
  Server.up db = true ->
  let r := Server.delete_public_key username db in
  status r.1 = 200
  ∧ status (Server.get_public_key username r.2).1 = 404
  ∧ (trimmedKeys db ->
     trimmedKeys r.2 ∧ ∀ exclude, username ∉ listed exclude r.2)
  ∧ (∀ other, other ≠ username ->
       Server.PublicKey r.2 !! other = Server.PublicKey db !! other)
  ∧ Server.delete_public_key username r.2 = (r.1, r.2).
Proof.
  intros Hup r. subst r. unfold Server.delete_public_key, Server.json.
  rewrite Hup. cbn [negb fst snd status].
  assert (delete username (Server.PublicKey db) !! username = None) as Hdel
    by apply lookup_delete_eq.
  split; [done|]. split; [|split; [|split]].
  - unfold Server.get_public_key, Server.json.
    cbn [Server.up Server.set_PublicKey Server.PublicKey]. rewrite Hup.
    cbn [negb]. by rewrite Hdel.
  - intros Htrimmed. split; [by apply trimmedKeys_delete|].
    intros exclude Hin.
    apply listed_has_public_key in Hin; [|by apply trimmedKeys_delete].
    cbn [Server.set_PublicKey Server.PublicKey] in Hin. rewrite Hdel in Hin.
    by destruct Hin.
  - intros other Hne. cbn [Server.set_PublicKey Server.PublicKey].
    by rewrite lookup_delete_ne.
  - cbn [Server.up Server.set_PublicKey]. rewrite Hup. cbn [negb].
    unfold Server.set_PublicKey. cbn. by rewrite delete_delete_eq.
Qed.

(** X7. GET /users lists exactly the registered users for whom a public
    key is stored under a name that is not the one given as [exclude] and
    that is, once trimmed, the name of the user; it lists nobody when the
    database does not answer.  When the names of the public keys are
    trimmed, these are the registered users that have a public key, the
    user given as [exclude] left out. *)
Theorem get_users_lists_published exclude db u :
  (u ∈ listed exclude db
   ↔ Server.up db = true
     ∧ u ∈ map User.username (Server.User db)
     ∧ ∃ name, is_Some (Server.PublicKey db !! name) ∧ trim name = u
               ∧ (truthy exclude = true -> exclude ≠ Some name))
  ∧ (trimmedKeys db ->
     u ∈ listed exclude db
     ↔ Server.up db = true
       ∧ u ∈ map User.username (Server.User db)
       ∧ is_Some (Server.PublicKey db !! u)
       ∧ (truthy exclude = true -> exclude ≠ Some u)).
Proof.
  split; [apply elem_of_listed|]. intros Htrimmed.
  rewrite elem_of_listed. split.
  - intros (Hup & Hu & name & Hkey & Hname & Hex).
    rewrite (Htrimmed name Hkey) in Hname. subst name. done.
  - intros (Hup & Hu & Hkey & Hex). split; [done|]. split; [done|].
    exists u. split; [done|]. split; [by apply Htrimmed | done].
Qed.


(** Sorting by timestamp keeps the messages and puts them in order. *)

Lemma insertByTimestamp_perm m l : Server.insertByTimestamp m l ≡ₚ m :: l.
Proof.
  induction l as [|x l IH]; [done|]. cbn [Server.insertByTimestamp].
  destruct (Message.timestamp m <? Message.timestamp x); [done|].
  rewrite IH. apply Permutation_swap.
Qed.

Lemma sortByTimestamp_perm l : Server.sortByTimestamp l ≡ₚ l.
Proof.
  unfold Server.sortByTimestamp.
  assert (∀ acc, foldl (λ acc m, Server.insertByTimestamp m acc) acc l
                 ≡ₚ l ++ acc) as H.
  { induction l as [|m l IH]; intros acc; [done|]. cbn [foldl].
    rewrite IH, insertByTimestamp_perm. symmetry. apply Permutation_middle. }
  rewrite H. by rewrite app_nil_r.
Qed.







(** X9. A message that POST /messages has accepted is in the answer of
    GET /messages for its sender and its receiver, in both orders of the
    two, with the sender, the receiver, the envelope and the hash that
    were posted; and every conversation holds afterwards all the messages
    it held before. *)
Theorem messages_store_fetch sender receiver encryptedContent messageHash db :
  status (Server.post_messages sender receiver encryptedContent messageHash db).1
  = 201 ->
  let db' :=
    (Server.post_messages sender receiver encryptedContent messageHash db).2 in
  ∃ msgs m,
    data (Server.get_messages sender receiver db').1 = MessagesBody msgs
    ∧ data (Server.get_messages receiver sender db').1 = MessagesBody msgs
    ∧ m ∈ msgs
    ∧ Message.sender m = sender ∧ Message.receiver m = receiver
    ∧ Message.encryptedContent m = encryptedContent
    ∧ Message.messageHash m = messageHash
    ∧ ∀ user1 user2 old,
        data (Server.get_messages user1 user2 db).1 = MessagesBody old ->
        ∃ new, data (Server.get_messages user1 user2 db').1 = MessagesBody new
               ∧ old ⊆ new.
Proof.
  unfold Server.post_messages, Server.internalError, Server.json.
  destruct (_ || _); [done|].
  destruct (Server.up db) eqn:Hup; [|done]. cbn [negb].
  destruct (_ || _); [done|]. cbn [fst snd]. intros _.
  unfold Server.get_messages, Server.json.
  cbn [Server.up Server.save_Message Server.Message]. rewrite Hup. cbn [negb fst data].
  eexists _, _. split; [reflexivity|]. split.
  { do 2 f_equal. apply list_filter_iff. tauto. }
  split.
  { rewrite sortByTimestamp_perm. apply list_elem_of_filter. split; cycle 1.
    - apply elem_of_app. right. apply list_elem_of_singleton. reflexivity.
    - left. split; reflexivity. }
  cbn. repeat (split; [reflexivity|]).
  intros user1 user2 old [= <-]. eexists. split; [reflexivity|].
  intros x. rewrite !sortByTimestamp_perm, !list_elem_of_filter, elem_of_app.
  tauto.
Qed.

(** X10. A session key that POST /session-key has accepted for (sender,
    receiver) is what GET /session-key/sender/receiver answers; asked in
    the other direction, for two users that differ, the server answers
    with the record
    (receiver, sender) when there is one and with this record otherwise;
    the records of the other pairs are untouched. *)
Theorem session_key_store_fetch sender receiver encryptedKey db :
  status (Server.post_session_key sender receiver encryptedKey db).1 = 200 ->
  let db' := (Server.post_session_key sender receiver encryptedKey db).2 in
  data (Server.get_session_key sender receiver db').1
  = SessionKeyBody sender receiver encryptedKey
  ∧ (sender ≠ receiver ->
     data (Server.get_session_key receiver sender db').1
     = match Server.SessionKey db !! (receiver, sender) with
       | Some theirs => SessionKeyBody receiver sender theirs
       | None => SessionKeyBody sender receiver encryptedKey
       end)
  ∧ (∀ pair, pair ≠ (sender, receiver) ->
       Server.SessionKey db' !! pair = Server.SessionKey db !! pair).
Proof.
  unfold Server.post_session_key, Server.internalError, Server.json.
  destruct (_ || _); [done|].
  destruct (Server.up db) eqn:Hup; [|done]. cbn [negb].
  destruct (_ || _); [done|]. cbn [fst snd]. intros _.
  unfold Server.get_session_key, Server.json.
  cbn [Server.up Server.set_SessionKey Server.SessionKey]. rewrite Hup.
  cbn [negb]. rewrite lookup_insert_eq. split; [done|]. split.
  - intros Hne. rewrite lookup_insert_ne by congruence.
    by destruct (Server.SessionKey db !! (receiver, sender)).
  - intros pair Hne. by rewrite lookup_insert_ne.
Qed.

(** No chat route touches the accounts. *)
Lemma route_User r db : Server.User (Server.route r db).2 = Server.User db.
Proof.
  destruct r; cbn [Server.route];
    unfold Server.post_public_key, Server.get_public_key,
      Server.delete_public_key, Server.post_messages, Server.get_messages,
      Server.get_users, Server.post_session_key, Server.get_session_key,
      Server.internalError, Server.json;
    repeat match goal with
      | |- context [if ?c then _ else _] => destruct c
      | |- context [match ?c with Some _ => _ | None => _ end] => destruct c
      end; reflexivity.
Qed.

(** X11. What no route of the chat does: the accounts and the
    availability of the database are never changed, a stored message is
    never removed or altered (the collection after a request starts with
    the collection before it), a request that is not answered with a 2xx
    status leaves the database as it was, and so does every GET. *)
Theorem route_keeps r db :
  let out := Server.route r db in
  Server.User out.2 = Server.User db
  ∧ Server.up out.2 = Server.up db
  ∧ Server.Message db `prefix_of` Server.Message out.2
  ∧ (¬ (200 ≤ status out.1 ∧ status out.1 < 300) -> out.2 = db)
  ∧ match r with
    | GET_public_key _ | GET_messages _ _ | GET_users _ | GET_session_key _ _ =>
        out.2 = db
    | _ => True
    end.
Proof.
  destruct r; cbn [Server.route];
    unfold Server.post_public_key, Server.get_public_key,
      Server.delete_public_key, Server.post_messages, Server.get_messages,
      Server.get_users, Server.post_session_key, Server.get_session_key,
      Server.internalError, Server.json;
    repeat match goal with
      | |- context [if ?c then _ else _] => destruct c
      | |- context [match ?c with Some _ => _ | None => _ end] => destruct c
      end;
    cbn [fst snd status Server.User Server.up Server.Message
         Server.set_PublicKey Server.set_SessionKey Server.save_Message];
    repeat split; try done; try (intros; lia);
    try (by apply prefix_app_r).
Qed.

End ServerFacts.

(** ** What a function leaves as it was *)

Section Keeps.
Context {S X : Type} (part : S -> X).

Lemma keeps_ret {A} (a : A) : keeps part (ret a).
Proof. by intros s. Qed.

Lemma keeps_throw {A} e : keeps part (throw (A := A) e).
Proof. by intros s. Qed.

Lemma keeps_await {A} (r : result A) : keeps part (await r).
Proof. by intros s. Qed.

Lemma keeps_gets {A} (f : S -> A) : keeps part (gets f).
Proof. by intros s. Qed.

Lemma keeps_bind {A B} (m : M S A) (k : A -> M S B) :
  keeps part m -> (∀ a, keeps part (k a)) -> keeps part (bind m k).
Proof.
  intros Hm Hk s. unfold bind. specialize (Hm s).
  destruct (m s) as [[a|e] s1]; [|exact Hm].
  cbn [snd] in Hm. by rewrite Hk.
Qed.

Lemma keeps_try_catch {A} (m : M S A) (h : exn -> M S A) :
  keeps part m -> (∀ e, keeps part (h e)) -> keeps part (try_catch m h).
Proof.
  intros Hm Hh s. unfold try_catch. specialize (Hm s).
  destruct (m s) as [[a|e] s1]; [exact Hm|].
  cbn [snd] in Hm. by rewrite Hh.
Qed.

Lemma keeps_mapM {A B} (f : A -> M S B) l :
  (∀ a, keeps part (f a)) -> keeps part (mapM f l).
Proof.
  intros Hf. induction l as [|x l IH]; cbn [mapM]; [apply keeps_ret|].
  apply keeps_bind; [apply Hf|]. intros y.
  apply keeps_bind; [exact IH|]. intros ys. apply keeps_ret.
Qed.

Lemma keeps_if {A} (c : bool) (m1 m2 : M S A) :
  keeps part m1 -> keeps part m2 -> keeps part (if c then m1 else m2).
Proof. by destruct c. Qed.

End Keeps.

Section KeepsTab.
Context {WC : WebCrypto}.

Lemma keeps_form_call {A} (m : M World A) : keeps form (Chat.call m).
Proof. intros t. unfold Chat.call. by destruct (m (Chat.world t)). Qed.

Lemma keeps_form_aesKeysRef_set u k : keeps form (Chat.aesKeysRef_set u k).
Proof. by intros t. Qed.

Lemma keeps_form_setMessages v : keeps form (Chat.setMessages v).
Proof. by intros t. Qed.

End KeepsTab.

(** A part of the world, in a tab and in the browser. *)
Section KeepsWorld.
Context {WC : WebCrypto} {X : Type} (part : World -> X).

Lemma keeps_call {A} (m : M World A) :
  keeps part m -> keeps (λ t, part (Chat.world t)) (Chat.call m).
Proof.
  intros Hm t. unfold Chat.call. specialize (Hm (Chat.world t)).
  by destruct (m (Chat.world t)).
Qed.

Lemma keeps_onChat f : keeps (λ t, part (Chat.world t)) (Chat.onChat f).
Proof. by intros t. Qed.

Lemma keeps_onWorld {A} (m : M World A) :
  keeps part m -> keeps (λ b, part (App.world b)) (App.onWorld m).
Proof.
  intros Hm b. unfold App.onWorld. specialize (Hm (App.world b)).
  by destruct (m (App.world b)).
Qed.

Lemma keeps_onApp f : keeps (λ b, part (App.world b)) (App.onApp f).
Proof. by intros b. Qed.

Lemma keeps_inChat (m : jsstring -> M Chat.Tab unit) :
  (∀ user, keeps (λ t, part (Chat.world t)) (m user)) ->
  keeps (λ b, part (App.world b)) (App.inChat m).
Proof.
  intros Hm b. unfold App.inChat.
  destruct (App.currentUser (App.app b)) as [user|]; [|done].
  destruct (App.component (App.app b)) as [c|]; [|done].
  specialize (Hm user {| Chat.chat := c; Chat.world := App.world b |}).
  by destruct (m user _).
Qed.

End KeepsWorld.

Section KeepsRequests.

Lemma keeps_axios_storage r : keeps localStorage (chatAPI.axios r).
Proof.
  intros w. unfold chatAPI.axios. cbn [online log directory].
  destruct (online w); [|done].
  destruct (Server.route r (directory w)) as [resp db].
  by destruct (_ && _).
Qed.

Lemma keeps_axios_users r :
  keeps (λ w, Server.User (directory w)) (chatAPI.axios r).
Proof.
  intros w. unfold chatAPI.axios. cbn [online log directory].
  destruct (online w); [|done].
  pose proof (route_User r (directory w)) as Hu.
  destruct (Server.route r (directory w)) as [resp db].
  by destruct (_ && _).
Qed.

Lemma keeps_random {A X} (part : World -> X) (f : Entropy -> A * Entropy) :
  (∀ e w, part (set_entropy e w) = part w) -> keeps part (random f).
Proof. intros H w. unfold random. destruct (f (entropy w)). apply H. Qed.

Lemma keeps_random_result {A X} (part : World -> X)
  (f : Entropy -> result A * Entropy) :
  (∀ e w, part (set_entropy e w) = part w) -> keeps part (random_result f).
Proof. intros H w. unfold random_result. destruct (f (entropy w)). apply H. Qed.

Lemma keeps_setItem_users key value :
  keeps (λ w, Server.User (directory w)) (setItem key value).
Proof. by intros w. Qed.

End KeepsRequests.

Ltac keeps_step :=
  first
    [ apply keeps_ret | apply keeps_throw | apply keeps_await
    | apply keeps_gets
    | apply keeps_form_call | apply keeps_form_aesKeysRef_set
    | apply keeps_form_setMessages
    | apply keeps_axios_storage | apply keeps_axios_users
    | apply keeps_setItem_users
    | solve [apply keeps_random; done]
    | solve [apply keeps_random_result; done]
    | apply keeps_bind | apply keeps_try_catch | apply keeps_mapM
    | apply keeps_if
    | progress intros
    | match goal with |- keeps _ (match ?x with _ => _ end) => destruct x end ].

(** For the form, and for a part of the world. *)
Ltac keeps := repeat keeps_step.

Ltac keeps_world part :=
  repeat first
    [ apply (keeps_call part) | apply (keeps_onChat part)
    | apply (keeps_onWorld part) | apply (keeps_onApp part)
    | apply (keeps_inChat part) | keeps_step ].

(** ** Chat.tsx: keys, messages and sending *)

Section ChatFacts.
Context {WC : WebCrypto}.

Lemma keeps_getOrCreateSessionKey u p :
  keeps form (Chat.getOrCreateSessionKey u p).
Proof. unfold Chat.getOrCreateSessionKey, Chat.exchangeSessionKey. keeps. Qed.

Lemma keeps_lookupSessionKey u p : keeps form (Chat.lookupSessionKey u p).
Proof. unfold Chat.lookupSessionKey. keeps. Qed.

Lemma keeps_decryptMessage u msg : keeps form (Chat.decryptMessage u msg).
Proof. unfold Chat.decryptMessage. keeps. Qed.

Lemma keeps_fetchMessages u : keeps form (Chat.fetchMessages u).
Proof.
  unfold Chat.fetchMessages, Chat.decryptOrMark. keeps.
Qed.


(** What a successful [getOrCreateSessionKey] leaves. *)
Lemma getOrCreateSessionKey_ok u p t k t1 :
  Chat.getOrCreateSessionKey u p t = (Ok k, t1) ->
  Chat.aesKeysRef (Chat.chat t1) !! p = Some k
  ∧ directory (Chat.world t1) = directory (Chat.world t)
  ∧ online (Chat.world t1) = online (Chat.world t)
  ∧ ((∀ key, Chat.aesKeysRef (Chat.chat t) !! p = Some key -> validKey key) ->
     validKey k)
  ∧ (Chat.aesKeysRef (Chat.chat t) !! p = None ->
     ∃ s, localStorage (Chat.world t1) !! Chat.sessionKeyName u p = Some s
          ∧ truthy (Some s) = true ∧ importAESKey s = Ok k).
Proof.
  intros H.
  destruct (Chat.aesKeysRef (Chat.chat t) !! p) as [cached|] eqn:Hc.
  { unfold Chat.getOrCreateSessionKey, bind, Chat.aesKeysRef_get, gets in H.
    rewrite Hc in H. unfold ret in H. injection H as <- <-.
    split; [done|]. split; [done|]. split; [done|]. split; [|done].
    intros Hv. by apply Hv. }
  destruct (truthy (localStorage (Chat.world t) !! Chat.sessionKeyName u p))
    eqn:Hs.
  - unfold Chat.getOrCreateSessionKey, bind, Chat.aesKeysRef_get, getItem, gets
      in H.
    rewrite Hc, Hs in H. unfold await in H.
    destruct (localStorage (Chat.world t) !! Chat.sessionKeyName u p)
      as [s|] eqn:Hls; [|done].
    cbn [toString] in H.
    destruct (importAESKey s) as [key|e] eqn:Hi; [|done].
    unfold Chat.aesKeysRef_set, Chat.onChat, modify, ret in H.
    injection H as <- <-. cbn [Chat.chat Chat.world Chat.aesKeysRef].
    split; [apply lookup_insert_eq|]. split; [done|]. split; [done|].
    split; [intros _; by eapply importAESKey_valid|].
    intros _. by exists s.
  - destruct (getOrCreateSessionKey_fresh u p t Hc Hs)
      as (Hr & Hkeys & Hdir & Hon & Hls & _).
    rewrite H in Hr, Hkeys, Hdir, Hon, Hls. cbn [fst snd] in *.
    injection Hr as ->.
    split; [rewrite Hkeys; apply lookup_insert_eq|].
    split; [done|]. split; [done|].
    split; [intros _; apply generateAESKey_valid|].
    intros _. exists (exportAESKey (generateAESKey (entropy (Chat.world t))).1).
    split.
    + rewrite Hls. case_match.
      * rewrite lookup_insert. case_decide; [done|]. by rewrite lookup_insert_eq.
      * by rewrite lookup_insert_eq.
    + split; [apply exportAESKey_truthy | apply importAESKey_exportAESKey];
        apply generateAESKey_valid.
Qed.

(** X12. The session key is cached: after [getOrCreateSessionKey] has
    returned a key for a peer, a second call returns the same key, leaves
    the state as it is and sends no request, and the lookup of
    [decryptMessage] finds the same key. *)
Theorem getOrCreateSessionKey_cached u p t k t1 :
  Chat.getOrCreateSessionKey u p t = (Ok k, t1) ->
  Chat.getOrCreateSessionKey u p t1 = (Ok k, t1)
  ∧ Chat.lookupSessionKey u p t1 = (Ok k, t1)
  ∧ sent (trace (Chat.world (Chat.getOrCreateSessionKey u p t1).2))
    = sent (trace (Chat.world t1)).
Proof.
  intros H. destruct (getOrCreateSessionKey_ok u p t k t1 H) as (Hk & _).
  assert (Chat.getOrCreateSessionKey u p t1 = (Ok k, t1)) as H1.
  { unfold Chat.getOrCreateSessionKey, bind, Chat.aesKeysRef_get, gets.
    by rewrite Hk. }
  split; [exact H1|]. split; [|by rewrite H1].
  unfold Chat.lookupSessionKey, bind, Chat.aesKeysRef_get, gets. by rewrite Hk.
Qed.

(** X13. The session key survives a reload of the page: when
    [getOrCreateSessionKey] has returned a key for a peer that had none in
    memory, a component mounted anew over the same world (empty refs, the
    same local storage) gets the same key from local storage, changes
    nothing in the world, and caches the key. *)
Theorem session_key_survives_reload u p t k t1 :
  Chat.aesKeysRef (Chat.chat t) !! p = None ->
  Chat.getOrCreateSessionKey u p t = (Ok k, t1) ->
  let reloaded := {| Chat.chat := Chat.mount; Chat.world := Chat.world t1 |} in
  (Chat.getOrCreateSessionKey u p reloaded).1 = Ok k
  ∧ Chat.world (Chat.getOrCreateSessionKey u p reloaded).2 = Chat.world t1
  ∧ Chat.aesKeysRef (Chat.chat (Chat.getOrCreateSessionKey u p reloaded).2) !! p
    = Some k.
Proof.
  intros Hc H reloaded.
  destruct (getOrCreateSessionKey_ok u p t k t1 H) as (_ & _ & _ & _ & Hs).
  destruct (Hs Hc) as (s & Hls & Ht & Hi). subst reloaded.
  unfold Chat.getOrCreateSessionKey, bind, Chat.aesKeysRef_get, getItem, gets.
  cbn [Chat.chat Chat.world Chat.mount Chat.aesKeysRef].
  rewrite lookup_empty. cbn [Chat.world]. rewrite Hls, Ht.
  cbn [toString]. unfold await. rewrite Hi.
  cbn. by rewrite lookup_insert_eq.
Qed.

(** X14. Without a key there is no decryption: when the other user of a
    message has no key in memory and local storage has no entry for the
    conversation under either name, [decryptMessage] throws "No session
    key found" and changes nothing, and the list of [fetchMessages] shows
    the message as "[Decryption failed]". *)
Theorem decryptMessage_without_key u msg t :
  let peer := otherUser u msg in
  Chat.aesKeysRef (Chat.chat t) !! peer = None ->
  truthy (localStorage (Chat.world t) !! Chat.sessionKeyName u peer) = false ->
  truthy (localStorage (Chat.world t) !! Chat.sessionKeyName peer u) = false ->
  Chat.decryptMessage u msg t = (Throw (Error (js "No session key found")), t)
  ∧ Chat.decryptOrMark u msg t = (Ok (Chat.decryptionFailed msg), t).
Proof.
  intros peer Hc Hs Hr.
  assert (Chat.decryptMessage u msg t
          = (Throw (Error (js "No session key found")), t)) as H.
  { unfold Chat.decryptMessage, bind. fold (otherUser u msg). fold peer.
    rewrite (lookupSessionKey_fallback u peer t Hc Hs). by rewrite Hr. }
  split; [exact H|]. by rewrite decryptOrMark_eq, H.
Qed.









Lemma fetchMessages_returns u t : (Chat.fetchMessages u t).1 = Ok tt.
Proof.
  unfold Chat.fetchMessages, bind at 1, gets.
  destruct (negb _); [done|]. unfold try_catch.
  by destruct (bind _ _ _) as [[[]|e] t1].
Qed.

(** X16. [handleSendMessage] never throws.  With a blank message or no
    selected user it does nothing.  Otherwise it ends with [loading]
    false, and either with no error and an empty input, or with the error
    "Failed to send message" and the input as it was typed; the selected
    user and the list of users are never changed. *)
Theorem handleSendMessage_settles u t :
  let r := Chat.handleSendMessage u t in
  let blank := negb (truthy (Some (trim (Chat.newMessage (Chat.chat t)))))
               || negb (truthy (Chat.selectedUser (Chat.chat t))) in
  r.1 = Ok tt
  ∧ (blank = true -> r.2 = t)
  ∧ (blank = false ->
     Chat.loading (Chat.chat r.2) = false
     ∧ ((Chat.error (Chat.chat r.2) = [] ∧ Chat.newMessage (Chat.chat r.2) = [])
        ∨ (Chat.error (Chat.chat r.2) = js "Failed to send message"
           ∧ Chat.newMessage (Chat.chat r.2) = Chat.newMessage (Chat.chat t))))
  ∧ Chat.selectedUser (Chat.chat r.2) = Chat.selectedUser (Chat.chat t)
  ∧ Chat.users (Chat.chat r.2) = Chat.users (Chat.chat t).
Proof.
  intros r blank.
  assert (Hr : r = Chat.handleSendMessage u t) by reflexivity. clearbody r.
  unfold Chat.handleSendMessage, bind at 1, gets in Hr.
  unfold bind at 1, gets in Hr. fold blank in Hr. destruct blank.
  { unfold ret in Hr. subst r. by repeat split. }
  unfold bind at 1, Chat.setLoading, Chat.onChat, modify in Hr.
  unfold bind at 1, Chat.setError, Chat.onChat, modify in Hr.
  cbn [Chat.chat Chat.world Chat.users Chat.selectedUser Chat.messages
       Chat.newMessage Chat.loading Chat.error Chat.privateKeyRef
       Chat.publicKeyRef Chat.aesKeysRef] in Hr.
  unfold finally, try_catch in Hr. unfold bind at 1 in Hr.
  match type of Hr with context [Chat.getOrCreateSessionKey u ?p ?t0] =>
    pose proof (keeps_getOrCreateSessionKey u p t0) as K1;
    destruct (Chat.getOrCreateSessionKey u p t0) as [[k|e] t1]
  end; unfold form in K1;
    cbn [snd Chat.chat Chat.users Chat.selectedUser Chat.newMessage
         Chat.loading Chat.error Chat.privateKeyRef Chat.publicKeyRef] in K1;
    injection K1 as Ku Ks Kn _ Ke _ _.
  2:{ subst r. cbn. rewrite Ku, Ks, Kn. split; [done|]. split; [done|].
      split; [|done]. intros _. split; [done|]. by right. }
  unfold bind at 1, Chat.call at 1 in Hr. rewrite sealMessage_eq in Hr.
  cbn [fst snd] in Hr.
  unfold bind at 1, Chat.call at 1 in Hr. cbn [Chat.world Chat.chat] in Hr.
  destruct (chatAPI.sendMessage _ _ _ _ _) as [[b|e] w3].
  2:{ subst r. cbn. rewrite Ku, Ks, Kn. split; [done|]. split; [done|].
      split; [|done]. intros _. split; [done|]. by right. }
  unfold bind at 1, Chat.setNewMessage, Chat.onChat, modify in Hr.
  cbn [Chat.chat Chat.world] in Hr.
  match type of Hr with context [Chat.fetchMessages u ?t4] =>
    pose proof (keeps_fetchMessages u t4) as K2;
    pose proof (fetchMessages_returns u t4) as R2;
    destruct (Chat.fetchMessages u t4) as [r5 t5]
  end.
  cbn [fst snd] in R2. subst r5. unfold form in K2.
  cbn [snd Chat.chat Chat.users Chat.selectedUser Chat.newMessage
       Chat.loading Chat.error Chat.privateKeyRef Chat.publicKeyRef] in K2.
  injection K2 as Ku2 Ks2 Kn2 _ Ke2 _ _.
  subst r. cbn. rewrite Ku2, Ks2, Kn2, Ke2, Ku, Ks, Ke.
  split; [done|]. split; [done|].
  split; [|done]. intros _. split; [done|]. by left.
Qed.

Context {WL : WebCryptoLaws WC}.


End ChatFacts.

(** ** The effect on mount *)

Section MountFacts.
Context {WC : WebCrypto}.

(** The effect on mount returns, and [fetchUsers] leaves local storage as
    it was: [initializeKeys] and [fetchUsers] catch what is thrown. *)
Lemma initializeKeys_returns u t : (Chat.initializeKeys u t).1 = Ok tt.
Proof.
  unfold Chat.initializeKeys, try_catch, bind, Chat.call, random.
  destruct (generateRSAKeyPair (entropy (Chat.world t))) as [[pk sk] e'].
  cbn [fst snd]. unfold Chat.setKeyRefs, Chat.onChat, modify.
  cbn [Chat.world Chat.chat].
  by destruct (chatAPI.storePublicKey _ _ _) as [[b|e] w].
Qed.

Lemma fetchUsers_returns u t :
  (Chat.fetchUsers u t).1 = Ok tt
  ∧ localStorage (Chat.world (Chat.fetchUsers u t).2)
    = localStorage (Chat.world t).
Proof.
  unfold Chat.fetchUsers, try_catch, bind, Chat.call, chatAPI.getUsers.
  pose proof (keeps_axios_storage
                (GET_users (if truthy (Some u) then Some u else None))
                (Chat.world t)) as Hls.
  destruct (chatAPI.axios _ _) as [[b|e] w]; cbn [snd] in Hls; by cbn.
Qed.

(** X18. [fetchUsers] never throws, sends one request, GET /users with
    the current user to leave out, and changes neither the server nor
    local storage.  When the server answers, the list of the component
    becomes exactly the registered users for whom a public key is stored
    under a name that is not that of the current user and that is, once
    trimmed, the name of the user: when the names of the public keys are
    trimmed, the registered users that have published a public key, the
    current user left out.  When no answer comes, the list stays as it
    was. *)
Theorem fetchUsers_lists_online u t :
  let r := Chat.fetchUsers u t in
  let db := directory (Chat.world t) in
  r.1 = Ok tt
  ∧ directory (Chat.world r.2) = db
  ∧ localStorage (Chat.world r.2) = localStorage (Chat.world t)
  ∧ sent (trace (Chat.world r.2))
    = sent (trace (Chat.world t))
      ++ [GET_users (if truthy (Some u) then Some u else None)]
  ∧ (if online (Chat.world t) && Server.up db
     then (∀ x, x ∈ Chat.users (Chat.chat r.2)
                ↔ x ∈ Server.User db
                  ∧ ∃ name, is_Some (Server.PublicKey db !! name)
                            ∧ trim name = User.username x
                            ∧ (u ≠ [] -> name ≠ u))
          ∧ (trimmedKeys db ->
             ∀ x, x ∈ Chat.users (Chat.chat r.2)
                  ↔ x ∈ Server.User db
                    ∧ is_Some (Server.PublicKey db !! User.username x)
                    ∧ (u ≠ [] -> User.username x ≠ u))
     else Chat.users (Chat.chat r.2) = Chat.users (Chat.chat t)).
Proof.
  intros r db. subst r db.
  unfold Chat.fetchUsers, try_catch, bind, Chat.call, chatAPI.getUsers,
    chatAPI.axios.
  cbn [online log directory Server.route].
  destruct (online (Chat.world t)) eqn:Hon; cbn [andb].
  2:{ cbn. rewrite sent_app. by repeat split. }
  unfold Server.get_users, Server.internalError, Server.json.
  destruct (Server.up (directory (Chat.world t))) eqn:Hup; cbn [negb].
  2:{ cbn. rewrite sent_app. by repeat split. }
  cbn. rewrite sent_app. do 4 (split; [done|]).
  set (db := directory (Chat.world t)).
  match goal with |- (∀ x, x ∈ ?l ↔ _) ∧ _ =>
    assert (∀ x, x ∈ l
                 ↔ x ∈ Server.User db
                   ∧ ∃ name, is_Some (Server.PublicKey db !! name)
                             ∧ trim name = User.username x
                             ∧ (u ≠ [] -> name ≠ u)) as Hgen
  end.
  { intros x. rewrite list_elem_of_filter, list_elem_of_fmap.
    destruct u as [|c u]; cbn [truthy].
    - split.
      + intros [(name & Hname & Hin%elem_of_key_names) Hx]. split; [done|].
        by exists name.
      + intros (Hx & name & Hkey & Hname & _). split; [|done].
        exists name. split; [done | by apply elem_of_key_names].
    - split.
      + intros [(name & Hname & Hin%list_elem_of_filter) Hx]. split; [done|].
        destruct Hin as [Hne Hin%elem_of_key_names]. by exists name.
      + intros (Hx & name & Hkey & Hname & Hne). split; [|done].
        exists name. split; [done|]. apply list_elem_of_filter.
        split; [by apply Hne | by apply elem_of_key_names]. }
  split; [exact Hgen|].
  intros Htrimmed x. rewrite Hgen. split.
  - intros (Hx & name & Hkey & Hname & Hne).
    rewrite (Htrimmed name Hkey) in Hname. subst name. done.
  - intros (Hx & Hkey & Hne). split; [done|].
    exists (User.username x). split; [done|].
    split; [by apply Htrimmed | done].
Qed.

(** X19. [initializeKeys] never throws and always puts the new key pair
    in the refs of the component.  When the server accepts the public key
    (the browser is online and POST /public-key answers 200) the server
    holds that key for the user and the error of the component is
    untouched; otherwise the server is as before and the component shows
    "Failed to initialize encryption keys".  The server accepts when it
    answers, the user is registered and neither the name nor the key is
    empty. *)
Theorem initializeKeys_publishes u t :
  let pair := (generateRSAKeyPair (entropy (Chat.world t))).1 in
  let db := directory (Chat.world t) in
  let accepted :=
    online (Chat.world t)
    && bool_decide (status (Server.post_public_key u pair.1 db).1 = 200) in
  let r := Chat.initializeKeys u t in
  r.1 = Ok tt
  ∧ Chat.privateKeyRef (Chat.chat r.2) = Some pair.2
  ∧ Chat.publicKeyRef (Chat.chat r.2) = pair.1
  ∧ (if accepted
     then Server.PublicKey (directory (Chat.world r.2)) !! u = Some pair.1
          ∧ Chat.error (Chat.chat r.2) = Chat.error (Chat.chat t)
     else directory (Chat.world r.2) = db
          ∧ Chat.error (Chat.chat r.2)
            = js "Failed to initialize encryption keys")
  ∧ (online (Chat.world t) = true -> Server.up db = true ->
     Server.userExists u db = true -> u ≠ [] -> pair.1 ≠ [] ->
     accepted = true).
Proof.
  intros pair db accepted r. subst pair db accepted r.
  unfold Chat.initializeKeys, try_catch, bind, Chat.call, random.
  destruct (generateRSAKeyPair (entropy (Chat.world t))) as [[pk sk] e'].
  cbn [fst snd]. unfold Chat.setKeyRefs, Chat.onChat, modify.
  cbn [Chat.world Chat.chat].
  unfold chatAPI.storePublicKey, chatAPI.axios.
  cbn [online log set_entropy directory Server.route].
  destruct (online (Chat.world t)) eqn:Hon; cbn [andb].
  2:{ cbn. by repeat split. }
  unfold Server.post_public_key, Server.internalError, Server.json.
  destruct u as [|c u]; [cbn; by repeat split|].
  destruct pk as [|p pk]; [cbn; by repeat split|].
  cbn [Server.missing orb].
  destruct (Server.up (directory (Chat.world t))); cbn [negb];
    [|cbn; by repeat split].
  destruct (Server.userExists (c :: u) (directory (Chat.world t))); cbn [negb];
    [|cbn; by repeat split].
  cbn. rewrite lookup_insert_eq. by repeat split.
Qed.

End MountFacts.

(** ** App.tsx: the session *)

Section AppFacts.
Context {WC : WebCrypto}.

(** The chat view with a user: the component is on the page, and mounting
    it leaves local storage as it was. *)
Lemma render_returns b : (App.render b).1 = Ok tt.
Proof.
  unfold App.render, bind at 1, gets.
  destruct (App.currentView (App.app b)); try done.
  destruct (truthy _); [|done].
  destruct (App.component (App.app b)) as [c|]; [done|].
  unfold bind at 1, App.setComponent, App.onApp, modify.
  unfold bind at 1, App.inChat at 1.
  cbn [App.app App.currentUser App.component App.world App.currentView].
  destruct (App.currentUser (App.app b)) as [user|].
  2:{ unfold App.inChat. by cbn. }
  pose proof (initializeKeys_returns user
                {| Chat.chat := Chat.mount; Chat.world := App.world b |}) as H1.
  destruct (Chat.initializeKeys user _) as [r1 t1]. cbn [fst] in H1. subst r1.
  unfold App.inChat.
  cbn [App.app App.currentUser App.component App.world App.currentView].
  pose proof (proj1 (fetchUsers_returns user
                       {| Chat.chat := Chat.chat t1;
                          Chat.world := Chat.world t1 |})) as H2.
  by destruct (Chat.fetchUsers user _) as [r2 t2].
Qed.

Lemma render_chat b user :
  App.currentView (App.app b) = App.chat ->
  App.currentUser (App.app b) = Some user ->
  truthy (Some user) = true ->
  let b' := (App.render b).2 in
  App.currentView (App.app b') = App.chat
  ∧ App.currentUser (App.app b') = Some user
  ∧ is_Some (App.component (App.app b'))
  ∧ localStorage (App.world b') = localStorage (App.world b).
Proof.
  intros Hv Hu Ht b'. assert (Hb : b' = (App.render b).2) by reflexivity.
  clearbody b'. unfold App.render, bind at 1, gets in Hb.
  rewrite Hv, Hu, Ht in Hb.
  destruct (App.component (App.app b)) as [c|] eqn:Hc.
  { unfold ret in Hb. subst b'. cbn [snd]. rewrite Hc. by repeat split. }
  unfold bind at 1, App.setComponent, App.onApp, modify in Hb.
  unfold bind at 1, App.inChat at 1 in Hb.
  cbn [App.app App.currentUser App.component App.world App.currentView] in Hb.
  rewrite Hu, Hv in Hb.
  match type of Hb with context [Chat.initializeKeys user ?t0] =>
    destruct (initializeKeys_spec user t0) as (_ & _ & Hls1 & _);
    destruct (Chat.initializeKeys user t0) as [[[]|e] t1]
  end; cbn [snd Chat.world] in Hls1.
  2:{ subst b'. cbn. by repeat split. }
  unfold App.inChat in Hb.
  cbn [App.app App.currentUser App.component App.world App.currentView] in Hb.
  match type of Hb with context [Chat.fetchUsers user ?t2] =>
    pose proof (proj2 (fetchUsers_returns user t2)) as Hls2;
    destruct (Chat.fetchUsers user t2) as [r3 t3]
  end; cbn [snd Chat.world] in Hls2.
  subst b'. cbn. rewrite Hls2, Hls1. by repeat split.
Qed.

Lemma handleLoginSuccess_users username :
  keeps (λ b, Server.User (directory (App.world b)))
    (App.handleLoginSuccess username).
Proof.
  unfold App.handleLoginSuccess, App.setCurrentUser, App.setCurrentView,
    App.render, App.setComponent, Chat.initializeKeys, Chat.fetchUsers,
    chatAPI.storePublicKey, chatAPI.getUsers, Chat.setKeyRefs, Chat.setError,
    Chat.setUsers.
  keeps_world (λ w, Server.User (directory w)).
Qed.

Lemma handleLoginSuccess_returns username b :
  (App.handleLoginSuccess username b).1 = Ok tt.
Proof.
  unfold App.handleLoginSuccess.
  unfold bind at 1, App.setCurrentUser, App.onApp, modify.
  unfold bind at 1, App.onWorld at 1, setItem, modify.
  unfold bind at 1, App.setCurrentView, App.onApp, modify.
  apply render_returns.
Qed.

(** The session that [handleLoginSuccess] opens. *)
Lemma handleLoginSuccess_session username b :
  truthy (Some username) = true ->
  let b1 := (App.handleLoginSuccess username b).2 in
  localStorage (App.world b1) !! js "currentUser" = Some username
  ∧ App.currentUser (App.app b1) = Some username
  ∧ App.currentView (App.app b1) = App.chat
  ∧ is_Some (App.component (App.app b1)).
Proof.
  intros Ht b1.
  assert (Hb : b1 = (App.handleLoginSuccess username b).2) by reflexivity.
  clearbody b1. unfold App.handleLoginSuccess in Hb.
  unfold bind at 1, App.setCurrentUser, App.onApp, modify in Hb.
  unfold bind at 1, App.onWorld at 1, setItem, modify in Hb.
  unfold bind at 1, App.setCurrentView, App.onApp, modify in Hb.
  cbn [App.app App.world App.currentUser App.currentView App.component]
    in Hb.
  match type of Hb with context [App.render ?b0] =>
    destruct (render_chat b0 username eq_refl eq_refl Ht)
      as (Hv & Hu & Hc & Hls)
  end.
  rewrite <- Hb in Hv, Hu, Hc, Hls.
  rewrite Hls, Hv, Hu. cbn. by rewrite lookup_insert_eq.
Qed.

(** X20. The session outlives a reload: [handleLoginSuccess], with a name
    that is not empty, writes the user under "currentUser" in local
    storage and shows the chat, and when
    the page is opened anew over that world, the application at its start,
    the check for an existing session finds the user, makes it the current
    user, shows the chat and mounts the component. *)
Theorem session_restored_on_reload username b :
  truthy (Some username) = true ->
  let b1 := (App.handleLoginSuccess username b).2 in
  let b2 := (App.checkSession
               {| App.app := App.start; App.world := App.world b1 |}).2 in
  localStorage (App.world b1) !! js "currentUser" = Some username
  ∧ App.currentUser (App.app b1) = Some username
  ∧ App.currentView (App.app b1) = App.chat
  ∧ App.currentUser (App.app b2) = Some username
  ∧ App.currentView (App.app b2) = App.chat
  ∧ is_Some (App.component (App.app b2)).
Proof.
  intros Ht b1 b2.
  destruct (handleLoginSuccess_session username b Ht) as (Hls & Hu1 & Hv1 & _).
  fold b1 in Hls, Hu1, Hv1.
  split; [exact Hls|]. split; [exact Hu1|]. split; [exact Hv1|].
  assert (Hb : b2 = (App.checkSession
               {| App.app := App.start; App.world := App.world b1 |}).2)
    by reflexivity.
  clearbody b2. unfold App.checkSession, bind at 1, getItem, gets in Hb.
  cbn [App.world] in Hb. rewrite Hls, Ht in Hb.
  unfold bind at 1, bind at 1, App.setCurrentUser, App.onApp, modify in Hb.
  unfold App.setCurrentView, App.onApp, modify in Hb.
  cbn [App.app App.world App.currentUser App.currentView App.component
       App.start] in Hb.
  match type of Hb with context [App.render ?b0] =>
    destruct (render_chat b0 username eq_refl eq_refl Ht) as (Hv & Hu & Hc & _)
  end.
  by rewrite <- Hb in Hv, Hu, Hc.
Qed.

(** Removing the entries whose name satisfies [P]: what is left. *)
Lemma removeKeys_storage (P : jsstring -> bool) keys b :
  ∀ key,
    localStorage
      (App.world (mapM (λ key, if P key then App.onWorld (removeItem key)
                               else ret tt) keys b).2) !! key
    = if P key && bool_decide (key ∈ keys) then None
      else localStorage (App.world b) !! key.
Proof.
  set (f := λ key, if P key then App.onWorld (removeItem key) else ret tt).
  revert b. induction keys as [|k keys IH]; intros b key.
  - cbn. by rewrite andb_false_r.
  - cbn [mapM]. unfold bind at 1. unfold f at 1.
    destruct (P k) eqn:Hk.
    + unfold App.onWorld, removeItem, modify. unfold bind at 1.
      match goal with |- context [mapM f keys ?b1] =>
        specialize (IH b1 key); destruct (mapM f keys b1) as [[us|e] b']
      end; unfold ret; cbn [snd] in IH |- *; rewrite IH;
        cbn [App.world localStorage log set_localStorage];
        (destruct (decide (key = k)) as [->|Hne];
         [rewrite Hk, lookup_delete_eq; cbn [andb];
          rewrite (bool_decide_eq_true_2 (k ∈ k :: keys)) by (by left);
          by destruct (bool_decide (k ∈ keys))
         |rewrite lookup_delete_ne by done;
          destruct (P key); cbn [andb]; [|done];
          destruct (decide (key ∈ keys)) as [Hin|Hin];
          [rewrite !bool_decide_eq_true_2; [done | by right | done]
          |rewrite !bool_decide_eq_false_2; [done | | done];
           by intros [?|?]%elem_of_cons]]).
    + unfold ret at 1. unfold bind at 1.
      specialize (IH b key). destruct (mapM f keys b) as [[us|e] b'];
        unfold ret; cbn [snd] in IH |- *; rewrite IH;
        (destruct (P key) eqn:Hkey; cbn [andb]; [|done];
         destruct (decide (key ∈ keys)) as [Hin|Hin];
         [rewrite !bool_decide_eq_true_2; [done | by right | done]
         |rewrite !bool_decide_eq_false_2; [done | | done];
          intros [->|?]%elem_of_cons; [congruence | done]]).
Qed.

(** X21. [handleLogout] of App.tsx ends the session: afterwards local
    storage has no entry "currentUser" and no entry whose name starts with
    "sessionKey_", every other entry is as before, and a page opened anew
    shows the login view, with no user and no component. *)
Theorem handleLogout_clears_session_keys b key :
  let b1 := (App.handleLogout b).2 in
  let b2 := (App.checkSession
               {| App.app := App.start; App.world := App.world b1 |}).2 in
  localStorage (App.world b1) !! key
  = (if bool_decide (key = js "currentUser") || startsWith key (js "sessionKey_")
     then None else localStorage (App.world b) !! key)
  ∧ App.currentUser (App.app b2) = None
  ∧ App.currentView (App.app b2) = App.login
  ∧ App.component (App.app b2) = None.
Proof.
  intros b1 b2.
  assert (∀ key, localStorage (App.world b1) !! key
          = (if bool_decide (key = js "currentUser")
                || startsWith key (js "sessionKey_")
             then None else localStorage (App.world b) !! key)) as Hls.
  { clear key b2. intros key.
    assert (Hb : b1 = (App.handleLogout b).2) by reflexivity. clearbody b1.
    unfold App.handleLogout in Hb.
    unfold bind at 1, App.setCurrentUser, App.onApp, modify in Hb.
    unfold bind at 1, App.onWorld at 1, removeItem, modify in Hb.
    cbn [App.app App.world] in Hb.
    unfold bind at 1, App.clearSessionKeys, bind at 1, gets in Hb.
    unfold bind at 1 in Hb.
    match type of Hb with context [mapM ?f ?keys ?b0] =>
      pose proof (removeKeys_storage (λ key, startsWith key (js "sessionKey_"))
                    keys b0 key) as Hrm;
      destruct (removeKeys_spec (λ key, startsWith key (js "sessionKey_"))
                  keys b0) as (us & b' & Hm & _)
    end.
    cbv beta in Hrm, Hm. rewrite Hm in Hb, Hrm. unfold ret at 1 in Hb.
    unfold bind at 1, App.setCurrentView, App.onApp, modify in Hb.
    unfold App.render, bind, gets in Hb. cbn [App.app App.currentView] in Hb.
    unfold App.setComponent, App.onApp, modify in Hb.
    subst b1. cbn [snd App.world] in Hrm |- *. rewrite Hrm.
    cbn [App.world localStorage log set_localStorage].
    destruct (decide (key = js "currentUser")) as [->|Hcu].
    - rewrite (bool_decide_eq_true_2 (js "currentUser" = js "currentUser"))
        by done.
      cbn [orb]. rewrite lookup_delete_eq. by destruct (_ && _).
    - rewrite (bool_decide_eq_false_2 (key = js "currentUser")) by done.
      cbn [orb]. rewrite lookup_delete_ne by done.
      destruct (startsWith key (js "sessionKey_")); cbn [andb]; [|done].
      match goal with |- context [bool_decide ?P] =>
        destruct (decide P) as [Hin|Hin];
        [by rewrite bool_decide_eq_true_2
        |rewrite bool_decide_eq_false_2 by done]
      end.
      destruct (delete (js "currentUser") (localStorage (App.world b)) !! key)
        as [v|] eqn:Hv.
      + exfalso. apply Hin. apply list_elem_of_fmap. exists (key, v).
        split; [done|]. by apply elem_of_map_to_list.
      + by rewrite lookup_delete_ne in Hv. }
  split; [apply Hls|].
  assert (Hb : b2 = (App.checkSession
               {| App.app := App.start; App.world := App.world b1 |}).2)
    by reflexivity.
  clearbody b2. unfold App.checkSession, bind at 1, getItem, gets in Hb.
  cbn [App.world] in Hb. rewrite (Hls (js "currentUser")) in Hb.
  rewrite bool_decide_eq_true_2 in Hb by reflexivity.
  cbn [orb truthy] in Hb.
  unfold bind at 1, ret at 1 in Hb.
  unfold App.render, bind, gets in Hb. cbn [App.app App.currentView App.start] in Hb.
  unfold App.setComponent, App.onApp, modify in Hb. by subst b2.
Qed.

End AppFacts.

(** ** The conversation key of the Chat.tsx that exchanges keys *)

Section ConversationKeyFacts.
Context {WC : WebCrypto}.

Lemma lessThan_asym a b : Chat2.lessThan a b = true -> Chat2.lessThan b a = false.
Proof.
  revert b. induction a as [|x a IH]; intros [|y b]; cbn; try done.
  destruct (N.ltb_spec x y), (N.ltb_spec y x), (N.eqb_spec x y),
    (N.eqb_spec y x); cbn; try done; try lia.
  apply IH.
Qed.

Lemma lessThan_total a b :
  Chat2.lessThan a b = false -> Chat2.lessThan b a = false -> a = b.
Proof.
  revert b. induction a as [|x a IH]; intros [|y b]; cbn; try done.
  destruct (N.ltb_spec x y), (N.ltb_spec y x), (N.eqb_spec x y),
    (N.eqb_spec y x); cbn; try done; try lia.
  intros H1 H2. f_equal; [done | by apply IH].
Qed.

(** One name for the two directions of a conversation. *)
Lemma conversationKeyName_symmetric a b :
  Chat2.conversationKeyName a b = Chat2.conversationKeyName b a.
Proof.
  unfold Chat2.conversationKeyName.
  destruct (Chat2.lessThan b a) eqn:Hba, (Chat2.lessThan a b) eqn:Hab;
    try done.
  - apply lessThan_asym in Hba. congruence.
  - by rewrite (lessThan_total a b Hab Hba).
Qed.


Lemma exchangeSessionKey2_storage u p k :
  keeps (λ t, localStorage (Chat.world t)) (Chat2.exchangeSessionKey u p k).
Proof.
  unfold Chat2.exchangeSessionKey, chatAPI.getPublicKey,
    chatAPI.storeSessionKey.
  keeps_world localStorage.
Qed.

(** What a successful [getOrCreateSessionKey] leaves in local storage when
    the key was not in the ref. *)
Lemma getOrCreateSessionKey2_stored u p t k t1 :
  Chat.aesKeysRef (Chat.chat t) !! p = None ->
  Chat2.getOrCreateSessionKey u p t = (Ok k, t1) ->
  ∃ s, localStorage (Chat.world t1) !! Chat2.conversationKeyName u p = Some s
       ∧ truthy (Some s) = true ∧ importAESKey s = Ok k.
Proof.
  intros Hc H.
  unfold Chat2.getOrCreateSessionKey in H.
  unfold bind at 1, Chat.aesKeysRef_get, gets in H. rewrite Hc in H.
  unfold bind at 1, getItem, gets in H.
  destruct (truthy (localStorage (Chat.world t) !! Chat2.conversationKeyName u p))
    eqn:Hs.
  { destruct (localStorage (Chat.world t) !! Chat2.conversationKeyName u p)
      as [s|] eqn:Hls; [|done].
    cbn [toString] in H. unfold bind at 1, await in H.
    destruct (importAESKey s) as [key|e] eqn:Hi; [|done].
    unfold bind, Chat.aesKeysRef_set, Chat.onChat, modify, ret in H.
    injection H as <- <-. by exists s. }
  unfold bind at 1 in H.
  destruct (Chat2.fetchSessionKey u p (Chat2.conversationKeyName u p) t)
    as [[[key|]|e] t2] eqn:Hf; [| |done].
  - unfold ret in H. injection H as <- <-.
    unfold Chat2.fetchSessionKey, try_catch in Hf.
    unfold bind at 1 in Hf.
    destruct (Chat.call _ t) as [[response|e] t3]; [|done].
    destruct (bool_decide (body_receiver response = Some u)).
    + unfold bind at 1, gets in Hf. unfold bind at 1, await at 1 in Hf.
      destruct (of_option _ _) as [sk|e]; [|done].
      unfold bind at 1, await at 1 in Hf.
      destruct (rsaDecrypt _ _) as [decryptedKey|e]; [|done].
      unfold bind at 1, await at 1 in Hf.
      destruct (importAESKey decryptedKey) as [sessionKey|e] eqn:Hi; [|done].
      unfold bind, Chat.aesKeysRef_set, Chat.onChat, modify, Chat.call,
        setItem, modify, ret in Hf.
      cbn [Chat.world Chat.chat] in Hf. injection Hf as <- <-.
      exists (exportAESKey sessionKey). cbn. rewrite lookup_insert_eq.
      apply importAESKey_valid in Hi.
      split; [done|].
      split; [by apply exportAESKey_truthy | by apply importAESKey_exportAESKey].
    + destruct (_ && _); [by unfold throw, ret in Hf | by unfold ret in Hf].
  - unfold bind at 1, Chat.call at 1, random in H.
    destruct (generateAESKey (entropy (Chat.world t2))) as [key e1] eqn:Hgen.
    unfold bind at 1, Chat.aesKeysRef_set, Chat.onChat, modify in H.
    unfold bind at 1, Chat.call at 1, setItem, modify in H.
    cbn [Chat.world Chat.chat] in H.
    unfold bind at 1 in H.
    match type of H with context [Chat2.exchangeSessionKey u p key ?t3] =>
      pose proof (exchangeSessionKey2_storage u p key t3) as Hx;
      destruct (Chat2.exchangeSessionKey u p key t3) as [[[]|e] t4]; [|done]
    end.
    unfold ret in H. injection H as <- <-. cbn beta in Hx. cbn [snd Chat.world] in Hx.
    exists (exportAESKey key). rewrite Hx. cbn. rewrite lookup_insert_eq.
    assert (validKey key) as Hv.
    { change key with (key, e1).1. rewrite <- Hgen. apply generateAESKey_valid. }
    split; [done|].
    split; [by apply exportAESKey_truthy | by apply importAESKey_exportAESKey].
Qed.

(** X22. The conversation key is shared by the tabs of a browser: when
    [getOrCreateSessionKey] of the Chat.tsx that exchanges keys has
    returned a key for the conversation of A with B, every tab with the
    same local storage and no key in memory gets that same key, as A
    asking for B and as B asking for A, the name of the entry being the
    same for both, and it changes nothing in the world. *)
Theorem conversation_key_shared_across_tabs A B t k t1 t2 :
  Chat.aesKeysRef (Chat.chat t) !! B = None ->
  Chat2.getOrCreateSessionKey A B t = (Ok k, t1) ->
  localStorage (Chat.world t2) = localStorage (Chat.world t1) ->
  (Chat.aesKeysRef (Chat.chat t2) !! B = None ->
   (Chat2.getOrCreateSessionKey A B t2).1 = Ok k
   ∧ Chat.world (Chat2.getOrCreateSessionKey A B t2).2 = Chat.world t2)
  ∧ (Chat.aesKeysRef (Chat.chat t2) !! A = None ->
     (Chat2.getOrCreateSessionKey B A t2).1 = Ok k
     ∧ Chat.world (Chat2.getOrCreateSessionKey B A t2).2 = Chat.world t2).
Proof.
  intros Hc H Hls.
  destruct (getOrCreateSessionKey2_stored A B t k t1 Hc H) as (s & Hs & Ht & Hi).
  rewrite <- Hls in Hs.
  split; intros Hc2;
    unfold Chat2.getOrCreateSessionKey, bind, Chat.aesKeysRef_get, getItem, gets;
    rewrite Hc2; [|rewrite (conversationKeyName_symmetric B A)];
    rewrite Hs, Ht; cbn [toString]; unfold await; rewrite Hi; done.
Qed.

End ConversationKeyFacts.

(** ** The accounts: registration and login *)

Section AuthFacts.
Context {WC : WebCrypto}.

Lemma findOne_None username db :
  Auth.findOne username db = None
  ↔ trim username ∉ map User.username (Server.User (Auth.chat db)).
Proof.
  unfold Auth.findOne. induction (Server.User (Auth.chat db)) as [|x l IH].
  - cbn. split; [intros _ ?%elem_of_nil; done | done].
  - cbn [List.find map]. case_bool_decide as Hx.
    + split; [done|]. intros Hn. exfalso. apply Hn. rewrite Hx. by left.
    + rewrite IH. rewrite not_elem_of_cons. split; [by intros ? | by intros [? ?]].
Qed.

Lemma findOne_Some username db user :
  Auth.findOne username db = Some user -> User.username user = trim username.
Proof.
  unfold Auth.findOne. intros [_ H]%List.find_some.
  by apply bool_decide_eq_true in H.
Qed.

Lemma findOne_app username db db' user :
  Auth.findOne username db = None ->
  User.username user = trim username ->
  Server.User (Auth.chat db') = Server.User (Auth.chat db) ++ [user] ->
  Auth.findOne username db' = Some user.
Proof.
  unfold Auth.findOne. intros Hnone Hname ->.
  induction (Server.User (Auth.chat db)) as [|x l IH].
  - cbn. by rewrite bool_decide_eq_true_2.
  - cbn [List.find app] in Hnone |- *.
    destruct (bool_decide (User.username x = trim username)); [done|].
    by apply IH.
Qed.

Lemma trimStart_length s : (length (trimStart s) ≤ length s)%nat.
Proof.
  induction s as [|c s IH]; [done|]. cbn [trimStart].
  destruct (isWhiteSpace c); cbn [length]; lia.
Qed.

Lemma trim_length s : (length (trim s) ≤ length s)%nat.
Proof.
  unfold trim. rewrite length_rev.
  etrans; [apply trimStart_length|]. rewrite length_rev.
  apply trimStart_length.
Qed.

(** [trim] changes nothing in what it has trimmed. *)
Lemma trimStart_head s c rest :
  trimStart s = c :: rest -> isWhiteSpace c = false.
Proof.
  induction s as [|a s IH]; cbn [trimStart]; [done|].
  destruct (isWhiteSpace a) eqn:Ha; [exact IH|]. by intros [= <- <-].
Qed.

Lemma trimStart_fixed s :
  (∀ c rest, s = c :: rest -> isWhiteSpace c = false) -> trimStart s = s.
Proof.
  destruct s as [|a s]; [done|]. intros H. cbn [trimStart].
  by rewrite (H a s eq_refl).
Qed.

Lemma trimStart_suffix s : ∃ p, s = p ++ trimStart s.
Proof.
  induction s as [|a s [p Hp]]; [by exists []|]. cbn [trimStart].
  destruct (isWhiteSpace a); [|by exists []].
  exists (a :: p). cbn [app]. by rewrite <- Hp.
Qed.

Lemma trim_trim s : trim (trim s) = trim s.
Proof.
  unfold trim. set (a := trimStart s). set (b := trimStart (rev a)).
  assert (trimStart (rev b) = rev b) as H1.
  { apply trimStart_fixed. intros c rest Hc.
    destruct (trimStart_suffix (rev a)) as [p Hp]. fold b in Hp.
    assert (a = rev b ++ rev p) as Ha
      by (by rewrite <- rev_app_distr, <- Hp, rev_involutive).
    rewrite Hc in Ha. apply (trimStart_head s c (rest ++ rev p)). exact Ha. }
  rewrite H1, rev_involutive. f_equal. apply trimStart_fixed.
  intros c rest Hc. by apply (trimStart_head (rev a) c rest).
Qed.

(** What a registration that is accepted has done. *)
Lemma register_accepted username password db :
  Auth.status (Auth.register username password db).1 = 201 ->
  let db' := (Auth.register username password db).2 in
  Auth.findOne username db = None
  ∧ Server.User (Auth.chat db')
    = Server.User (Auth.chat db)
      ++ [{| User.username := trim username;
             User.createdAt := Server.now (Auth.chat db) |}]
  ∧ Auth.passwordHash db'
    = <[trim username := Auth.hashPassword password]> (Auth.passwordHash db)
  ∧ Server.up (Auth.chat db') = true
  ∧ Server.missing username || Server.missing password = false.
Proof.
  unfold Auth.register, Auth.internalError, Auth.json.
  destruct (Server.missing username || Server.missing password); [done|].
  destruct (length username <? 3)%nat; [done|].
  destruct (length password <? 6)%nat; [done|].
  destruct (Server.up (Auth.chat db)) eqn:Hup; [|done]. cbn [negb].
  destruct (Auth.findOne username db) as [existing|]; [done|].
  unfold Auth.save.
  destruct ((length (trim username) <? 3)%nat || _); [done|].
  cbn [fst snd Auth.chat Auth.passwordHash Server.User Server.up]. done.
Qed.

(** A registration that is not accepted changes nothing. *)
Lemma register_refused username password db :
  Auth.status (Auth.register username password db).1 ≠ 201 ->
  (Auth.register username password db).2 = db.
Proof.
  unfold Auth.register, Auth.internalError, Auth.json.
  repeat case_match; cbn [fst snd Auth.status]; done.
Qed.

(** What makes the server accept a registration. *)
Lemma register_accepts username password db :
  (3 ≤ length (trim username))%nat -> (6 ≤ length password)%nat ->
  Server.up (Auth.chat db) = true ->
  trim username ∉ map User.username (Server.User (Auth.chat db)) ->
  Auth.hashPassword password ≠ [] ->
  Auth.status (Auth.register username password db).1 = 201.
Proof.
  intros Hu Hp Hup Hfresh Hhash. pose proof (trim_length username) as Htl.
  unfold Auth.register, Auth.internalError, Auth.json.
  destruct username as [|c username]; [cbn in Hu; lia|].
  destruct password as [|d password]; [cbn in Hp; lia|].
  cbn [Server.missing orb].
  rewrite (proj2 (Nat.ltb_ge _ _)) by lia.
  rewrite (proj2 (Nat.ltb_ge _ _)) by lia.
  rewrite Hup. cbn [negb].
  rewrite (proj2 (findOne_None (c :: username) db) Hfresh).
  unfold Auth.save. rewrite (proj2 (Nat.ltb_ge _ _)) by lia. cbn [orb].
  by destruct (Auth.hashPassword (d :: password)).
Qed.

(** [login] never writes. *)
Lemma login_db username password db : (Auth.login username password db).2 = db.
Proof.
  unfold Auth.login, Auth.internalError, Auth.json. by repeat case_match.
Qed.

(** A login that is not accepted, with a name and a password and a server
    that answers, is refused with 401. *)
Lemma login_refused username password db :
  username ≠ [] -> password ≠ [] -> Server.up (Auth.chat db) = true ->
  Auth.status (Auth.login username password db).1 ≠ 200 ->
  (Auth.login username password db).1
  = {| Auth.status := 401;
       Auth.data := Auth.ErrorBody (js "Invalid username or password") |}.
Proof.
  intros Hu Hp Hup. unfold Auth.login, Auth.internalError, Auth.json.
  destruct username; [done|]. destruct password; [done|].
  cbn [Server.missing orb]. rewrite Hup. cbn [negb].
  by repeat case_match.
Qed.

(** What [login] answers when the account exists, with its hash. *)
Lemma login_found username password db user :
  Server.missing username || Server.missing password = false ->
  Server.up (Auth.chat db) = true ->
  Auth.findOne username db = Some user ->
  Auth.login username password db
  = (if bool_decide (Some (Auth.hashPassword password)
                     = Auth.passwordHash db !! User.username user)
     then {| Auth.status := 200;
             Auth.data := Auth.UserBody (js "Login successful")
                            (User.username user) |}
     else {| Auth.status := 401;
             Auth.data := Auth.ErrorBody (js "Invalid username or password") |},
     db).
Proof.
  intros Hm Hup Hfind. unfold Auth.login, Auth.json.
  rewrite Hm, Hup, Hfind. cbn [negb].
  destruct (decide (Some (Auth.hashPassword password)
                    = Auth.passwordHash db !! User.username user)) as [He|He].
  - rewrite bool_decide_eq_false_2 by (by intros ?).
    by rewrite bool_decide_eq_true_2.
  - rewrite bool_decide_eq_true_2 by done. by rewrite bool_decide_eq_false_2.
Qed.

(** The account of a registration, for [login]. *)
Lemma login_after_register username password other db :
  Auth.status (Auth.register username password db).1 = 201 ->
  other ≠ [] ->
  let db' := (Auth.register username password db).2 in
  Auth.login username other db'
  = (if bool_decide (Auth.hashPassword other = Auth.hashPassword password)
     then {| Auth.status := 200;
             Auth.data := Auth.UserBody (js "Login successful")
                            (trim username) |}
     else {| Auth.status := 401;
             Auth.data := Auth.ErrorBody (js "Invalid username or password") |},
     db').
Proof.
  intros H201 Hother db'.
  destruct (register_accepted username password db H201)
    as (Hnone & Husers & Hhashes & Hup & Hm).
  fold db' in Husers, Hhashes, Hup.
  apply orb_false_elim in Hm as [Hmu Hmp].
  rewrite (login_found username other db'
             {| User.username := trim username;
                User.createdAt := Server.now (Auth.chat db) |}).
  - cbn [User.username]. rewrite Hhashes, lookup_insert_eq.
    destruct (decide (Auth.hashPassword other = Auth.hashPassword password))
      as [He|He].
    + rewrite !bool_decide_eq_true_2; [done | done | by rewrite He].
    + rewrite !bool_decide_eq_false_2; [done | done | by intros [= ?]].
  - rewrite Hmu. by destruct other.
  - exact Hup.
  - by apply (findOne_app username db db').
Qed.

(** X23. An account that POST /register has created can log in: POST
    /login with the same name and password answers 200 with the trimmed
    username and changes nothing, and with a password whose hash is
    another it answers 401, "Invalid username or password".  The trimmed
    name is a user of the server afterwards and was none before. *)
Theorem register_then_login username password db :
  Auth.status (Auth.register username password db).1 = 201 ->
  let db' := (Auth.register username password db).2 in
  Auth.login username password db'
  = ({| Auth.status := 200;
        Auth.data := Auth.UserBody (js "Login successful") (trim username) |},
     db')
  ∧ (∀ other, other ≠ [] ->
       Auth.hashPassword other ≠ Auth.hashPassword password ->
       Auth.login username other db'
       = ({| Auth.status := 401;
             Auth.data := Auth.ErrorBody (js "Invalid username or password") |},
          db'))
  ∧ Server.userExists (trim username) (Auth.chat db') = true
  ∧ Server.userExists (trim username) (Auth.chat db) = false.
Proof.
  intros H201 db'.
  destruct (register_accepted username password db H201)
    as (Hnone & Husers & _ & _ & Hm).
  fold db' in Husers. apply orb_false_elim in Hm as [_ Hmp].
  split; [|split; [|split]].
  - pose proof (login_after_register username password password db H201) as H.
    cbn zeta in H. fold db' in H. rewrite H; [|by destruct password].
    by rewrite bool_decide_eq_true_2.
  - intros other Hother Hne.
    pose proof (login_after_register username password other db H201 Hother)
      as H.
    cbn zeta in H. fold db' in H. rewrite H.
    by rewrite bool_decide_eq_false_2.
  - unfold Server.userExists. apply bool_decide_eq_true_2.
    rewrite trim_trim, Husers, map_app. apply elem_of_app. right. cbn.
    by left.
  - unfold Server.userExists. apply bool_decide_eq_false_2.
    rewrite trim_trim. by apply findOne_None.
Qed.

(** X24. POST /register answers 201 exactly when the username has three
    characters at least, also once trimmed, the password has six at least,
    the database answers, the trimmed name is not taken and the hash is not
    empty.  A registration that is refused changes nothing; one that is
    accepted adds the trimmed name at the end of the users and changes
    the hash of no other name. *)
Theorem register_accepts_iff username password db :
  (Auth.status (Auth.register username password db).1 = 201
   ↔ (3 ≤ length username)%nat ∧ (6 ≤ length password)%nat
     ∧ Server.up (Auth.chat db) = true
     ∧ (trim username ∉ map User.username (Server.User (Auth.chat db)))
     ∧ (3 ≤ length (trim username))%nat
     ∧ Auth.hashPassword password ≠ [])
  ∧ (Auth.status (Auth.register username password db).1 ≠ 201 ->
     (Auth.register username password db).2 = db)
  ∧ (Auth.status (Auth.register username password db).1 = 201 ->
     map User.username
       (Server.User (Auth.chat (Auth.register username password db).2))
     = map User.username (Server.User (Auth.chat db)) ++ [trim username]
     ∧ ∀ other, other ≠ trim username ->
         Auth.passwordHash (Auth.register username password db).2 !! other
         = Auth.passwordHash db !! other).
Proof.
  unfold Auth.register, Auth.internalError, Auth.json.
  destruct username as [|c username].
  { cbn. split; [|done]. split; [done|]. intros [? _]. lia. }
  destruct password as [|d password].
  { cbn. split; [|done]. split; [done|]. intros (_ & ? & _). lia. }
  cbn [Server.missing orb].
  destruct (Nat.ltb_spec (length (c :: username)) 3).
  { cbn [fst snd Auth.status]. split; [|done]. split; [done|]. intros [? _]. lia. }
  destruct (Nat.ltb_spec (length (d :: password)) 6).
  { cbn [fst snd Auth.status]. split; [|done]. split; [done|].
    intros (_ & ? & _). lia. }
  destruct (Server.up (Auth.chat db)); cbn [negb].
  2:{ cbn [fst snd Auth.status]. split; [|done]. split; [done|].
      by intros (_ & _ & ? & _). }
  pose proof (findOne_None (c :: username) db) as Hnone.
  destruct (Auth.findOne (c :: username) db) as [existing|].
  { cbn [fst snd Auth.status]. split; [|done]. split; [done|].
    intros (_ & _ & _ & Hn & _). by apply Hnone in Hn. }
  unfold Auth.save.
  destruct (Nat.ltb_spec (length (trim (c :: username))) 3); cbn [orb].
  { cbn [fst snd Auth.status]. split; [|done]. split; [done|].
    intros (_ & _ & _ & _ & ? & _). lia. }
  destruct (Auth.hashPassword (d :: password)) as [|h hash] eqn:Hh;
    cbn [Server.missing].
  { cbn [fst snd Auth.status]. split; [|done]. split; [done|].
    by intros (_ & _ & _ & _ & _ & ?). }
  cbn [fst snd Auth.status Auth.passwordHash Auth.chat Server.User].
  split; [|split; [done|]].
  - split; [|done]. intros _. repeat split; try done. by apply Hnone.
  - intros _. split; [by rewrite map_app|].
    intros other Hne. by rewrite lookup_insert_ne.
Qed.

(** X25. POST /login never changes the database.  It answers 200 exactly
    when name and password are not empty, the database answers, and there
    is a user with the trimmed name whose stored hash is the hash of the
    password; when name and password are given and the database answers,
    every other answer is 401, "Invalid username or password". *)
Theorem login_accepts_iff username password db :
  (Auth.login username password db).2 = db
  ∧ (Auth.status (Auth.login username password db).1 = 200
     ↔ username ≠ [] ∧ password ≠ [] ∧ Server.up (Auth.chat db) = true
       ∧ ∃ user, Auth.findOne username db = Some user
                 ∧ Auth.passwordHash db !! User.username user
                   = Some (Auth.hashPassword password))
  ∧ (username ≠ [] -> password ≠ [] -> Server.up (Auth.chat db) = true ->
     Auth.status (Auth.login username password db).1 ≠ 200 ->
     (Auth.login username password db).1
     = {| Auth.status := 401;
          Auth.data := Auth.ErrorBody (js "Invalid username or password") |}).
Proof.
  unfold Auth.login, Auth.internalError, Auth.json.
  destruct username as [|c username].
  { cbn. split; [done|]. split; [|done]. split; [done|]. by intros [? _]. }
  destruct password as [|d password].
  { cbn. split; [done|]. split; [|done]. split; [done|]. by intros (_ & ? & _). }
  cbn [Server.missing orb].
  destruct (Server.up (Auth.chat db)); cbn [negb].
  2:{ cbn. split; [done|]. split; [|done]. split; [done|].
      by intros (_ & _ & ? & _). }
  destruct (Auth.findOne (c :: username) db) as [user|].
  2:{ cbn. split; [done|]. split; [|done]. split; [done|].
      by intros (_ & _ & _ & ? & ? & _). }
  case_bool_decide as Hh.
  - cbn. split; [done|]. split; [|done]. split; [done|].
    intros (_ & _ & _ & ? & [= <-] & Heq). by rewrite Heq in Hh.
  - cbn. split; [done|]. split; [|done]. split; [|done]. intros _.
    repeat split; try done. exists user. split; [done|].
    destruct (decide (Some (Auth.hashPassword (d :: password))
                      = Auth.passwordHash db !! User.username user)); [done|].
    by exfalso.
Qed.

(** X26. Usernames stay unique: when no two users of the server have the
    same name, this is still so after any request to the routes of
    auth. *)
Theorem usernames_stay_unique r db :
  NoDup (map User.username (Server.User (Auth.chat db))) ->
  NoDup (map User.username (Server.User (Auth.chat (Auth.route r db).2))).
Proof.
  intros Hnd. destruct r as [username password|username password];
    cbn [Auth.route].
  - destruct (decide (Auth.status (Auth.register username password db).1 = 201))
      as [Hok|Hno]; [|by rewrite register_refused].
    destruct (register_accepted username password db Hok)
      as (Hfresh%findOne_None & -> & _).
    rewrite map_app. apply NoDup_app. split; [done|].
    split; [|apply NoDup_singleton].
    by intros x Hx ->%list_elem_of_singleton.
  - by rewrite login_db.
Qed.

End AuthFacts.

(** ** The forms *)

Section FormFacts.
Context {WC : WebCrypto}.

Lemma truthy_length s : (0 < length s)%nat -> truthy (Some s) = true.
Proof. destruct s; cbn; [lia | done]. Qed.

(** X27. The form of Login.tsx when the login is not accepted: with a
    name and a password typed, [handleSubmit] does not throw, ends with
    [loading] false and shows the error of the server, or "Login failed.
    Please try again." when no answer came; the error is "Invalid
    username or password" when the database answers.  The application
    stays where it is: its state, local storage, the server and the
    accounts are unchanged. *)
Theorem login_refused_shows_error p :
  let f := Login.form p in
  let s := Login.site p in
  let w := App.world (authAPI.browser s) in
  let answer := (Auth.login (Login.username f) (Login.password f)
                   (authAPI.accounts s)).1 in
  Login.username f ≠ [] -> Login.password f ≠ [] ->
  (online w = true -> Auth.status answer ≠ 200) ->
  let r := Login.handleSubmit p in
  r.1 = Ok tt
  ∧ Login.loading (Login.form r.2) = false
  ∧ Login.error (Login.form r.2)
    = (if online w
       then errorOr (Some answer) (js "Login failed. Please try again.")
       else js "Login failed. Please try again.")
  ∧ (online w = true -> Server.up (directory w) = true ->
     Login.error (Login.form r.2) = js "Invalid username or password")
  ∧ App.app (authAPI.browser (Login.site r.2)) = App.app (authAPI.browser s)
  ∧ localStorage (App.world (authAPI.browser (Login.site r.2)))
    = localStorage w
  ∧ directory (App.world (authAPI.browser (Login.site r.2))) = directory w
  ∧ authAPI.hashes (Login.site r.2) = authAPI.hashes s.
Proof.
  intros f s w answer Hu Hp Hno r.
  assert (Hr : r = Login.handleSubmit p) by reflexivity. clearbody r.
  unfold Login.handleSubmit in Hr.
  unfold bind at 1, Login.setError at 1, modify in Hr.
  unfold bind at 1, gets in Hr. cbn [Login.form Login.site Login.username
    Login.password] in Hr. fold f in Hr.
  destruct (Login.username f) as [|c u] eqn:Heu; [done|].
  destruct (Login.password f) as [|d pw] eqn:Hep; [done|].
  cbn [truthy negb orb] in Hr.
  unfold bind at 1, Login.setLoading at 1, modify in Hr.
  unfold finally, bind at 1, Login.onSite at 1 in Hr.
  cbn [Login.form Login.site Login.username Login.password Login.error
       Login.loading] in Hr. fold s in Hr.
  unfold authAPI.login, authAPI.axios in Hr. fold w in Hr.
  pose proof (login_db (c :: u) (d :: pw) (authAPI.accounts s)) as Hdb.
  pose proof (login_refused (c :: u) (d :: pw) (authAPI.accounts s)) as H401.
  destruct (online w) eqn:Hon.
  - specialize (Hno eq_refl). fold answer in H401.
    cbn [Auth.route] in Hr.
    destruct (Auth.login (c :: u) (d :: pw) (authAPI.accounts s))
      as [resp db] eqn:Hlogin.
    cbn [fst snd] in Hdb, answer. subst answer db.
    assert ((200 <=? Auth.status resp) && (Auth.status resp <? 300) = false)
      as H2xx.
    { unfold Auth.login, Auth.internalError, Auth.json in Hlogin.
      cbn [Server.missing orb] in Hlogin.
      repeat case_match; injection Hlogin as <-; cbn in Hno |- *; done. }
    rewrite H2xx in Hr. unfold Login.setError, Login.setLoading, modify in Hr.
    subst r. cbn. repeat split; try done.
    intros _ Hup. by rewrite (H401 ltac:(done) ltac:(done) Hup Hno).
  - unfold Login.setError, Login.setLoading, modify in Hr. subst r.
    cbn. by repeat split.
Qed.


Lemma handleRegisterSuccess_eq b :
  App.handleRegisterSuccess b
  = (Ok tt, {| App.app := {| App.currentView := App.login;
                             App.currentUser := App.currentUser (App.app b);
                             App.component := None |};
               App.world := App.world b |}).
Proof. reflexivity. Qed.

(** The form of Register.tsx when the server accepts. *)
Lemma Register_handleSubmit_accepted username password e s :
  (3 ≤ length username)%nat -> (6 ≤ length password)%nat ->
  online (App.world (authAPI.browser s)) = true ->
  Auth.status (Auth.register username password (authAPI.accounts s)).1 = 201 ->
  let db' := (Auth.register username password (authAPI.accounts s)).2 in
  (Register.handleSubmit
     {| Register.form :=
          {| Register.username := username; Register.password := password;
             Register.confirmPassword := password; Register.error := e;
             Register.loading := false |};
        Register.site := s |}).2
  = {| Register.form :=
         {| Register.username := username; Register.password := password;
            Register.confirmPassword := password; Register.error := [];
            Register.loading := false |};
       Register.site :=
         {| authAPI.browser :=
              {| App.app :=
                   {| App.currentView := App.login;
                      App.currentUser :=
                        App.currentUser (App.app (authAPI.browser s));
                      App.component := None |};
                 App.world := set_directory (Auth.chat db')
                                (App.world (authAPI.browser s)) |};
            authAPI.hashes := Auth.passwordHash db' |} |}.
Proof.
  intros Hu Hp Hon H201 db'. subst db'.
  assert (truthy (Some username) = true) as Htu by (apply truthy_length; lia).
  assert (truthy (Some password) = true) as Htp by (apply truthy_length; lia).
  unfold Register.handleSubmit.
  unfold bind at 1, Register.setError at 1, modify.
  unfold bind at 1, gets.
  cbn [Register.form Register.site Register.username Register.password
       Register.confirmPassword].
  rewrite Htu, Htp. cbn [negb orb].
  rewrite (proj2 (Nat.ltb_ge _ _)) by lia.
  rewrite (proj2 (Nat.ltb_ge _ _)) by lia.
  rewrite bool_decide_eq_true_2 by reflexivity. cbn [negb].
  unfold bind at 1, Register.setLoading at 1, modify.
  unfold finally, bind at 1, Register.onSite at 1.
  cbn [Register.form Register.site Register.username Register.password
       Register.error Register.loading].
  unfold authAPI.register, authAPI.axios. rewrite Hon. cbn [Auth.route].
  destruct (Auth.register username password (authAPI.accounts s))
    as [resp db1].
  cbn [fst snd] in H201 |- *. rewrite H201.
  cbn [N.leb N.ltb N.compare Pos.compare Pos.compare_cont andb].
  unfold try_catch, Register.onSite, authAPI.onBrowser. cbn [Register.site].
  rewrite handleRegisterSuccess_eq. reflexivity.
Qed.

(** The form of Login.tsx when the server accepts. *)
Lemma Login_handleSubmit_accepted username password name e s :
  username ≠ [] -> password ≠ [] ->
  online (App.world (authAPI.browser s)) = true ->
  Auth.login username password (authAPI.accounts s)
  = ({| Auth.status := 200;
        Auth.data := Auth.UserBody (js "Login successful") name |},
     authAPI.accounts s) ->
  (Login.handleSubmit
     {| Login.form :=
          {| Login.username := username; Login.password := password;
             Login.error := e; Login.loading := false |};
        Login.site := s |}).2
  = {| Login.form :=
         {| Login.username := username; Login.password := password;
            Login.error := []; Login.loading := false |};
       Login.site :=
         {| authAPI.browser :=
              (App.handleLoginSuccess name
                 {| App.app := App.app (authAPI.browser s);
                    App.world :=
                      set_directory (directory (App.world (authAPI.browser s)))
                        (App.world (authAPI.browser s)) |}).2;
            authAPI.hashes := authAPI.hashes s |} |}.
Proof.
  intros Hu Hp Hon Hlogin.
  destruct username as [|c u]; [done|]. destruct password as [|d pw]; [done|].
  unfold Login.handleSubmit.
  unfold bind at 1, Login.setError at 1, modify.
  unfold bind at 1, gets.
  cbn [Login.form Login.site Login.username Login.password truthy negb orb].
  unfold bind at 1, Login.setLoading at 1, modify.
  unfold finally, bind at 1, Login.onSite at 1.
  cbn [Login.form Login.site Login.username Login.password Login.error
       Login.loading].
  unfold authAPI.login, authAPI.axios. rewrite Hon. cbn [Auth.route].
  rewrite Hlogin.
  cbn [Auth.status N.leb N.ltb N.compare Pos.compare Pos.compare_cont andb
       Auth.data body_username toString].
  unfold try_catch, Login.onSite, authAPI.onBrowser.
  cbn [Login.site authAPI.browser authAPI.set_accounts authAPI.accounts
       Auth.chat Auth.passwordHash authAPI.hashes].
  match goal with |- context [App.handleLoginSuccess name ?b0] =>
    pose proof (handleLoginSuccess_returns name b0) as Hret;
    destruct (App.handleLoginSuccess name b0) as [r1 b1]
  end.
  cbn [fst] in Hret. by subst r1.
Qed.

(** X28. From registration to session: a visitor who submits the form of
    Register.tsx with a name that is not taken and has three characters at
    least once trimmed, a password of six characters at least, whose hash
    is not empty, and the same confirmation, to a server that answers, is
    sent to the login view
    without an error; submitting the form of Login.tsx with the same name
    and password then opens the session: the trimmed name is the current
    user, the chat is shown, local storage holds the name under
    "currentUser", and the server knows the user. *)
Theorem registered_user_logs_in username password s e1 e2 :
  let w := App.world (authAPI.browser s) in
  online w = true -> Server.up (directory w) = true ->
  (3 ≤ length (trim username))%nat -> (6 ≤ length password)%nat ->
  trim username ∉ map User.username (Server.User (directory w)) ->
  Auth.hashPassword password ≠ [] ->
  let registered :=
    (Register.handleSubmit
       {| Register.form :=
            {| Register.username := username; Register.password := password;
               Register.confirmPassword := password; Register.error := e1;
               Register.loading := false |};
          Register.site := s |}).2 in
  let logged :=
    (Login.handleSubmit
       {| Login.form :=
            {| Login.username := username; Login.password := password;
               Login.error := e2; Login.loading := false |};
          Login.site := Register.site registered |}).2 in
  let b := authAPI.browser (Login.site logged) in
  Register.error (Register.form registered) = []
  ∧ App.currentView (App.app (authAPI.browser (Register.site registered)))
    = App.login
  ∧ Login.error (Login.form logged) = []
  ∧ App.currentUser (App.app b) = Some (trim username)
  ∧ App.currentView (App.app b) = App.chat
  ∧ localStorage (App.world b) !! js "currentUser" = Some (trim username)
  ∧ Server.userExists (trim username) (directory (App.world b)) = true.
Proof.
  intros w Hon Hup Hlen Hpw Hfresh Hhash registered logged b.
  pose proof (trim_length username) as Htl.
  assert (truthy (Some (trim username)) = true) as Htt
    by (apply truthy_length; lia).
  assert (Auth.status (Auth.register username password (authAPI.accounts s)).1
          = 201) as H201 by (by apply register_accepts).
  assert (password ≠ []) as Hpne by (intros ->; cbn in Hpw; lia).
  pose proof (login_after_register username password password
                (authAPI.accounts s) H201 Hpne) as Hlogin.
  cbn zeta in Hlogin. rewrite bool_decide_eq_true_2 in Hlogin by done.
  destruct (register_accepted username password (authAPI.accounts s) H201)
    as (_ & Husers & _).
  subst registered logged b.
  rewrite (Register_handleSubmit_accepted username password e1 s);
    [| lia | done | exact Hon | exact H201].
  set (db1 := (Auth.register username password (authAPI.accounts s)).2) in *.
  cbn [Register.site Register.form Register.error authAPI.browser App.app
       App.currentView].
  rewrite (Login_handleSubmit_accepted username password (trim username) e2).
  2:{ intros ->. cbn in Hlen. lia. }
  2:{ intros ->. cbn in Hpw. lia. }
  2:{ exact Hon. }
  2:{ unfold authAPI.accounts.
      cbn [authAPI.browser authAPI.hashes App.world directory set_directory].
      by destruct db1. }
  cbn [Login.site Login.form Login.error authAPI.browser].
  match goal with |- context [App.handleLoginSuccess (trim username) ?b0] =>
    destruct (handleLoginSuccess_session (trim username) b0 Htt)
      as (Hls & Hcu & Hcv & _);
    pose proof (handleLoginSuccess_users (trim username) b0) as Hdir
  end.
  cbn beta in Hdir. unfold Server.userExists. rewrite Hdir.
  cbn [App.world directory set_directory].
  do 6 (split; [done|]). apply bool_decide_eq_true_2. fold db1 in Husers.
  rewrite trim_trim, Husers, map_app. apply elem_of_app. right. cbn. by left.
Qed.

End FormFacts.

(** ** The other revision: logout, and a message from A to B *)

Section OtherRevisionFacts.
Context {WC : WebCrypto}.

(** X29. [handleLogout] of the App.tsx that deletes the public key
    (unnamed/part_003) never throws and always logs out: no user, the login
    view, no component, and "currentUser" removed from local storage while
    every other entry, the conversation keys among them, stays.  On the
    server the users, the messages and the session keys are as before and
    no public key is new or changed.  When there is no user, the browser
    is offline or the database does not answer, the server is as it was;
    when there is a user whose name reaches the route as it is, the
    browser is online and the database answers, the public key of that
    user, and nothing else, is deleted. *)
Theorem handleLogout_delete_settles b :
  let r := App.handleLogout_delete b in
  let w := App.world b in
  let db' := directory (App.world r.2) in
  let user := App.currentUser (App.app b) in
  let answered := truthy user && online w && Server.up (directory w) in
  r.1 = Ok tt
  ∧ App.currentUser (App.app r.2) = None
  ∧ App.currentView (App.app r.2) = App.login
  ∧ App.component (App.app r.2) = None
  ∧ localStorage (App.world r.2) = delete (js "currentUser") (localStorage w)
  ∧ Server.User db' = Server.User (directory w)
  ∧ Server.Message db' = Server.Message (directory w)
  ∧ Server.SessionKey db' = Server.SessionKey (directory w)
  ∧ (∀ name pk, Server.PublicKey db' !! name = Some pk ->
                Server.PublicKey (directory w) !! name = Some pk)
  ∧ (answered = false -> db' = directory w)
  ∧ (answered = true -> plainName (toString user) = true ->
     db' = Server.set_PublicKey (delete (toString user)) (directory w)).
Proof.
  intros r w db' user answered.
  assert (r.1 = Ok tt
          ∧ App.currentUser (App.app r.2) = None
          ∧ App.currentView (App.app r.2) = App.login
          ∧ App.component (App.app r.2) = None
          ∧ localStorage (App.world r.2)
            = delete (js "currentUser") (localStorage w)
          ∧ db' = (if answered
                   then Server.set_PublicKey (delete (toString user))
                          (directory w)
                   else directory w)) as (H1 & H2 & H3 & H4 & H5 & H6).
  2:{ do 5 (split; [assumption|]). rewrite H6.
      destruct answered; cbn [Server.set_PublicKey Server.User Server.Message
        Server.SessionKey Server.PublicKey];
        (do 3 (split; [reflexivity|])); (split; [|split; [done|done]]).
      - intros name pk Hpk. destruct (decide (name = toString user)) as [->|Hne].
        + by rewrite lookup_delete_eq in Hpk.
        + by rewrite lookup_delete_ne in Hpk.
      - done. }
  subst db'.
  assert (Hr : r = App.handleLogout_delete b) by reflexivity. clearbody r.
  unfold App.handleLogout_delete in Hr.
  unfold bind at 1, gets in Hr. fold user in Hr.
  assert (∀ b1,
    (App.setCurrentUser None ;;
     App.onWorld (removeItem (js "currentUser")) ;;
     App.setCurrentView App.login ;;
     App.render)%js b1
    = (Ok tt,
       {| App.app := {| App.currentView := App.login;
                        App.currentUser := None;
                        App.component := None |};
          App.world := log (Removed (js "currentUser"))
                         (set_localStorage (delete (js "currentUser"))
                            (App.world b1)) |})) as Hrest.
  { intros b1.
    unfold bind at 1, App.setCurrentUser, App.onApp, modify.
    unfold bind at 1, App.onWorld at 1, removeItem, modify.
    cbn [App.app App.world].
    unfold bind at 1, App.setCurrentView, App.onApp, modify.
    unfold App.render, bind, gets. cbn [App.app App.currentView].
    unfold App.setComponent, App.onApp, modify. reflexivity. }
  destruct (truthy user) eqn:Ht; cbn [andb] in answered.
  2:{ unfold bind at 1, ret at 1 in Hr. rewrite Hrest in Hr. subst r.
      by repeat split. }
  unfold bind at 1, try_catch, bind at 1, App.onWorld at 1 in Hr.
  unfold chatAPI.deletePublicKey, chatAPI.axios in Hr.
  cbn [online log directory] in Hr. fold w in Hr.
  destruct (online w) eqn:Hon; cbn [andb] in answered.
  2:{ unfold ret at 1 in Hr. rewrite Hrest in Hr. subst r. by repeat split. }
  cbn [Server.route] in Hr. unfold Server.delete_public_key, Server.json in Hr.
  destruct (Server.up (directory w)) eqn:Hup; cbn [negb] in Hr;
    unfold Server.internalError, Server.json in Hr;
    cbn [status N.leb N.ltb N.compare Pos.compare Pos.compare_cont andb] in Hr;
    unfold ret at 1 in Hr; try unfold ret at 1 in Hr;
    rewrite Hrest in Hr; subst r; subst answered; by repeat split.
Qed.

Context {WL : WebCryptoLaws WC}.

(** X30. In the Chat.tsx that exchanges keys, a message of A reaches B:
    when the names of A and B reach the routes as they are, A has no key
    for B anywhere, both are registered, B has published
    the public key of its key pair, the server holds no session key
    between the two, the RSA encryption of the exported key succeeds, and
    B, in another browser with no key for A, sees the server as A left it,
    then [getOrCreateSessionKey] of A returns the
    key A generated, and [decryptMessage] of B opens a message from A to B
    that was sealed with that key: the content is the text A wrote,
    well-formed and not starting with U+FEFF, and it is verified. *)
Theorem chat2_message_delivered A B tA tB seedB c message w i ts env h :
  let wA := Chat.world tA in
  let kA := (generateAESKey (entropy wA)).1 in
  let eA := (generateAESKey (entropy wA)).2 in
  let kpB := rsa_generateKey seedB in
  plainName A = true -> plainName B = true ->
  Chat.aesKeysRef (Chat.chat tA) !! B = None ->
  truthy (localStorage wA !! Chat2.conversationKeyName A B) = false ->
  A ≠ B ->
  online wA = true -> Server.up (directory wA) = true ->
  Server.userExists A (directory wA) = true ->
  Server.userExists B (directory wA) = true ->
  Server.PublicKey (directory wA) !! B
  = Some (btoa_bytes (rsa_exportKey_spki kpB.1)) ->
  Server.SessionKey (directory wA) !! (A, B) = None ->
  Server.SessionKey (directory wA) !! (B, A) = None ->
  rsa_oaep_encrypt kpB.1 (draw 32 eA).1 (TextEncoder_encode (exportAESKey kA))
  = Some c ->
  c ≠ [] ->
  Chat.privateKeyRef (Chat.chat tB) = Some kpB.2 ->
  Chat.aesKeysRef (Chat.chat tB) !! A = None ->
  truthy (localStorage (Chat.world tB) !! Chat2.conversationKeyName B A)
  = false ->
  online (Chat.world tB) = true ->
  directory (Chat.world tB)
  = directory (Chat.world (Chat2.getOrCreateSessionKey A B tA).2) ->
  wellFormed message = true -> head message ≠ Some 0xFEFF ->
  (Chat2.getOrCreateSessionKey A B tA).1 = Ok kA
  ∧ ((Chat.sealMessage message kA w).1 = Ok (env, h) ->
     (Chat2.decryptMessage B
        {| Message._id := i; Message.sender := A; Message.receiver := B;
           Message.encryptedContent := env; Message.messageHash := h;
           Message.timestamp := ts |} tB).1
     = Ok {| DecryptedMessage.id := i; DecryptedMessage.sender := A;
             DecryptedMessage.receiver := B;
             DecryptedMessage.content := message;
             DecryptedMessage.timestamp := ts;
             DecryptedMessage.verified := true |}).
Proof.
  intros wA kA eA kpB HpA HpB HA1 HA2 Hne Hon Hup HuA HuB Hpk HAB HBA Henc Hc
    Hsk HB1 HB2 HonB Hdir Hwf Hhead.
  assert (Server.missing A = false) as HmA
    by (apply andb_prop in HpA as [HpA _]; by apply negb_true_iff).
  assert (Server.missing B = false) as HmB
    by (apply andb_prop in HpB as [HpB _]; by apply negb_true_iff).
  destruct (chat2_convergence A B tA tB seedB c HA1 HA2 Hne HmA HmB Hon Hup
              HuA HuB Hpk HAB HBA Henc Hc Hsk HB1 HB2 HonB Hdir)
    as (HrA & _ & _ & HrB).
  split; [exact HrA|]. intros Hseal.
  pose proof (seal_open_round_trip message kA w i A B ts
                (generateAESKey_valid _) Hwf Hhead env h Hseal) as Hopen.
  match type of Hopen with Chat.openEnvelope ?m _ = _ => set (msg := m) in * end.
  assert (Chat2.openEnvelope msg kA = Chat.openEnvelope msg kA) as Hparts.
  { unfold Chat2.openEnvelope. subst msg. cbn [Message.encryptedContent].
    rewrite sealMessage_eq in Hseal. cbn [fst] in Hseal.
    assert (env = ciphertext (aesEncrypt message kA (entropy w)).1 ++ js ":"
                  ++ iv (aesEncrypt message kA (entropy w)).1) as ->
      by congruence.
    by rewrite split_sealed. }
  unfold Chat2.decryptMessage.
  replace (Message.receiver msg) with B by reflexivity.
  replace (Message.sender msg) with A by reflexivity.
  rewrite bool_decide_eq_true_2 by reflexivity.
  unfold bind. destruct (Chat2.getOrCreateSessionKey B A tB) as [rB tB1].
  cbn [fst] in HrB. subst rB. cbv beta iota. unfold await.
  cbn [fst]. fold wA kA. by rewrite Hparts, Hopen.
Qed.

End OtherRevisionFacts.


(** ** Examples: alice and bob, with the model of the engine *)

Section Examples.
Import Model.
#[local] Existing Instance engine.

Lemma key0_valid : validKey key0.
Proof. unfold validKey. cbn. rewrite !elem_of_cons. tauto. Qed.

(** C3 fails as stated: bob has published no public key and there is no
    key for him anywhere, and [getOrCreateSessionKey] returns a key; it
    returns one too when the server cannot be reached. *)
Lemma unreachable_peer_returns_key :
  Server.PublicKey (directory world0) !! bob = None
  ∧ Server.SessionKey (directory world0) = ∅
  ∧ localStorage world0 = ∅
  ∧ (Chat.getOrCreateSessionKey alice bob (tab world0)).1
    = Ok {| raw := (draw 32 counting).1 |}
  ∧ (Chat.getOrCreateSessionKey alice bob (tab offline0)).1
    = Ok {| raw := (draw 32 counting).1 |}.
Proof. repeat split; vm_compute; reflexivity. Qed.

(** C5 fails as stated: for a peer without a public key the exchange
    writes nothing under the reverse name. *)
Lemma exchange_with_unreachable_peer_writes_nothing :
  (Chat.exchangeSessionKey alice bob key0 (tab world0)).1 = Ok tt
  ∧ localStorage
      (Chat.world (Chat.exchangeSessionKey alice bob key0 (tab world0)).2)
    !! Chat.sessionKeyName bob alice = None.
Proof. split; vm_compute; reflexivity. Qed.

Lemma no_directed_record_published_witness :
  Server.SessionKey
    (directory (Chat.world (Chat.getOrCreateSessionKey alice bob (tab world1)).2))
  = ∅
  ∧ (Chat.getOrCreateSessionKey bob alice
       (tab (elsewhere (directory (Chat.world
               (Chat.getOrCreateSessionKey alice bob (tab world1)).2))))).1
    = Ok {| raw := (draw 32 (entropy (elsewhere db1))).1 |}.
Proof.
  pose proof (no_directed_record_published alice bob (tab world1)
    (tab (elsewhere (directory (Chat.world
               (Chat.getOrCreateSessionKey alice bob (tab world1)).2))))
    eq_refl eq_refl eq_refl eq_refl eq_refl) as (_ & _ & H3 & _ & H5).
  split; [exact H3 | exact H5].
Defined.

Lemma directed_record_not_consulted_witness :
  (Chat.getOrCreateSessionKey bob alice (tab (elsewhere db2))).1
  = Ok {| raw := (draw 32 (entropy (elsewhere db2))).1 |}.
Proof.
  exact (proj1 (directed_record_not_consulted bob alice (js "QUJD")
                  (tab (elsewhere db2)) eq_refl eq_refl eq_refl)).
Defined.

Lemma fresh_key_never_fails_witness :
  (Chat.getOrCreateSessionKey alice bob (tab world0)).1
  = Ok (generateAESKey (entropy world0)).1.
Proof.
  exact (proj1 (fresh_key_never_fails alice bob (tab world0) eq_refl eq_refl)).
Defined.

Lemma exchangeSessionKey_local_only_witness :
  (Chat.exchangeSessionKey alice bob key0 (tab world1)).1 = Ok tt
  ∧ directory (Chat.world (Chat.exchangeSessionKey alice bob key0 (tab world1)).2)
    = db1
  ∧ sent (trace (Chat.world
                   (Chat.exchangeSessionKey alice bob key0 (tab world1)).2))
    = [GET_public_key bob]
  ∧ localStorage (Chat.world
                    (Chat.exchangeSessionKey alice bob key0 (tab world1)).2)
    = {[ Chat.sessionKeyName bob alice := exportAESKey key0 ]}.
Proof.
  assert (plainName bob = true) as Hplain by (vm_compute; reflexivity).
  assert (exchangeCompletes bob key0 (Chat.world (tab world1)) = true) as Hc
    by (vm_compute; reflexivity).
  destruct (exchangeSessionKey_local_only alice bob key0 (tab world1))
    as (H1 & H2 & H3 & _ & H & _).
  split; [exact H1|]. split; [exact H2|]. split; [exact H3|].
  exact (proj1 (H Hplain) Hc).
Defined.

Lemma seal_open_loses_byte_order_mark_witness :
  ∃ d, Chat.openEnvelope
         {| Message._id := 7; Message.sender := alice; Message.receiver := bob;
            Message.encryptedContent := sealedMark.1;
            Message.messageHash := sealedMark.2; Message.timestamp := 7 |} key0
       = Ok d
       ∧ DecryptedMessage.content d = js "hi".
Proof.
  destruct (seal_open_loses_byte_order_mark (js "hi") key0 world0 7 alice bob 7
              sealedMark.1 sealedMark.2 key0_valid eq_refl eq_refl)
    as (_ & d & H & Hc & _).
  exists d. split; assumption.
Defined.

Lemma openEnvelope_three_parts_witness :
  Chat.openEnvelope
    {| Message._id := 7; Message.sender := alice; Message.receiver := bob;
       Message.encryptedContent := sealedHello.1 ++ js ":" ++ js "x";
       Message.messageHash := sealedHello.2; Message.timestamp := 7 |} key0
  = Ok {| DecryptedMessage.id := 7; DecryptedMessage.sender := alice;
          DecryptedMessage.receiver := bob;
          DecryptedMessage.content := js "hello";
          DecryptedMessage.timestamp := 7;
          DecryptedMessage.verified := true |}.
Proof.
  exact (proj2 (openEnvelope_three_parts (js "hello") key0 world0 7 alice bob 7
                  (js "x") sealedHello.1 sealedHello.2 key0_valid eq_refl)).
Defined.

Lemma decryptMessage_digest_independent_witness :
  Chat.decryptMessage alice hello chattingTab
  = (Ok {| DecryptedMessage.id := Message._id hello;
           DecryptedMessage.sender := Message.sender hello;
           DecryptedMessage.receiver := Message.receiver hello;
           DecryptedMessage.content := js "hello";
           DecryptedMessage.timestamp := Message.timestamp hello;
           DecryptedMessage.verified :=
             bool_decide (sha256 (js "hello") = Message.messageHash hello) |},
     chattingTab)
  ∧ Chat.decryptMessage alice (Message.withHash (js "00") hello) chattingTab
    = (Ok {| DecryptedMessage.id := Message._id hello;
             DecryptedMessage.sender := Message.sender hello;
             DecryptedMessage.receiver := Message.receiver hello;
             DecryptedMessage.content := js "hello";
             DecryptedMessage.timestamp := Message.timestamp hello;
             DecryptedMessage.verified :=
               bool_decide (sha256 (js "hello") = js "00") |},
       chattingTab)
  ∧ bool_decide (sha256 (js "hello") = js "00") = false.
Proof.
  assert (Chat.lookupSessionKey alice (otherUser alice hello) chattingTab
          = (Ok Scenario.sessionKey, chattingTab)) as H1
    by (vm_compute; reflexivity).
  assert (aesDecrypt
            (toString (split 58 (Message.encryptedContent hello) !! 0%nat))
            (toString (split 58 (Message.encryptedContent hello) !! 1%nat))
            Scenario.sessionKey = Ok (js "hello")) as H2
    by (vm_compute; reflexivity).
  assert (js "00" ≠ sha256 (js "hello")) as Hne by (vm_compute; discriminate).
  destruct (decryptMessage_digest_independent alice hello chattingTab
              Scenario.sessionKey chattingTab (js "hello") (js "00") H1 H2)
    as (_ & Hd & _ & Hd' & Hv & _).
  split; [exact Hd|]. split; [exact Hd'|]. exact (proj1 (Hv Hne)).
Defined.

Lemma batch_decrypt_isolation_witness :
  length (Chat.messages (Chat.chat (Chat.fetchMessages alice chattingTab).2))
  = length stored.
Proof.
  assert (Chat.selectedUser (Chat.chat chattingTab) = Some bob) as H1
    by (vm_compute; reflexivity).
  assert (chatAPI.getMessages alice bob (Chat.world chattingTab)
          = (Ok (MessagesBody stored),
             (chatAPI.getMessages alice bob (Chat.world chattingTab)).2)) as H3
    by (vm_compute; reflexivity).
  exact (proj1 (proj2 (batch_decrypt_isolation alice bob stored chattingTab
                         _ H1 eq_refl H3))).
Defined.

(** What alice sees in [chatting]: "hello", verified, and the mark. *)
Example chatting_messages :
  map (λ d, (DecryptedMessage.content d, DecryptedMessage.verified d))
    (Chat.messages (Chat.chat (Chat.fetchMessages alice chattingTab).2))
  = [(js "hello", true); (js "[Decryption failed]", false)].
Proof. vm_compute. reflexivity. Qed.

End Examples.

(** ** More examples: the server, the session and the forms *)

Section MoreExamples.
Import Model Scenario.
#[local] Existing Instance engine.

Lemma aesEncrypt_aesDecrypt_witness :
  aesDecrypt (ciphertext (aesEncrypt (js "hello") key0 counting).1)
    (iv (aesEncrypt (js "hello") key0 counting).1) key0
  = Ok (js "hello").
Proof.
  assert (head (js "hello") ≠ Some 0xFEFF) as H by (vm_compute; discriminate).
  exact (proj1 (aesEncrypt_aesDecrypt (js "hello") key0 counting key0_valid
                  eq_refl H)).
Defined.

Lemma rsaEncrypt_rsaDecrypt_witness :
  rsaDecrypt
    (okOr [] (rsaEncrypt (js "hello")
                (rsa_generateKey (draw rsa_generateKey_entropy counting).1).1
                counting).1)
    (generateRSAKeyPair counting).1.2
  = Ok (js "hello").
Proof.
  assert (head (js "hello") ≠ Some 0xFEFF) as H by (vm_compute; discriminate).
  exact (proj2 (rsaEncrypt_rsaDecrypt (js "hello") counting counting _
                  eq_refl H eq_refl)).
Defined.

Lemma public_key_store_lookup_witness :
  Server.get_public_key bob db1
  = ({| status := 200;
        data := PublicKeyBody bob (btoa_bytes [x0a; x0b; x0c; x0d]) |}, db1).
Proof.
  exact (proj1 (public_key_store_lookup bob (btoa_bytes [x0a; x0b; x0c; x0d])
                  db0 eq_refl)).
Defined.

Lemma public_key_delete_witness :
  status (Server.get_public_key bob (Server.delete_public_key bob db1).2).1
  = 404.
Proof.
  exact (proj1 (proj2 (public_key_delete bob db1 eq_refl))).
Defined.

Lemma get_users_lists_published_witness :
  bob ∈ listed (Some alice) db1
  ↔ Server.up db1 = true
    ∧ bob ∈ map User.username (Server.User db1)
    ∧ is_Some (Server.PublicKey db1 !! bob)
    ∧ (truthy (Some alice) = true -> Some alice ≠ Some bob).
Proof.
  assert (trimmedKeys db1) as H.
  { intros name [pk Hpk]. apply elem_of_map_to_list in Hpk.
    vm_compute in Hpk. apply list_elem_of_singleton in Hpk.
    injection Hpk as -> _. reflexivity. }
  exact (proj2 (get_users_lists_published (Some alice) db1 bob) H).
Defined.


Lemma messages_store_fetch_witness :
  ∃ msgs m,
    data (Server.get_messages alice bob
            (Server.post_messages alice bob (js "QUJD:QUJD") (js "00") db0).2).1
    = MessagesBody msgs
    ∧ m ∈ msgs ∧ Message.encryptedContent m = js "QUJD:QUJD".
Proof.
  destruct (messages_store_fetch alice bob (js "QUJD:QUJD") (js "00") db0
              eq_refl) as (msgs & m & H1 & _ & H3 & _ & _ & H6 & _).
  exists msgs, m. split; [exact H1|]. split; [exact H3 | exact H6].
Defined.

Lemma session_key_store_fetch_witness :
  data (Server.get_session_key bob alice db2).1
  = SessionKeyBody alice bob (js "QUJD").
Proof.
  assert (alice ≠ bob) as Hne by (vm_compute; discriminate).
  exact (proj1 (proj2 (session_key_store_fetch alice bob (js "QUJD") db1
                         eq_refl)) Hne).
Defined.

Lemma getOrCreateSessionKey_cached_witness :
  Chat.lookupSessionKey alice bob
    (Chat.getOrCreateSessionKey alice bob (tab world1)).2
  = (Ok (generateAESKey counting).1,
     (Chat.getOrCreateSessionKey alice bob (tab world1)).2).
Proof.
  assert (Chat.getOrCreateSessionKey alice bob (tab world1)
          = (Ok (generateAESKey counting).1,
             (Chat.getOrCreateSessionKey alice bob (tab world1)).2)) as H
    by (vm_compute; reflexivity).
  exact (proj1 (proj2 (getOrCreateSessionKey_cached alice bob (tab world1)
                         _ _ H))).
Defined.

Lemma session_key_survives_reload_witness :
  (Chat.getOrCreateSessionKey alice bob
     (tab (Chat.world (Chat.getOrCreateSessionKey alice bob (tab world1)).2))).1
  = Ok (generateAESKey counting).1.
Proof.
  assert (Chat.getOrCreateSessionKey alice bob (tab world1)
          = (Ok (generateAESKey counting).1,
             (Chat.getOrCreateSessionKey alice bob (tab world1)).2)) as H
    by (vm_compute; reflexivity).
  exact (proj1 (session_key_survives_reload alice bob (tab world1) _ _
                  eq_refl H)).
Defined.

Lemma decryptMessage_without_key_witness :
  Chat.decryptOrMark alice hello (tab world0)
  = (Ok (Chat.decryptionFailed hello), tab world0).
Proof.
  assert (Chat.aesKeysRef (Chat.chat (tab world0)) !! otherUser alice hello
          = None) as H1 by (vm_compute; reflexivity).
  exact (proj2 (decryptMessage_without_key alice hello (tab world0) H1
                  eq_refl eq_refl)).
Defined.



Lemma session_restored_on_reload_witness :
  App.currentUser
    (App.app
       (App.checkSession
          {| App.app := App.start;
             App.world :=
               App.world (App.handleLoginSuccess alice
                            {| App.app := App.start; App.world := world1 |}).2
          |}).2)
  = Some alice.
Proof.
  exact (proj1 (proj2 (proj2 (proj2
           (session_restored_on_reload alice
              {| App.app := App.start; App.world := world1 |} eq_refl))))).
Defined.

Lemma conversation_key_shared_across_tabs_witness :
  (Chat2.getOrCreateSessionKey bob alice
     (Chat2.getOrCreateSessionKey alice bob (tab world1)).2).1
  = Ok (generateAESKey counting).1.
Proof.
  assert (Chat.aesKeysRef (Chat.chat (tab world1)) !! bob = None) as H1
    by (vm_compute; reflexivity).
  assert (Chat2.getOrCreateSessionKey alice bob (tab world1)
          = (Ok (generateAESKey counting).1,
             (Chat2.getOrCreateSessionKey alice bob (tab world1)).2)) as H2
    by (vm_compute; reflexivity).
  assert (Chat.aesKeysRef
            (Chat.chat (Chat2.getOrCreateSessionKey alice bob (tab world1)).2)
          !! alice = None) as H3 by (vm_compute; reflexivity).
  exact (proj1 (proj2 (conversation_key_shared_across_tabs alice bob
           (tab world1) (generateAESKey counting).1
           (Chat2.getOrCreateSessionKey alice bob (tab world1)).2
           (Chat2.getOrCreateSessionKey alice bob (tab world1)).2
           H1 H2 eq_refl) H3)).
Defined.

Lemma chat2_message_delivered_witness :
  (Chat2.decryptMessage bob
     {| Message._id := 0; Message.sender := alice; Message.receiver := bob;
        Message.encryptedContent :=
          ciphertext (aesEncrypt (js "hello")
                        (generateAESKey (entropy (Chat.world (tab world1)))).1
                        (entropy world1)).1
          ++ js ":"
          ++ iv (aesEncrypt (js "hello")
                   (generateAESKey (entropy (Chat.world (tab world1)))).1
                   (entropy world1)).1;
        Message.messageHash := sha256 (js "hello");
        Message.timestamp := 0 |} bobTab).1
  = Ok {| DecryptedMessage.id := 0; DecryptedMessage.sender := alice;
          DecryptedMessage.receiver := bob;
          DecryptedMessage.content := js "hello";
          DecryptedMessage.timestamp := 0;
          DecryptedMessage.verified := true |}.
Proof.
  refine (proj2
    (chat2_message_delivered alice bob (tab world1) bobTab [x0a; x0b; x0c; x0d]
       ([x0a; x0b; x0c; x0d]
        ++ TextEncoder_encode
             (exportAESKey (generateAESKey (entropy (Chat.world (tab world1)))).1))
       (js "hello") world1 0 0 _ _
       _ _ _ _ _ _ _ _ _ _ _ _ _ _ _ _ _ _ _ _ _) _);
    try (vm_compute; reflexivity); vm_compute; discriminate.
Defined.

Lemma register_then_login_witness :
  Auth.status
    (Auth.login carol secret
       (Auth.register carol secret (authAPI.accounts site0)).2).1
  = 200.
Proof.
  assert (Auth.status (Auth.register carol secret (authAPI.accounts site0)).1
          = 201) as H by (vm_compute; reflexivity).
  exact (f_equal (λ x, Auth.status x.1)
           (proj1 (register_then_login carol secret (authAPI.accounts site0) H))).
Defined.

Lemma usernames_stay_unique_witness :
  NoDup (map User.username
           (Server.User (Auth.chat
              (Auth.register carol secret (authAPI.accounts site0)).2))).
Proof.
  assert (NoDup (map User.username
                   (Server.User (Auth.chat (authAPI.accounts site0))))) as H
    by (apply (bool_decide_unpack _); vm_compute; exact I).
  exact (usernames_stay_unique (Auth.POST_register carol secret)
           (authAPI.accounts site0) H).
Defined.

Lemma login_refused_shows_error_witness :
  Login.error
    (Login.form
       (Login.handleSubmit
          {| Login.form := {| Login.username := alice;
                              Login.password := secret; Login.error := [];
                              Login.loading := false |};
             Login.site := site0 |}).2)
  = js "Invalid username or password".
Proof.
  assert (alice ≠ []) as H1 by (vm_compute; discriminate).
  assert (secret ≠ []) as H2 by (vm_compute; discriminate).
  assert (online (App.world (authAPI.browser site0)) = true ->
          Auth.status (Auth.login alice secret (authAPI.accounts site0)).1
          ≠ 200) as H3 by (intros _; vm_compute; discriminate).
  exact (proj1 (proj2 (proj2 (proj2
           (login_refused_shows_error
              {| Login.form := {| Login.username := alice;
                                  Login.password := secret; Login.error := [];
                                  Login.loading := false |};
                 Login.site := site0 |} H1 H2 H3)))) eq_refl eq_refl).
Defined.

Lemma registered_user_logs_in_witness :
  App.currentUser
    (App.app (authAPI.browser (Login.site
       (Login.handleSubmit
          {| Login.form := {| Login.username := carol;
                              Login.password := secret; Login.error := [];
                              Login.loading := false |};
             Login.site :=
               Register.site
                 (Register.handleSubmit
                    {| Register.form :=
                         {| Register.username := carol;
                            Register.password := secret;
                            Register.confirmPassword := secret;
                            Register.error := [];
                            Register.loading := false |};
                       Register.site := site0 |}).2 |}).2)))
  = Some carol.
Proof.
  assert (3 ≤ length (trim carol))%nat as H1 by (vm_compute; lia).
  assert (6 ≤ length secret)%nat as H2 by (vm_compute; lia).
  assert (trim carol
          ∉ map User.username
              (Server.User (directory (App.world (authAPI.browser site0)))))
    as H3 by (apply (bool_decide_unpack _); vm_compute; exact I).
  assert (Auth.hashPassword secret ≠ []) as H4 by (vm_compute; discriminate).
  exact (proj1 (proj2 (proj2 (proj2
           (registered_user_logs_in carol secret site0 [] [] eq_refl eq_refl
              H1 H2 H3 H4))))).
Defined.

End MoreExamples.
